(** * Device discovery, selection and actions of the React Native control panel

    A shallow embedding of the device enumeration, normalisation and
    selection code of the control panel, and of the code around it that
    reads the command line, asks, runs commands and dispatches the
    actions:

    - [Utils.filterSimulatorsByHighestOSVersion]  (Utils module),
    - [IOS.listDevices], [IOS.selectDevice], [IOS.promptForDeviceSelection]
      (iOS module),
    - [Android.listDevices], [Android.selectDevice]  (Android module),
    - [Verbosity.executeCommand], [Cli.question], [Cli.confirm],
      [Cli.parseCommandLineArgs], [Cli.handleSpecialCommands],
      [Cli.checkEnvFile]  (Utils module),
    - [IOSRun.updatePods], [IOSRun.setupEnvironment],
      [IOSRun.getCleanDeviceName], [IOSRun.executeDebug],
      [IOSRun.executeRelease], [IOSRun.executeBuild]  (iOS module),
    - [AndroidRun.setupEnvironment], [AndroidRun.getVariant],
      [AndroidRun.executeDebug], [AndroidRun.executeRelease],
      [AndroidRun.executeBuild]  (Android module),
    - [Panel.executeIOSAction], [Panel.executeAndroidAction]  (the control
      panel), [UI.showMenu]  (UI module).

    Conventions of the embedding.

    - A JavaScript string is a [string]: a sequence of code units, here
      restricted to the code units 0..255 (Latin-1).  On that range the
      white space of [\s] and [trim] is 9..13, 32 and 160, [toLowerCase]
      touches A-Z and the accented capitals 192..222 (not 215), and a
      literal under the [i] flag only identifies the ASCII letter cases.
    - A regular expression literal is transcribed into the syntax [re]
      and run by a backtracking matcher that follows the order in which
      the JavaScript matcher tries alternatives.
    - A number that the code only uses as an integer is a [Z]; [NaN] is
      [None].  The values are exact below 2^53.
    - An exception is a result [Throw]; what [console.log] and
      [console.error] print, and the questions asked, are collected in a
      trace of [event]s (colours are dropped).
    - An action is given what the commands it runs give, as a function
      [shell] of the command line, and the lines the user will type; it
      leaves a trace of [effect]s: the events of the listing and of the
      selectors, its own messages, the commands it runs and the questions
      it asks.  *)

From Stdlib Require Import String Ascii List ZArith Bool Lia Arith Permutation.
Import ListNotations.
Open Scope string_scope.
Open Scope nat_scope.

(** ** JavaScript strings *)

Module JS.

Definition code (c : ascii) : nat := nat_of_ascii c.

(** White space and line terminators: what [\s] matches and [trim] strips. *)
Definition isWhiteSpace (c : ascii) : bool :=
  let n := code c in
  ((9 <=? n) && (n <=? 13)) || (n =? 32) || (n =? 160).

Definition isDigit (c : ascii) : bool :=
  let n := code c in (48 <=? n) && (n <=? 57).

Definition toLowerChar (c : ascii) : ascii :=
  let n := code c in
  if ((65 <=? n) && (n <=? 90))
     || ((192 <=? n) && (n <=? 222) && negb (n =? 215))
  then ascii_of_nat (n + 32) else c.

(** Canonical form of a code unit for a match under the [i] flag when the
    pattern character is an ASCII letter. *)
Definition toUpperAscii (c : ascii) : ascii :=
  let n := code c in
  if (97 <=? n) && (n <=? 122) then ascii_of_nat (n - 32) else c.

Fixpoint toLowerCase (s : string) : string :=
  match s with
  | EmptyString => EmptyString
  | String c s' => String (toLowerChar c) (toLowerCase s')
  end.

Fixpoint trimStart (s : string) : string :=
  match s with
  | String c s' => if isWhiteSpace c then trimStart s' else s
  | EmptyString => EmptyString
  end.

(** [trimEnd]: a white space character is dropped when everything after
    it has been dropped. *)
Fixpoint trimEnd (s : string) : string :=
  match s with
  | EmptyString => EmptyString
  | String c s' =>
      match trimEnd s' with
      | EmptyString => if isWhiteSpace c then EmptyString else String c EmptyString
      | t => String c t
      end
  end.

Definition trim (s : string) : string := trimEnd (trimStart s).

Definition startsWith (s p : string) : bool := String.prefix p s.

(** [s.includes(p)] *)
Fixpoint includes (s p : string) : bool :=
  String.prefix p s ||
  match s with
  | EmptyString => false
  | String _ s' => includes s' p
  end.

(** [s.split(sep)] for a separator of one character: never empty. *)
Fixpoint split (sep : ascii) (s : string) : list string :=
  match s with
  | EmptyString => [EmptyString]
  | String c s' =>
      if Ascii.eqb c sep then EmptyString :: split sep s'
      else match split sep s' with
           | x :: xs => String c x :: xs
           | [] => [String c EmptyString]
           end
  end.

(** [s.replace(/[..]/g, '')]: every character of the class is removed. *)
Fixpoint removeAll (p : ascii -> bool) (s : string) : string :=
  match s with
  | EmptyString => EmptyString
  | String c s' => if p c then removeAll p s' else String c (removeAll p s')
  end.

(** [s.replace(/c/g, d)] *)
Fixpoint replaceAllChar (c d : ascii) (s : string) : string :=
  match s with
  | EmptyString => EmptyString
  | String a s' => String (if Ascii.eqb a c then d else a) (replaceAllChar c d s')
  end.

(** A string is truthy when it is not empty. *)
Definition truthy (s : string) : bool :=
  match s with EmptyString => false | _ => true end.

Definition allDigits (s : string) : bool :=
  forallb isDigit (list_ascii_of_string s).

Definition digitValue (c : ascii) : Z := Z.of_nat (code c - 48).

(** Value of a run of decimal digits, most significant first. *)
Definition decimalValue (s : string) : Z :=
  fold_left (fun acc c => 10 * acc + digitValue c)%Z (list_ascii_of_string s) 0%Z.

(** [Number(s)] on the strings the version code feeds it: the parts of a
    text of digits and dots split at the dots, that is runs of decimal
    digits, the empty run included ([Number('')] is 0).  Any other text is
    taken to [NaN]; the numeric literals of other shapes (signs, exponents,
    hexadecimal, surrounding blanks) are outside the model, and every
    statement about versions assumes digits and dots. *)
Definition Number (s : string) : option Z :=
  if allDigits s then Some (decimalValue s) else None.

(** Longest prefix of characters of a class, and what follows it. *)
Fixpoint span (p : ascii -> bool) (s : string) : string * string :=
  match s with
  | EmptyString => (EmptyString, EmptyString)
  | String c s' =>
      if p c then let '(a, b) := span p s' in (String c a, b)
      else (EmptyString, s)
  end.

Definition isHexDigit (c : ascii) : bool :=
  let n := code c in
  isDigit c || ((65 <=? n) && (n <=? 70)) || ((97 <=? n) && (n <=? 102)).

Definition hexDigitValue (c : ascii) : Z :=
  let n := code c in
  if isDigit c then Z.of_nat (n - 48)
  else if (65 <=? n) && (n <=? 70) then Z.of_nat (n - 55)
  else Z.of_nat (n - 87).

Definition hexValue (s : string) : Z :=
  fold_left (fun acc c => 16 * acc + hexDigitValue c)%Z (list_ascii_of_string s) 0%Z.

(** Sign prefix of [parseInt]: the sign and the rest. *)
Definition parseSign (s : string) : Z * string :=
  match s with
  | String "-" s' => ((-1)%Z, s')
  | String "+" s' => (1%Z, s')
  | _ => (1%Z, s)
  end.

(** [parseInt(s, 10)]: leading white space is skipped, a sign is read,
    then the longest run of decimal digits; no digit gives [NaN]. *)
Definition parseInt10 (s : string) : option Z :=
  let '(sign, body) := parseSign (trimStart s) in
  let '(digits, _) := span isDigit body in
  if truthy digits then Some (sign * decimalValue digits)%Z else None.

(** [parseInt(s)] without a radix: as above, but a [0x] or [0X] prefix
    selects base 16. *)
Definition parseInt (s : string) : option Z :=
  let '(sign, body) := parseSign (trimStart s) in
  match body with
  | String "0" (String x rest) =>
      if Ascii.eqb x "x" || Ascii.eqb x "X" then
        let '(digits, _) := span isHexDigit rest in
        if truthy digits then Some (sign * hexValue digits)%Z else None
      else
        let '(digits, _) := span isDigit body in
        if truthy digits then Some (sign * decimalValue digits)%Z else None
  | _ =>
      let '(digits, _) := span isDigit body in
      if truthy digits then Some (sign * decimalValue digits)%Z else None
  end.

End JS.

(** ** Regular expressions *)

Module Regex.

(** The fragment of the regular expression syntax the code uses.
    Repetition only ever applies to a character class. *)
Inductive re : Type :=
| Eps                                             (* empty pattern *)
| Lit (c : ascii)                                 (* a literal character *)
| LitI (c : ascii)                                (* a literal under the i flag *)
| Rep (p : ascii -> bool) (min : nat) (greedy : bool)
    (* a class, the dot included, under a star or a plus, greedy or lazy *)
| Cat (r1 r2 : re)
| Opt (r : re)                                    (* r? (greedy) *)
| Cap (n : nat) (r : re)                          (* capture group number n *)
| Bos                                             (* ^ *)
| Eos.                                            (* $ *)

(** Captures, the most recent first: group number and captured text. *)
Definition caps := list (nat * string).

(** A match: start offset, end offset, captures. *)
Definition found := (nat * nat * caps)%type.

Definition cont := nat -> string -> caps -> option (nat * caps).

(** Zero or more characters of a class, then the continuation. A greedy
    repetition tries the longest run first, a lazy one the shortest. *)
Fixpoint star (p : ascii -> bool) (greedy : bool)
         (pos : nat) (s : string) (cs : caps) (k : cont) : option (nat * caps) :=
  match s with
  | String a s' =>
      if p a then
        if greedy then
          match star p greedy (S pos) s' cs k with
          | Some x => Some x
          | None => k pos s cs
          end
        else
          match k pos s cs with
          | Some x => Some x
          | None => star p greedy (S pos) s' cs k
          end
      else k pos s cs
  | EmptyString => k pos s cs
  end.

Fixpoint rep (p : ascii -> bool) (min : nat) (greedy : bool)
         (pos : nat) (s : string) (cs : caps) (k : cont) : option (nat * caps) :=
  match min with
  | O => star p greedy pos s cs k
  | S min' =>
      match s with
      | String a s' => if p a then rep p min' greedy (S pos) s' cs k else None
      | EmptyString => None
      end
  end.

(** [run r pos s cs k]: match [r] at offset [pos], where [s] is the rest
    of the input, then continue with [k]; alternatives are tried in the
    matcher's order and the first overall success is returned. *)
Fixpoint run (r : re) (pos : nat) (s : string) (cs : caps) (k : cont)
  : option (nat * caps) :=
  match r with
  | Eps => k pos s cs
  | Lit c =>
      match s with
      | String a s' => if Ascii.eqb a c then k (S pos) s' cs else None
      | EmptyString => None
      end
  | LitI c =>
      match s with
      | String a s' =>
          if Ascii.eqb (JS.toUpperAscii a) (JS.toUpperAscii c)
          then k (S pos) s' cs else None
      | EmptyString => None
      end
  | Rep p min greedy => rep p min greedy pos s cs k
  | Cat r1 r2 => run r1 pos s cs (fun pos' s' cs' => run r2 pos' s' cs' k)
  | Opt r1 =>
      match run r1 pos s cs k with
      | Some x => Some x
      | None => k pos s cs
      end
  | Cap n r1 =>
      run r1 pos s cs
          (fun pos' s' cs' => k pos' s' ((n, substring 0 (pos' - pos) s) :: cs'))
  | Bos => if Nat.eqb pos 0 then k pos s cs else None
  | Eos => match s with EmptyString => k pos s cs | _ => None end
  end.

Definition matchAt (r : re) (pos : nat) (s : string) : option (nat * caps) :=
  run r pos s [] (fun e _ cs => Some (e, cs)).

(** The first match, trying the start offsets from left to right. *)
Fixpoint search (r : re) (pos : nat) (s : string) : option found :=
  match matchAt r pos s with
  | Some (e, cs) => Some (pos, e, cs)
  | None =>
      match s with
      | EmptyString => None
      | String _ s' => search r (S pos) s'
      end
  end.

(** [s.match(r)] for a pattern without the g flag. *)
Definition exec (r : re) (s : string) : option found := search r 0 s.

(** Group [n] of a match; [None] is [undefined]. *)
Fixpoint lookupCap (n : nat) (cs : caps) : option string :=
  match cs with
  | [] => None
  | (m, t) :: cs' => if Nat.eqb m n then Some t else lookupCap n cs'
  end.

Definition group (n : nat) (m : found) : option string :=
  let '(_, _, cs) := m in lookupCap n cs.

(** [s.replace(r, '')] for a pattern without the g flag. *)
Definition remove (r : re) (s : string) : string :=
  match exec r s with
  | Some (b, e, _) => substring 0 b s ++ substring e (String.length s - e) s
  | None => s
  end.

(** Concatenation of a sequence of patterns, and literal text. *)
Definition seq (l : list re) : re := fold_right Cat Eps l.

Fixpoint lits (s : string) : re :=
  match s with
  | EmptyString => Eps
  | String c s' => Cat (Lit c) (lits s')
  end.

Fixpoint litsI (s : string) : re :=
  match s with
  | EmptyString => Eps
  | String c s' => Cat (LitI c) (litsI s')
  end.

(** Character classes. *)
Definition dot (c : ascii) : bool :=
  negb (Nat.eqb (JS.code c) 10 || Nat.eqb (JS.code c) 13).   (* . *)
Definition ws : ascii -> bool := JS.isWhiteSpace.           (* \s *)
Definition notWs (c : ascii) : bool := negb (JS.isWhiteSpace c).  (* [^\s] *)
Definition digitDot (c : ascii) : bool :=
  JS.isDigit c || Ascii.eqb c ".".                          (* [0-9.] *)
Definition isNot (x : ascii) (c : ascii) : bool := negb (Ascii.eqb c x).  (* [^x] *)
Definition paren (c : ascii) : bool :=
  Ascii.eqb c "(" || Ascii.eqb c ")".                       (* [()] *)

End Regex.

(** ** The device record and results *)

(** The keys of [CategorizedDevices], used as the category of a record. *)
Inductive Category : Type := physicalDevices | offlineDevices | simulators.

Definition Category_eqb (a b : Category) : bool :=
  match a, b with
  | physicalDevices, physicalDevices => true
  | offlineDevices, offlineDevices => true
  | simulators, simulators => true
  | _, _ => false
  end.

(** [DeviceInfo]: [id] and [name] are required, the other fields optional. *)
Record DeviceInfo : Type := mkDevice {
  id : string;
  name : string;
  category : option Category;
  platform : option string;
  osVersion : option string;
  index : option Z;
  modelName : option string
}.

Record CategorizedDevices : Type := mkCategorized {
  physical : list DeviceInfo;     (* physicalDevices *)
  offline : list DeviceInfo;      (* offlineDevices *)
  sims : list DeviceInfo          (* simulators *)
}.

Definition noDevices : CategorizedDevices := mkCategorized [] [] [].

(** A computation that returns or throws. *)
Inductive result (A : Type) : Type :=
| Ok (a : A)
| Throw (message : string).
Arguments Ok {A} a.
Arguments Throw {A} message.

(** ** Utils: the version-based deduplicator *)

Module Utils.
Import Regex.

(** [/OS:([0-9.]+)/i] *)
Definition osInIdRe : re := seq [litsI "OS:"; Cap 1 (Rep digitDot 1 true)].

(** [/\(([0-9.]+)\)/] *)
Definition parenVersionRe : re :=
  seq [Lit "("; Cap 1 (Rep digitDot 1 true); Lit ")"].

(** [/\s+Simulator$/i] *)
Definition simulatorSuffixRe : re := seq [Rep ws 1 true; litsI "Simulator"; Eos].

(** [/\s*\([0-9.]+\)\s*$/] *)
Definition versionSuffixRe : re :=
  seq [Rep ws 0 true; Lit "("; Rep digitDot 1 true; Lit ")"; Rep ws 0 true; Eos].

(** The capture [m[1]] of [s.match(r)] when there is a match and the
    capture is not empty ([m && m[1]]). *)
Definition firstGroup (r : re) (s : string) : option string :=
  match exec r s with
  | Some m =>
      match group 1 m with
      | Some g => if JS.truthy g then Some g else None
      | None => None
      end
  | None => None
  end.

(** The version attached to a simulator: its [osVersion] when it has a
    non-empty one, else what its id, then its name, give, else ["0"]. *)
Definition extractOsVersion (simulator : DeviceInfo) : string :=
  let fromIdAndName :=
    let osVersion1 :=
      match firstGroup osInIdRe (id simulator) with
      | Some g => g
      | None => "0"
      end in
    if String.eqb osVersion1 "0" then
      match firstGroup parenVersionRe (name simulator) with
      | Some g => g
      | None => osVersion1
      end
    else osVersion1 in
  match osVersion simulator with
  | Some v => if JS.truthy v then v else fromIdAndName
  | None => fromIdAndName
  end.

(** The grouping key: the name without a final "Simulator" word and
    without a final version in parentheses. *)
Definition extractModelName (simulator : DeviceInfo) : string :=
  remove versionSuffixRe (remove simulatorSuffixRe (name simulator)).

(** [{ ...simulator, osVersion, modelName }] *)
Definition annotate (simulator : DeviceInfo) : DeviceInfo :=
  {| id := id simulator;
     name := name simulator;
     category := category simulator;
     platform := platform simulator;
     osVersion := Some (extractOsVersion simulator);
     index := index simulator;
     modelName := Some (extractModelName simulator) |}.

(** The object [modelGroups]: its own properties in creation order. *)
Definition groups := list (string * list DeviceInfo).

(** The properties every object literal inherits from [Object.prototype]:
    each of them is a function or an object, hence truthy, and none has a
    [push] method. *)
Definition objectPrototypeKeys : list string :=
  [ "constructor"; "__defineGetter__"; "__defineSetter__"; "hasOwnProperty";
    "__lookupGetter__"; "__lookupSetter__"; "isPrototypeOf";
    "propertyIsEnumerable"; "toString"; "valueOf"; "__proto__";
    "toLocaleString" ].

Definition inherited (k : string) : bool :=
  existsb (String.eqb k) objectPrototypeKeys.

Fixpoint getOwn (k : string) (o : groups) : option (list DeviceInfo) :=
  match o with
  | [] => None
  | (k', g) :: o' => if String.eqb k k' then Some g else getOwn k o'
  end.

(** [modelGroups[k].push(e)] on an own property. *)
Fixpoint pushOwn (k : string) (e : DeviceInfo) (o : groups) : groups :=
  match o with
  | [] => []
  | (k', g) :: o' =>
      if String.eqb k k' then (k', g ++ [e])%list :: o'
      else (k', g) :: pushOwn k e o'
  end.

(** One turn of the first [forEach]: the group of the model is created
    when [modelGroups[modelName]] is falsy, and the annotated record is
    pushed on [modelGroups[modelName]].  When the model name is the name
    of an inherited property the read is truthy, no group is created and
    the call of [push] throws a [TypeError]. *)
Definition addToGroup (o : groups) (simulator : DeviceInfo) : result groups :=
  let modelName := extractModelName simulator in
  let entry := annotate simulator in
  match getOwn modelName o with
  | Some _ => Ok (pushOwn modelName entry o)
  | None =>
      if inherited modelName
      then Throw "modelGroups[modelName].push is not a function"
      else Ok (o ++ [(modelName, [entry])])%list
  end.

Fixpoint groupByModel (o : groups) (simulators : list DeviceInfo) : result groups :=
  match simulators with
  | [] => Ok o
  | simulator :: rest =>
      match addToGroup o simulator with
      | Ok o' => groupByModel o' rest
      | Throw e => Throw e
      end
  end.

(** [v.split('.').map(Number)] *)
Definition versionParts (v : string) : list (option Z) :=
  map JS.Number (JS.split "." v).

(** [i < parts.length ? parts[i] : 0] *)
Definition partAt (parts : list (option Z)) (i : nat) : option Z :=
  nth i parts (Some 0%Z).

(** [a !== b] on numbers: [NaN] differs from everything. *)
Definition numNeq (a b : option Z) : bool :=
  match a, b with
  | Some x, Some y => negb (Z.eqb x y)
  | _, _ => true
  end.

Definition numSub (a b : option Z) : option Z :=
  match a, b with
  | Some x, Some y => Some (x - y)%Z
  | _, _ => None
  end.

(** The loop of the comparator: [n] turns are left, [i] is the index. *)
Fixpoint compareFrom (n i : nat) (aParts bParts : list (option Z)) : option Z :=
  match n with
  | O => Some 0%Z
  | S n' =>
      let aValue := partAt aParts i in
      let bValue := partAt bParts i in
      if numNeq aValue bValue then numSub bValue aValue
      else compareFrom n' (S i) aParts bParts
  end.

(** [d.osVersion!]: every record of a group has been through [annotate],
    so that the version is there. *)
Definition versionOf (d : DeviceInfo) : string :=
  match osVersion d with Some v => v | None => EmptyString end.

(** The comparator given to [sort]: descending versions. *)
Definition compareVersions (a b : DeviceInfo) : option Z :=
  let aVersionParts := versionParts (versionOf a) in
  let bVersionParts := versionParts (versionOf b) in
  compareFrom (Nat.max (List.length aVersionParts) (List.length bVersionParts)) 0
              aVersionParts bVersionParts.

(** [Array.prototype.sort] is stable, and with a consistent comparator
    every stable sort returns the same array; it is modelled by the stable
    insertion sort.  A comparator result that is [NaN] counts as 0. *)
Definition isPositive (r : option Z) : bool :=
  match r with Some z => (0 <? z)%Z | None => false end.

Fixpoint insertSorted (cmp : DeviceInfo -> DeviceInfo -> option Z)
         (x : DeviceInfo) (l : list DeviceInfo) : list DeviceInfo :=
  match l with
  | [] => [x]
  | y :: l' => if isPositive (cmp x y) then y :: insertSorted cmp x l' else x :: l
  end.

Definition sort (cmp : DeviceInfo -> DeviceInfo -> option Z)
           (l : list DeviceInfo) : list DeviceInfo :=
  fold_right (insertSorted cmp) [] l.

(** [Object.keys]: the keys that are array indices (canonical decimal
    numerals up to 2^32 - 2) come first, in ascending numeric order, then
    the other keys in creation order. *)
Definition isArrayIndex (k : string) : bool :=
  JS.truthy k && JS.allDigits k
  && (String.eqb k "0" || negb (String.prefix "0" k))
  && (JS.decimalValue k <=? 4294967294)%Z.

Fixpoint insertKey (k : string) (l : list string) : list string :=
  match l with
  | [] => [k]
  | k' :: l' =>
      if (JS.decimalValue k <=? JS.decimalValue k')%Z then k :: l
      else k' :: insertKey k l'
  end.

Definition sortKeys (l : list string) : list string := fold_right insertKey [] l.

Definition objectKeys (o : groups) : list string :=
  let ks := map fst o in
  (sortKeys (filter isArrayIndex ks)
     ++ filter (fun k => negb (isArrayIndex k)) ks)%list.

(** One turn of the second [forEach]: the group is sorted and its first
    record, when there is one, is pushed on the result. *)
Definition highestOfGroup (o : groups) (modelName : string) : list DeviceInfo :=
  match getOwn modelName o with
  | Some simulatorsForModel =>
      match sort compareVersions simulatorsForModel with
      | first :: _ => [first]
      | [] => []
      end
  | None => []
  end.

Definition highestVersionSimulators (o : groups) : list DeviceInfo :=
  flat_map (highestOfGroup o) (objectKeys o).

Definition filterSimulatorsByHighestOSVersion (simulators : list DeviceInfo)
  : result (list DeviceInfo) :=
  match groupByModel [] simulators with
  | Ok modelGroups => Ok (highestVersionSimulators modelGroups)
  | Throw e => Throw e
  end.

End Utils.

(** ** Console and prompt *)

(** What the code prints.  Each constructor stands for one message; the
    colour and the pictograms in front of some messages are dropped. *)
Inductive message : Type :=
| Heading (title : string)                (* '\n== Devices ==' and the like, in bold *)
| Selectable (n : option Z) (d : DeviceInfo)   (* `${n} - ${d.name} (${d.id})` *)
| SelectableName (n : Z) (d : DeviceInfo)      (* `${n} - ${d.name}` *)
| Unavailable (d : DeviceInfo)            (* `Device unavailable - ${d.name} (${d.id})` *)
| NoPhysicalDevices                       (* 'No physical devices connected' *)
| NoDevicesAvailable                      (* 'No ... devices or ... available' *)
| InvalidSelection (count : nat)          (* `Invalid selection. Please enter a number between 1 and ${count}.` *)
| InvalidUsingDefault                     (* 'Invalid selection. Using default emulator.' *)
| MaximumAttempts                         (* 'Maximum attempts reached. Showing device list again:' *)
| SelectedDevice (deviceName : string)    (* `Selected device: ${deviceName}` *)
| ErrorListing (e : string)               (* `Error listing ... devices: ${e}` *)
| ErrorSelecting (e : string).            (* `Error during device selection: ${e}` *)

Inductive event : Type :=
| Log (m : message)          (* console.log *)
| LogError (m : message)     (* console.error *)
| Question.                  (* utils.question: one line of input is awaited *)

(** What a call of [utils.question] gets: a line, or a fault. *)
Inductive answer : Type :=
| Line (text : string)
| Fault (e : string).

(** How an interactive function ends on a finite supply of answers: it
    returns, it throws, or it is still waiting for a line. *)
Inductive outcome (A : Type) : Type :=
| Returned (a : A)
| Thrown (e : string)
| Awaiting.
Arguments Returned {A} a.
Arguments Thrown {A} e.
Arguments Awaiting {A}.

Definition isQuestion (e : event) : bool :=
  match e with Question => true | _ => false end.

(** The number of prompts issued in a trace. *)
Definition questions (t : list event) : nat := List.length (filter isQuestion t).

Definition hasCategory (c : Category) (d : DeviceInfo) : bool :=
  match category d with Some c' => Category_eqb c' c | None => false end.

(** ** iOS: Parser B and the iOS selector *)

Module IOS.
Import Regex.

(** [/^(.+?)\s+(\([0-9.]+\))?\s+\(([^)]+)\)$/] *)
Definition standardRe : re :=
  seq [Bos; Cap 1 (Rep dot 1 false); Rep ws 1 true;
       Opt (Cap 2 (seq [Lit "("; Rep digitDot 1 true; Lit ")"]));
       Rep ws 1 true; Lit "("; Cap 3 (Rep (isNot ")") 1 true); Lit ")"; Eos].

(** [/platform:([^,]+)/], [/id:([^,]+)/], [/OS:([0-9.]+)/], [/name:([^}]+)/] *)
Definition platformRe : re := seq [lits "platform:"; Cap 1 (Rep (isNot ",") 1 true)].
Definition idRe : re := seq [lits "id:"; Cap 1 (Rep (isNot ",") 1 true)].
Definition osRe : re := seq [lits "OS:"; Cap 1 (Rep digitDot 1 true)].
Definition nameRe : re := seq [lits "name:"; Cap 1 (Rep (isNot "}") 1 true)].

(** [/^(.+?) Simulator \([0-9.]+\) \(([^)]+)\)$/] *)
Definition simpleRe : re :=
  seq [Bos; Cap 1 (Rep dot 1 false); lits " Simulator ("; Rep digitDot 1 true;
       lits ") ("; Cap 2 (Rep (isNot ")") 1 true); Lit ")"; Eos].

Definition device (deviceName deviceId : string) (c : Category)
           (p v : option string) : DeviceInfo :=
  {| id := deviceId; name := deviceName; category := Some c;
     platform := p; osVersion := v; index := None; modelName := None |}.

(** The three line grammars, tried in order on a trimmed, non-empty
    line that is not a section marker. *)
Definition parseLine (line : string) (currentCategory : Category)
  : option DeviceInfo :=
  match exec standardRe line with
  | Some standardMatch =>
      match group 1 standardMatch, group 3 standardMatch with
      | Some g1, Some g3 =>
          let version :=
            match group 2 standardMatch with
            | Some g2 =>
                let v := JS.removeAll paren g2 in
                if JS.truthy v then Some v else None
            | None => None
            end in
          Some (device (JS.trim g1) (JS.trim g3) currentCategory None version)
      | _, _ => None
      end
  | None =>
      if JS.includes line "platform:" && JS.includes line "OS:"
         && JS.includes line "name:"
      then
        match exec platformRe line, exec idRe line, exec osRe line, exec nameRe line with
        | Some platformMatch, Some idMatch, Some osMatch, Some nameMatch =>
            match group 1 platformMatch, group 1 idMatch,
                  group 1 osMatch, group 1 nameMatch with
            | Some p, Some i, Some o, Some n =>
                Some (device (JS.trim n) (JS.trim i) currentCategory
                             (Some (JS.trim p)) (Some (JS.trim o)))
            | _, _, _, _ => None
            end
        | _, _, _, _ => None
        end
      else
        match exec simpleRe line with
        | Some simpleMatch =>
            match group 1 simpleMatch, group 2 simpleMatch with
            | Some g1, Some g2 =>
                Some (device (JS.trim g1 ++ " Simulator") (JS.trim g2) currentCategory
                             None (Utils.firstGroup Utils.parenVersionRe line))
            | _, _ => None
            end
        | None => None
        end
  end.

(** The inclusion rules: a parsed record is pushed on its category. *)
Definition addDevice (c : Category) (deviceInfo : DeviceInfo)
           (acc : CategorizedDevices) : CategorizedDevices :=
  let deviceName := JS.toLowerCase (name deviceInfo) in
  match c with
  | simulators =>
      if JS.includes deviceName "iphone"
      then mkCategorized (physical acc) (offline acc) (sims acc ++ [deviceInfo])%list
      else acc
  | physicalDevices =>
      if negb (JS.includes deviceName "macbook") && negb (JS.includes deviceName "ipad")
      then mkCategorized (physical acc ++ [deviceInfo])%list (offline acc) (sims acc)
      else acc
  | offlineDevices =>
      mkCategorized (physical acc) (offline acc ++ [deviceInfo])%list (sims acc)
  end.

(** One turn of the loop over the lines. *)
Definition scanLine (st : option Category * CategorizedDevices) (raw : string)
  : option Category * CategorizedDevices :=
  let '(currentCategory, acc) := st in
  let line := JS.trim raw in
  if JS.startsWith line "==" then
    if String.eqb line "== Devices ==" then (Some physicalDevices, acc)
    else if String.eqb line "== Devices Offline ==" then (Some offlineDevices, acc)
    else if JS.includes line "Simulator" then (Some simulators, acc)
    else st
  else if negb (JS.truthy line) then st
  else
    match currentCategory with
    | Some c =>
        match parseLine line c with
        | Some deviceInfo => (currentCategory, addDevice c deviceInfo acc)
        | None => st
        end
    | None => st
    end.

Definition scan (rawDeviceList : string) : CategorizedDevices :=
  snd (fold_left scanLine (JS.split "010" rawDeviceList) (None, noDevices)).

(** [listDevices]: the argument is what [executeCommand] gave, the
    captured output or a rejection. *)
Definition listDevices (command : result string)
  : list event * CategorizedDevices :=
  match command with
  | Ok rawDeviceList =>
      let categorizedDevices := scan rawDeviceList in
      match sims categorizedDevices with
      | [] => ([], categorizedDevices)
      | _ :: _ =>
          match Utils.filterSimulatorsByHighestOSVersion (sims categorizedDevices) with
          | Ok filtered =>
              ([], mkCategorized (physical categorizedDevices)
                                 (offline categorizedDevices) filtered)
          | Throw e => ([LogError (ErrorListing e)], noDevices)
          end
      end
  | Throw e => ([LogError (ErrorListing e)], noDevices)
  end.

(** [{ ...device, index: deviceCounter }] *)
Definition withIndex (d : DeviceInfo) (n : Z) : DeviceInfo :=
  {| id := id d; name := name d; category := category d; platform := platform d;
     osVersion := osVersion d; index := Some n; modelName := modelName d |}.

(** The state of one rendering pass: the counter, the selectable devices
    collected so far and what has been printed. *)
Record render : Type := mkRender {
  deviceCounter : Z;
  allDevices : list DeviceInfo;
  printed : list event
}.

(** One selectable device is printed, collected and counted. *)
Definition showSelectable (r : render) (d : DeviceInfo) : render :=
  {| deviceCounter := deviceCounter r + 1;
     allDevices := (allDevices r ++ [withIndex d (deviceCounter r)])%list;
     printed := (printed r ++ [Log (Selectable (Some (deviceCounter r)) d)])%list |}.

Definition say (r : render) (es : list event) : render :=
  {| deviceCounter := deviceCounter r; allDevices := allDevices r;
     printed := (printed r ++ es)%list |}.

Definition isIphone (d : DeviceInfo) : bool :=
  JS.includes (JS.toLowerCase (name d)) "iphone".

Definition showSimulator (r : render) (d : DeviceInfo) : render :=
  if isIphone d then showSelectable r d else r.

(** The display part of [selectDevice]. *)
Definition renderDevices (c : CategorizedDevices) : render :=
  let r0 := {| deviceCounter := 1; allDevices := [];
               printed := [Log (Heading "== Devices ==")] |} in
  let r1 :=
    match physical c with
    | [] => say r0 [Log NoPhysicalDevices]
    | _ :: _ => fold_left showSelectable (physical c) r0
    end in
  let r2 :=
    match offline c with
    | [] => r1
    | _ :: _ =>
        say r1 (Log (Heading "== Devices Offline ==")
                  :: map (fun d => Log (Unavailable d)) (offline c))
    end in
  match sims c with
  | [] => r2
  | _ :: _ =>
      fold_left showSimulator (sims c) (say r2 [Log (Heading "== Simulators ==")])
  end.

(** [allDevices.find((d) => d.index === selectedIndex)] *)
Definition hasIndex (selectedIndex : option Z) (d : DeviceInfo) : bool :=
  match index d, selectedIndex with
  | Some i, Some n => Z.eqb i n
  | _, _ => false
  end.

Definition findIndex (all : list DeviceInfo) (selectedIndex : option Z)
  : option DeviceInfo :=
  find (hasIndex selectedIndex) all.

Definition found (all : list DeviceInfo) (selectedIndex : option Z) : bool :=
  match findIndex all selectedIndex with Some _ => true | None => false end.

Definition maxAttempts : nat := 3.

(** What is printed again when the attempts are used up. *)
Definition redisplay (all : list DeviceInfo) : list event :=
  let physicalDevices := filter (hasCategory physicalDevices) all in
  let simulatorDevices := filter (hasCategory simulators) all in
  (Log MaximumAttempts :: Log (Heading "== Devices ==")
     :: match physicalDevices with
        | [] => [Log NoPhysicalDevices]
        | _ :: _ => map (fun d => Log (Selectable (index d) d)) physicalDevices
        end
     ++ Log (Heading "== Simulators ==")
     :: map (fun d => Log (Selectable (index d) d)) simulatorDevices)%list.

(** The loop of [promptForDeviceSelection] on a supply of answers; the
    state is [selectedIndex] and [attempts]. *)
Fixpoint promptLoop (all : list DeviceInfo) (selectedIndex : option Z)
         (attempts : nat) (answers : list answer)
  : list event * outcome (option DeviceInfo) :=
  if negb (found all selectedIndex) && (attempts <? maxAttempts) then
    match answers with
    | [] => ([Question], Awaiting)
    | Fault e :: _ => ([Question; LogError (ErrorSelecting e)], Returned None)
    | Line text :: rest =>
        let parsed := JS.parseInt10 (JS.trim text) in
        if match parsed with None => true | Some _ => false end
           || negb (found all parsed)
        then
          let attempts1 := S attempts in
          let invalid := Log (InvalidSelection (List.length all)) in
          if maxAttempts <=? attempts1 then
            let '(t, o) := promptLoop all (Some (-1)%Z) 0 rest in
            ((Question :: invalid :: redisplay all) ++ t, o)%list
          else
            let '(t, o) := promptLoop all (Some (-1)%Z) attempts1 rest in
            (Question :: invalid :: t, o)
        else
          let '(t, o) := promptLoop all parsed attempts rest in
          (Question :: t, o)
    end
  else
    match findIndex all selectedIndex with
    | Some selectedDevice =>
        ([Log (SelectedDevice (name selectedDevice))], Returned (Some selectedDevice))
    | None => ([], Returned None)
    end.

Definition promptForDeviceSelection (all : list DeviceInfo) (answers : list answer)
  : list event * outcome (option DeviceInfo) :=
  promptLoop all (Some (-1)%Z) 0 answers.

Definition selectDevice (categorizedDevices : CategorizedDevices)
           (answers : list answer) : list event * outcome (option DeviceInfo) :=
  let r := renderDevices categorizedDevices in
  match allDevices r with
  | [] => ((printed r ++ [Log NoDevicesAvailable])%list, Returned None)
  | _ :: _ =>
      let '(t, o) := promptForDeviceSelection (allDevices r) answers in
      ((printed r ++ t)%list, o)
  end.

End IOS.

(** ** Android: Parser A and the Android selector *)

Module Android.
Import Regex.

(** [/^([^\s]+)\s+device\s+(.{0,})$/], the last group being written
    with a star in the source. *)
Definition deviceRe : re :=
  seq [Bos; Cap 1 (Rep notWs 1 true); Rep ws 1 true; lits "device";
       Rep ws 1 true; Cap 2 (Rep dot 0 true); Eos].

(** [/model:([^\s]+)/] *)
Definition modelRe : re := seq [lits "model:"; Cap 1 (Rep notWs 1 true)].

Definition device (deviceId deviceName : string) (c : Category) : DeviceInfo :=
  {| id := deviceId; name := deviceName; category := Some c;
     platform := None; osVersion := None; index := None; modelName := None |}.

(** One line of the [adb devices -l] listing. *)
Definition parseAdbLine (line : string) : list DeviceInfo :=
  if JS.truthy (JS.trim line) then
    match exec deviceRe line with
    | Some deviceMatch =>
        match group 1 deviceMatch, group 2 deviceMatch with
        | Some deviceId, Some details =>
            let deviceName :=
              match exec modelRe details with
              | Some modelMatch =>
                  match group 1 modelMatch with
                  | Some m => JS.replaceAllChar "_" " " m
                  | None => "Android Device"
                  end
              | None => "Android Device"
              end in
            [device deviceId deviceName physicalDevices]
        | _, _ => []
        end
    | None => []
    end
  else [].

(** [adbDevices.split('\n').slice(1)], then the loop over the lines. *)
Definition parseAdb (adbDevices : string) : list DeviceInfo :=
  flat_map parseAdbLine (tl (JS.split "010" adbDevices)).

Definition parseEmulatorLine (emulator : string) : list DeviceInfo :=
  if JS.truthy (JS.trim emulator)
  then [device ("emulator-" ++ JS.trim emulator) (JS.trim emulator) simulators]
  else [].

Definition parseEmulators (emulators : string) : list DeviceInfo :=
  flat_map parseEmulatorLine (JS.split "010" emulators).

(** [listDevices]: the arguments are what the two calls of
    [executeCommand] give; the second is only made when the first
    succeeded. *)
Definition listDevices (adb emulator : result string)
  : list event * list DeviceInfo :=
  match adb with
  | Ok adbDevices =>
      match emulator with
      | Ok emulators => ([], (parseAdb adbDevices ++ parseEmulators emulators)%list)
      | Throw e => ([LogError (ErrorListing e)], [])
      end
  | Throw e => ([LogError (ErrorListing e)], [])
  end.

(** [l.forEach((device, index) => print (start + index + 1))] *)
Fixpoint numbered (start : Z) (l : list DeviceInfo) : list (Z * DeviceInfo) :=
  match l with
  | [] => []
  | d :: l' => (start + 1, d)%Z :: numbered (start + 1) l'
  end.

(** The list printed by [selectDevice]. *)
Definition display (devices : list DeviceInfo) : list event :=
  let physicalDevices := filter (hasCategory physicalDevices) devices in
  let emulators := filter (hasCategory simulators) devices in
  (Log (Heading "== Android Devices ==")
     :: match physicalDevices with
        | [] => [Log NoPhysicalDevices]
        | _ :: _ =>
            map (fun '(n, d) => Log (Selectable (Some n) d)) (numbered 0 physicalDevices)
        end
     ++ match emulators with
        | [] => []
        | _ :: _ =>
            Log (Heading "== Emulators ==")
              :: map (fun '(n, d) => Log (SelectableName n d))
                     (numbered (Z.of_nat (List.length physicalDevices)) emulators)
        end)%list.

(** What the answer resolves to. *)
Definition resolve (devices : list DeviceInfo) (text : string)
  : list event * option string :=
  if String.eqb (JS.toLowerCase text) "e" then ([], Some "emulator")
  else
    match JS.parseInt text with
    | None => ([Log InvalidUsingDefault], Some "emulator")
    | Some n =>
        let selectedIndex := (n - 1)%Z in
        if (selectedIndex <? 0)%Z
           || (Z.of_nat (List.length devices) <=? selectedIndex)%Z
        then ([Log InvalidUsingDefault], Some "emulator")
        else
          match nth_error devices (Z.to_nat selectedIndex) with
          | Some selectedDevice =>
              ([Log (SelectedDevice (name selectedDevice))], Some (id selectedDevice))
          | None => ([Log InvalidUsingDefault], Some "emulator")
          end
    end.

Definition selectDevice (adb emulator : result string) (answers : list answer)
  : list event * outcome (option string) :=
  let '(t, devices) := listDevices adb emulator in
  match devices with
  | [] => ((t ++ [Log NoDevicesAvailable])%list, Returned None)
  | _ :: _ =>
      match answers with
      | [] => ((t ++ display devices ++ [Question])%list, Awaiting)
      | Fault e :: _ => ((t ++ display devices ++ [Question])%list, Thrown e)
      | Line text :: _ =>
          let '(t', r) := resolve devices text in
          ((t ++ display devices ++ Question :: t')%list, Returned r)
      end
  end.

End Android.

(** ** Vocabulary of the statements *)

Definition newline : string := String "010" EmptyString.

(** A text without line break: one line of a captured output. *)
Definition oneLine (s : string) : bool :=
  forallb (fun c => negb (Ascii.eqb c "010")) (list_ascii_of_string s).

(** The [i]-th dot-separated component of a version as a number; a
    missing component counts as 0. *)
Definition valueAt (parts : list (option Z)) (i : nat) : Z :=
  match Utils.partAt parts i with
  | Some z => z
  | None => 0%Z
  end.

Definition component (v : string) (i : nat) : Z := valueAt (Utils.versionParts v) i.

(** Parts that are all numbers: no [NaN] among them. *)
Definition numeric (parts : list (option Z)) : Prop :=
  Forall (fun p => p <> None) parts.

(** Component-wise numeric comparison, from the left. *)
Definition versionLt (v w : string) : Prop :=
  exists i, (component v i < component w i)%Z
            /\ forall j, j < i -> component v j = component w j.

Definition versionEq (v w : string) : Prop :=
  forall i, component v i = component w i.

Definition versionLe (v w : string) : Prop := versionLt v w \/ versionEq v w.

(** A version the model is exact on: digits and dots, every component at
    most 2^53. *)
Definition versionOk (v : string) : bool :=
  forallb Regex.digitDot (list_ascii_of_string v)
  && forallb (fun p => (JS.decimalValue p <=? 9007199254740992)%Z) (JS.split "." v).

(** A record that carries a version the model is exact on. *)
Definition hasVersion (d : DeviceInfo) : bool :=
  match osVersion d with Some v => versionOk v | None => false end.

(** [w] is the record of [grp] met first among those of highest version:
    the records before it are strictly lower, the records after it are
    not higher. *)
Definition firstHighest (grp : list DeviceInfo) (w : DeviceInfo) : Prop :=
  exists before after,
    grp = (before ++ w :: after)%list
    /\ Forall (fun x => versionLt (Utils.versionOf x) (Utils.versionOf w)) before
    /\ Forall (fun x => versionLe (Utils.versionOf x) (Utils.versionOf w)) after.

(** The group of a model name in a list of simulators, as the first loop
    builds it. *)
Definition groupOf (m : string) (simulators : list DeviceInfo) : list DeviceInfo :=
  map Utils.annotate
      (filter (fun d => String.eqb (Utils.extractModelName d) m) simulators).

Definition hasModel (m : string) (d : DeviceInfo) : bool :=
  match modelName d with Some m' => String.eqb m' m | None => false end.

(** The numbers 1, 2, ..., n. *)
Definition upTo (n : nat) : list Z := map Z.of_nat (seq 1 n).

(** The numbers shown in front of the devices in a trace. *)
Definition shownNumber (e : event) : list (option Z) :=
  match e with
  | Log (Selectable n _) => [n]
  | Log (SelectableName n _) => [Some n]
  | _ => []
  end.

Definition shownNumbers (t : list event) : list (option Z) := flat_map shownNumber t.

(** The devices shown as unavailable in a trace. *)
Definition shownUnavailable (e : event) : list DeviceInfo :=
  match e with
  | Log (Unavailable d) => [d]
  | _ => []
  end.

(** An answer from which no assigned index can be read. *)
Definition invalidLine (all : list DeviceInfo) (text : string) : bool :=
  negb (IOS.found all (JS.parseInt10 (JS.trim text))).

(** The events of one invalid attempt that does not use up the attempts. *)
Definition invalidAttempt (all : list DeviceInfo) : list event :=
  [Question; Log (InvalidSelection (List.length all))].

(** The devices of a list numbered from [k] on. *)
Fixpoint countFrom (k : Z) (l : list DeviceInfo) : list (Z * DeviceInfo) :=
  match l with
  | [] => []
  | d :: l' => (k, d) :: countFrom (k + 1) l'
  end.

Definition indexedDevice (p : Z * DeviceInfo) : DeviceInfo :=
  IOS.withIndex (snd p) (fst p).

Definition selectableLine (p : Z * DeviceInfo) : event :=
  Log (Selectable (Some (fst p)) (snd p)).

(** The selectable set of the iOS selector: the physical devices, then
    the simulators whose name holds "iphone". *)
Definition selectable (c : CategorizedDevices) : list DeviceInfo :=
  (physical c ++ filter IOS.isIphone (sims c))%list.

(** The lines of one iOS rendering pass, in display order: the physical
    devices, the offline devices, the simulators. *)
Definition renderedLines (c : CategorizedDevices) : list event :=
  (Log (Heading "== Devices ==")
     :: match physical c with
        | [] => [Log NoPhysicalDevices]
        | _ :: _ => map selectableLine (countFrom 1 (physical c))
        end
     ++ match offline c with
        | [] => []
        | _ :: _ =>
            Log (Heading "== Devices Offline ==")
              :: map (fun d => Log (Unavailable d)) (offline c)
        end
     ++ match sims c with
        | [] => []
        | _ :: _ =>
            Log (Heading "== Simulators ==")
              :: map selectableLine
                     (countFrom (1 + Z.of_nat (List.length (physical c)))
                                (filter IOS.isIphone (sims c)))
        end)%list.

(** An answer from which the Android selector reads no listed number. *)
Definition noListedNumber (devices : list DeviceInfo) (text : string) : bool :=
  match JS.parseInt text with
  | None => true
  | Some n => (n <? 1)%Z || (Z.of_nat (List.length devices) <? n)%Z
  end.

(** The counter of attempts after one more invalid attempt, and what is
    printed after the error message. *)
Definition nextAttempts (attempts : nat) : nat :=
  if IOS.maxAttempts <=? S attempts then 0 else S attempts.

Definition shownAgain (all : list DeviceInfo) (attempts : nat) : list event :=
  if IOS.maxAttempts <=? S attempts then IOS.redisplay all else [].

(** The group of a key after further records have been pushed. *)
Definition mergeGroup (own : option (list DeviceInfo)) (more : list DeviceInfo)
  : option (list DeviceInfo) :=
  match own with
  | Some grp => Some (grp ++ more)%list
  | None => match more with [] => None | _ :: _ => Some more end
  end.

(** Every character of a text is in a class; a text does not start with
    a character of a class. *)
Definition allOf (p : ascii -> bool) (s : string) : bool :=
  forallb p (list_ascii_of_string s).

Definition stopsAt (p : ascii -> bool) (s : string) : bool :=
  match s with
  | EmptyString => true
  | String c _ => negb (p c)
  end.

(** A token: a non-empty text without white space. *)
Definition token (s : string) : bool :=
  JS.truthy s && allOf Regex.notWs s.

(** The order in which [Object.keys] gives a list of distinct keys that
    were created in the order of the list. *)
Definition keyOrder (ks : list string) : list string :=
  (Utils.sortKeys (filter Utils.isArrayIndex ks)
     ++ filter (fun k => negb (Utils.isArrayIndex k)) ks)%list.

(** Keys in ascending numeric order. *)
Fixpoint ascending (ks : list string) : Prop :=
  match ks with
  | [] => True
  | k :: ks' =>
      match ks' with
      | [] => True
      | k' :: _ => (JS.decimalValue k <= JS.decimalValue k')%Z
      end /\ ascending ks'
  end.

(** The number and the device of a line of the list of devices. *)
Definition shownPair (e : event) : list (Z * DeviceInfo) :=
  match e with
  | Log (Selectable (Some n) d) => [(n, d)]
  | Log (SelectableName n d) => [(n, d)]
  | _ => []
  end.

Definition shownPairs (t : list event) : list (Z * DeviceInfo) := flat_map shownPair t.

(** A raw line that is no section marker. *)
Definition noMarker (raw : string) : bool :=
  negb (JS.startsWith (JS.trim raw) "==").

(** What the categories of a listing keep: the category of each record is
    the list it is in, no physical device is a MacBook or an iPad by its
    name, every simulator is an iPhone by its name. *)
Definition wellCategorized (r : CategorizedDevices) : Prop :=
  Forall (fun d => category d = Some physicalDevices
                   /\ JS.includes (JS.toLowerCase (name d)) "macbook" = false
                   /\ JS.includes (JS.toLowerCase (name d)) "ipad" = false)
         (physical r)
  /\ Forall (fun d => category d = Some offlineDevices) (offline r)
  /\ Forall (fun d => category d = Some simulators /\ IOS.isIphone d = true) (sims r).

(** A line of the list printed again: the number and the device, which
    now carries the number as its index. *)
Definition indexedLine (p : Z * DeviceInfo) : event :=
  Log (Selectable (Some (fst p)) (indexedDevice p)).

(** What the iOS selector prints again when the attempts are used up, in
    terms of the categorized listing: the notice, the physical devices
    with their numbers, then the simulators with theirs, under their
    headings; the offline devices are not printed again. *)
Definition redisplayed (c : CategorizedDevices) : list event :=
  (Log MaximumAttempts :: Log (Heading "== Devices ==")
     :: match physical c with
        | [] => [Log NoPhysicalDevices]
        | _ :: _ => map indexedLine (countFrom 1 (physical c))
        end
     ++ Log (Heading "== Simulators ==")
     :: map indexedLine
            (countFrom (1 + Z.of_nat (List.length (physical c)))
                       (filter IOS.isIphone (sims c))))%list.

(** ** Actions: commands, notices and traces *)

(** The double quote of a command line. *)
Definition quote : string := String "034" EmptyString.

Definition quoted (s : string) : string := quote ++ s ++ quote.

(** What the code of the actions prints, besides the messages of the
    listing and of the selectors. *)
Inductive notice : Type :=
| ReadlineMissing                          (* 'Error: Readline interface not initialized' *)
| Exiting                                  (* 'Exiting application...' *)
| Skipping (currentStep : string)          (* `Skipping ${currentStep} selection...` *)
| FailedEnvCheck (e : string)              (* `Failed to check environment file: ${e}` *)
| SettingUpIOS                             (* 'Setting up iOS environment...' *)
| UpdatingPods                             (* 'Updating CocoaPods dependencies...' *)
| ErrorUpdatingPods (e : string)           (* `Error updating CocoaPods: ${e}` *)
| ErrorIOSSetup (e : string)               (* `Error during iOS setup: ${e}` *)
| UsingSimulator (deviceName : string)     (* `Using simulator: ${deviceName}` *)
| UsingDevice (deviceName : string)        (* `Using device: ${deviceName}` *)
| UsingDefaultSimulator                    (* 'No device selected. Using default iPhone 15 simulator.' *)
| ErrorIOSDebug (e : string)               (* `Error during iOS debug: ${e}` *)
| ErrorIOSRelease (e : string)             (* `Error during iOS release: ${e}` *)
| ErrorIOSBuild (e : string)               (* `Error during iOS build: ${e}` *)
| CannotRelease                            (* 'No device selected. Cannot proceed with release.' *)
| SettingUpAndroid                         (* 'Setting up Android environment...' *)
| ErrorAndroidSetup (e : string)           (* `Error during Android setup: ${e}` *)
| ErrorAndroidDebug (e : string)           (* `Error during Android debug: ${e}` *)
| ErrorAndroidRelease (e : string)         (* `Error during Android release: ${e}` *)
| ErrorAndroidBuild (e : string)           (* `Error during Android build: ${e}` *)
| ApkBuilt (variantName : string)          (* `APK built successfully: ${variantName}` *)
| ApkPath (flavor buildType : string)      (* the folder of the APK, `.../apk/${flavor}/${buildType}/` *)
| CannotProceed                            (* 'No device selected. Cannot proceed.' *)
| Menu (title : string) (entries : list (string * string)) (currentPlatform : string)
    (* the title, the frame and the lines of the options, keys and labels,
       with their descriptions for the platform *)
| InvalidMenuSelection                     (* 'Invalid selection. Please try again.' *)
| SelectedOption (label : string)          (* `Selected: ${label}` *)
| CommandFailed (description : string)     (* spinner.stop(`${description} failed!`) *)
| CommandCompleted (description : string)  (* spinner.stop(`${description} completed!`) *)
| ErrorMessage (e : string)                (* `Error: ${e}` *)
| Raw (text : string)                      (* an output of the command, as it is *)
| VerboseHint                              (* 'Use --verbose to see full error output' *)
| OutputHeading.                           (* 'Output:' *)

(** What an action does, in order: the events of the listing and of the
    selectors, what it prints itself, the commands it hands to
    [utils.executeCommand], the questions it asks with their text, and
    the closing of the readline interface. *)
Inductive effect : Type :=
| Device (e : event)
| Print (n : notice)              (* console.log *)
| PrintError (n : notice)         (* console.error *)
| Exec (command : string)         (* utils.executeCommand *)
| Ask (query : string)            (* utils.question *)
| CloseReadline.                  (* rl.close() *)

(** [utils.executeCommand]: a command gives its output, or the error the
    promise is rejected with.  No action runs a command twice. *)
Definition shell : Type := string -> result string.

(** How a call that may end the process ends. *)
Inductive ending (A : Type) : Type :=
| Finished (o : outcome A)
| Exited (code : Z).              (* process.exit(code) *)
Arguments Finished {A} o.
Arguments Exited {A} code.

Definition isExec (e : effect) : list string :=
  match e with Exec command => [command] | _ => [] end.

(** The commands run in a trace, in order. *)
Definition commands (t : list effect) : list string := flat_map isExec t.

Definition isAsk (e : effect) : bool :=
  match e with Ask _ | Device Question => true | _ => false end.

(** The number of questions asked in a trace. *)
Definition asked (t : list effect) : nat := List.length (filter isAsk t).

(** ** Running a command *)

Module Verbosity.

(** [lines.join(sep)] *)
Fixpoint join (sep : string) (lines : list string) : string :=
  match lines with
  | [] => ""
  | [x] => x
  | x :: rest => x ++ sep ++ join sep rest
  end.

(** What [exec] hands to its callback. *)
Record execResult : Type := mkExecResult {
  error : option string;          (* the message of the error, if any *)
  stdout : string;
  stderr : string
}.

(** [executeCommand]: what is printed when the command has ended, the
    frames of the spinner left out, and the output the promise is
    resolved with or the error it is rejected with. *)
Definition executeCommand (isVerbose : bool) (description : string)
           (r : execResult) : list effect * result string :=
  match error r with
  | Some message =>
      ((Print (CommandFailed description)
          :: PrintError (ErrorMessage message)
          :: if JS.truthy (stderr r) && isVerbose then [PrintError (Raw (stderr r))]
             else if JS.truthy (stderr r) then
               let lines := firstn 3 (JS.split "010" (stderr r)) in
               if 0 <? List.length lines
               then [PrintError (Raw (join newline lines)); PrintError VerboseHint]
               else []
             else [])%list,
       Throw message)
  | None =>
      ((Print (CommandCompleted description)
          :: if JS.truthy (JS.trim (stdout r)) && isVerbose
             then [Print OutputHeading; Print (Raw (stdout r))]
             else [])%list,
       Ok (stdout r))
  end.

End Verbosity.

(** ** Utils: questions, the command line, special commands, the .env file *)

Module Cli.

(** [question]: without a readline interface the error is printed and the
    answer is the empty text. *)
Definition question (rl : bool) (query : string) (answers : list answer)
  : list effect * outcome string :=
  if rl then
    match answers with
    | [] => ([Ask query], Awaiting)
    | Line text :: _ => ([Ask query], Returned text)
    | Fault e :: _ => ([Ask query], Thrown e)
    end
  else ([PrintError ReadlineMissing], Returned "").

Record ConfirmOptions : Type := mkConfirmOptions {
  defaultValue : option bool;
  yesText : option string;
  noText : option string
}.

(** [options?.field ?? fallback] *)
Definition optionOr {A B : Type} (options : option A) (field : A -> option B)
           (fallback : B) : B :=
  match options with
  | Some o => match field o with Some v => v | None => fallback end
  | None => fallback
  end.

Definition confirm (rl : bool) (query : string) (options : option ConfirmOptions)
           (answers : list answer) : list effect * outcome bool :=
  let defaultValue := optionOr options defaultValue false in
  let yesText := optionOr options yesText "y" in
  let noText := optionOr options noText "N" in
  let promptText :=
    if defaultValue then yesText ++ "/" ++ noText else yesText ++ "/" ++ noText in
  match question rl (query ++ " (" ++ promptText ++ "): ") answers with
  | (t, Returned answer) =>
      if negb (JS.truthy (JS.trim answer)) then (t, Returned defaultValue)
      else (t, Returned (String.eqb (JS.toLowerCase answer) (JS.toLowerCase yesText)))
  | (t, Thrown e) => (t, Thrown e)
  | (t, Awaiting) => (t, Awaiting)
  end.

Record CommandLineArgs : Type := mkCommandLineArgs {
  environment : option string;
  platform : option string;
  action : option string;
  operation : option string;
  verbose : bool;
  serverOption : string
}.

(** [args.includes(flag)] *)
Definition includes (args : list string) (flag : string) : bool :=
  existsb (String.eqb flag) args.

(** [parseCommandLineArgs] on [process.argv]. *)
Definition parseCommandLineArgs (argv : list string) : CommandLineArgs :=
  let args := skipn 2 argv in
  {| environment :=
       if includes args "--development" || includes args "--dev" then Some "d"
       else if includes args "--staging" || includes args "--stag" then Some "s"
       else if includes args "--production" || includes args "--prod" then Some "p"
       else None;
     platform :=
       if includes args "--ios" then Some "i"
       else if includes args "--android" then Some "a"
       else if includes args "--web" then Some "w"
       else None;
     action :=
       if includes args "--debug" then Some "d"
       else if includes args "--release" then Some "r"
       else if includes args "--build" then Some "b"
       else if includes args "--deploy" then Some "p"
       else if includes args "--exit" then Some "e"
       else None;
     operation :=
       if includes args "--version" then Some "version"
       else if includes args "--env" then Some "env"
       else if includes args "--dev" then Some "dev"
       else if includes args "--start-server" then Some "start-server"
       else if includes args "--env-dev" then Some "env-dev"
       else if includes args "--version-env-dev" then Some "version-env-dev"
       else None;
     verbose := includes args "--verbose";
     serverOption := if includes args "--fresh" then "fresh" else "standard" |}.

Definition handleSpecialCommands (rl : bool) (input currentStep : string)
           (answers : list answer) : list effect * ending bool :=
  let normalizedInput := JS.trim (JS.toLowerCase input) in
  if String.eqb normalizedInput "exit" || String.eqb normalizedInput "quit" then
    match confirm rl "Are you sure you want to exit?" None answers with
    | (t, Returned shouldExit) =>
        if shouldExit then
          ((t ++ Print Exiting :: (if rl then [CloseReadline] else []))%list, Exited 0)
        else (t, Finished (Returned true))
    | (t, Thrown e) => (t, Finished (Thrown e))
    | (t, Awaiting) => (t, Finished Awaiting)
    end
  else if String.eqb normalizedInput "skip" then
    ([Print (Skipping currentStep)], Finished (Returned true))
  else ([], Finished (Returned false)).

Record EnvironmentStatus : Type := mkEnvironmentStatus {
  exists_ : bool;                 (* the field [exists] *)
  type : option string
}.

(** [checkEnvFile]: the argument is the [.env] file, [None] when there is
    none, and its content or the error of reading it. *)
Definition checkEnvFile (env : option (result string))
  : list effect * EnvironmentStatus :=
  match env with
  | None => ([], mkEnvironmentStatus false None)
  | Some (Ok envContent) =>
      let envType :=
        if JS.includes envContent "ENV=development"
           || JS.includes envContent "ENVIRONMENT=development"
        then Some "development"
        else if JS.includes envContent "ENV=staging"
                || JS.includes envContent "ENVIRONMENT=staging"
        then Some "staging"
        else if JS.includes envContent "ENV=production"
                || JS.includes envContent "ENVIRONMENT=production"
        then Some "production"
        else None in
      ([], mkEnvironmentStatus true envType)
  | Some (Throw e) => ([PrintError (FailedEnvCheck e)], mkEnvironmentStatus false None)
  end.

End Cli.

(** ** iOS: environment, device names and the actions *)

Module IOSRun.

Definition listCommand : string := "xcrun xctrace list devices 2>&1".

Definition podCommand : string := "cd ios && pod install --repo-update".

(** [listDevices] with the command it runs. *)
Definition listDevices (sh : shell) : list effect * CategorizedDevices :=
  let '(t, categorizedDevices) := IOS.listDevices (sh listCommand) in
  (Exec listCommand :: map Device t, categorizedDevices).

Definition updatePods (sh : shell) : list effect * bool :=
  match sh podCommand with
  | Ok _ => ([Print UpdatingPods; Exec podCommand], true)
  | Throw e =>
      ([Print UpdatingPods; Exec podCommand; PrintError (ErrorUpdatingPods e)], false)
  end.

Definition setupEnvCommand (environment : string) : string :=
  "cd ios && PROJECT_DIR=$(pwd) ./scripts/setup-env.sh " ++ environment.

Definition setupEnvironment (sh : shell) (environment : string)
  : list effect * bool :=
  match sh (setupEnvCommand environment) with
  | Ok _ =>
      let '(t, _) := updatePods sh in
      ((Print SettingUpIOS :: Exec (setupEnvCommand environment) :: t)%list, true)
  | Throw e =>
      ([Print SettingUpIOS; Exec (setupEnvCommand environment);
        PrintError (ErrorIOSSetup e)], false)
  end.

(** The part of the pattern after the captured name:
    [(?:\s+\(.{0,}\))?$]. *)
Definition versionInfoTail : Regex.re :=
  Regex.Cat
    (Regex.Opt (Regex.seq [Regex.Rep Regex.ws 1 true; Regex.Lit "(";
                           Regex.Rep Regex.dot 0 true; Regex.Lit ")"]))
    Regex.Eos.

(** [/(.{0,}?)(?:\s+\(.{0,}\))?$/], the stars written as ranges. *)
Definition versionInfoRe : Regex.re :=
  Regex.Cat (Regex.Cap 1 (Regex.Rep Regex.dot 0 false)) versionInfoTail.

(** [getCleanDeviceName]; group 1 is part of every match. *)
Definition getCleanDeviceName (fullName : string) : string :=
  match Regex.exec versionInfoRe fullName with
  | Some m =>
      match Regex.group 1 m with
      | Some g => JS.trim g
      | None => fullName
      end
  | None => fullName
  end.

(** [npx react-native run-ios --scheme "${target}" ${flag} "${deviceName}"] *)
Definition runCommand (target flag deviceName : string) : string :=
  "npx react-native run-ios --scheme " ++ quoted target ++ " " ++ flag ++ " "
    ++ quoted deviceName.

(** The message and the command for the selected device. *)
Definition deviceCommand (target : string) (selectedDevice : DeviceInfo)
  : effect * string :=
  let deviceName := getCleanDeviceName (name selectedDevice) in
  if hasCategory simulators selectedDevice
  then (Print (UsingSimulator deviceName), runCommand target "--simulator" deviceName)
  else (Print (UsingDevice deviceName), runCommand target "--device" deviceName).

Definition executeDebug (sh : shell) (environment target : string)
           (answers : list answer) : list effect * outcome bool :=
  let '(t1, categorizedDevices) := listDevices sh in
  match IOS.selectDevice categorizedDevices answers with
  | (t2, Returned selectedDevice) =>
      let '(said, command) :=
        match selectedDevice with
        | Some d => deviceCommand target d
        | None => (Print UsingDefaultSimulator, runCommand target "--simulator" "iPhone 15")
        end in
      match sh command with
      | Ok _ => ((t1 ++ map Device t2 ++ [said; Exec command])%list, Returned true)
      | Throw e =>
          ((t1 ++ map Device t2
               ++ [said; Exec command; PrintError (ErrorIOSDebug e)])%list,
           Returned false)
      end
  | (t2, Thrown e) =>
      ((t1 ++ map Device t2 ++ [PrintError (ErrorIOSDebug e)])%list, Returned false)
  | (t2, Awaiting) => ((t1 ++ map Device t2)%list, Awaiting)
  end.

Definition executeRelease (sh : shell) (environment target configuration : string)
           (selectedDevice : DeviceInfo) : list effect * bool :=
  let '(said, run) := deviceCommand target selectedDevice in
  let command := run ++ " --mode " ++ configuration in
  match sh command with
  | Ok _ => ([said; Exec command], true)
  | Throw e => ([said; Exec command; PrintError (ErrorIOSRelease e)], false)
  end.

(** The command of [executeBuild], a template of several lines. *)
Definition buildCommand (environment target configuration : string) : string :=
  newline ++ "        cd ios && ./scripts/setup-env.sh " ++ environment
    ++ " && cd .. && " ++ newline
    ++ "        npx react-native build-ios --scheme " ++ quoted target
    ++ " --configuration " ++ quoted configuration ++ " && " ++ newline
    ++ "        echo " ++ quoted "Now open Xcode to archive the app" ++ newline
    ++ "      ".

Definition executeBuild (sh : shell) (environment target configuration : string)
  : list effect * bool :=
  let command := buildCommand environment target configuration in
  match sh command with
  | Ok _ => ([Exec command], true)
  | Throw e => ([Exec command; PrintError (ErrorIOSBuild e)], false)
  end.

End IOSRun.

(** ** Android: environment, variants and the actions *)

Module AndroidRun.

Definition adbCommand : string := "adb devices -l".

Definition emulatorCommand : string := "emulator -list-avds".

(** The commands of [listDevices]: the second is run when the first
    succeeded. *)
Definition listingCommands (sh : shell) : list effect :=
  Exec adbCommand
    :: match sh adbCommand with
       | Ok _ => [Exec emulatorCommand]
       | Throw _ => []
       end.

(** [selectDevice] with the commands its listing runs. *)
Definition selectDevice (sh : shell) (answers : list answer)
  : list effect * outcome (option string) :=
  let '(t, o) := Android.selectDevice (sh adbCommand) (sh emulatorCommand) answers in
  ((listingCommands sh ++ map Device t)%list, o).

Definition setupScript (environment : string) : string :=
  "cd android && ./scripts/setup-env.sh " ++ environment.

Definition setupEnvironment (sh : shell) (environment : string)
  : list effect * bool :=
  match sh (setupScript environment) with
  | Ok _ => ([Print SettingUpAndroid; Exec (setupScript environment)], true)
  | Throw e =>
      ([Print SettingUpAndroid; Exec (setupScript environment);
        PrintError (ErrorAndroidSetup e)], false)
  end.

Record VariantInfo : Type := mkVariantInfo {
  flavor : string;
  buildType : string;
  variantName : string;
  lowerVariantName : string
}.

Definition getVariant (environment action : string) : VariantInfo :=
  let flavor :=
    if String.eqb environment "d" then "development"
    else if String.eqb environment "s" then "staging"
    else if String.eqb environment "p" then "production"
    else "" in
  let buildType :=
    if String.eqb action "d" then "Debug"
    else if String.eqb action "r" || String.eqb action "b" then "Release"
    else "" in
  {| flavor := flavor;
     buildType := buildType;
     variantName := flavor ++ buildType;
     lowerVariantName := flavor ++ JS.toLowerCase buildType |}.

Definition deviceParam (deviceId : string) : string :=
  if String.eqb deviceId "emulator" then ""
  else "-Pandroid.task.apk.install.device.id=" ++ deviceId.

Definition debugCommand (variant : VariantInfo) (deviceId : string) : string :=
  "npx react-native run-android --variant=" ++ lowerVariantName variant ++ " "
    ++ deviceParam deviceId.

Definition executeDebug (sh : shell) (environment : string) (variant : VariantInfo)
           (deviceId : string) : list effect * bool :=
  let command := debugCommand variant deviceId in
  match sh command with
  | Ok _ => ([Exec command], true)
  | Throw e => ([Exec command; PrintError (ErrorAndroidDebug e)], false)
  end.

Definition releaseCommand (variant : VariantInfo) (deviceId : string) : string :=
  "cd android && ./gradlew install" ++ variantName variant ++ " "
    ++ deviceParam deviceId.

Definition executeRelease (sh : shell) (environment : string) (variant : VariantInfo)
           (deviceId : string) : list effect * bool :=
  let command := releaseCommand variant deviceId in
  match sh command with
  | Ok _ => ([Exec command], true)
  | Throw e => ([Exec command; PrintError (ErrorAndroidRelease e)], false)
  end.

Definition assembleCommand (variant : VariantInfo) : string :=
  "cd android && ./gradlew assemble" ++ variantName variant.

Definition executeBuild (sh : shell) (environment : string) (variant : VariantInfo)
  : list effect * bool :=
  let command := assembleCommand variant in
  match sh command with
  | Ok _ =>
      ([Exec command; Print (ApkBuilt (variantName variant));
        Print (ApkPath (flavor variant) (JS.toLowerCase (buildType variant)))], true)
  | Throw e => ([Exec command; PrintError (ErrorAndroidBuild e)], false)
  end.

End AndroidRun.

(** ** The control panel: the dispatch of the actions *)

Module Panel.

(** [currentEnvStatus.type || 'development'] *)
Definition envName (currentEnvStatus : Cli.EnvironmentStatus) : string :=
  match Cli.type currentEnvStatus with
  | Some t => if JS.truthy t then t else "development"
  | None => "development"
  end.

Definition executeIOSAction (sh : shell) (action environment : string)
           (answers : list answer) : list effect * outcome unit :=
  let '(t0, _) := IOSRun.setupEnvironment sh environment in
  let target := "member" in
  if String.eqb action "d" then
    match IOSRun.executeDebug sh environment target answers with
    | (t, Returned _) => ((t0 ++ t)%list, Returned tt)
    | (t, Thrown e) => ((t0 ++ t)%list, Thrown e)
    | (t, Awaiting) => ((t0 ++ t)%list, Awaiting)
    end
  else if String.eqb action "r" then
    let '(t1, devices) := IOSRun.listDevices sh in
    match IOS.selectDevice devices answers with
    | (t2, Returned (Some selectedDevice)) =>
        let '(t3, _) :=
          IOSRun.executeRelease sh environment target "Release" selectedDevice in
        ((t0 ++ t1 ++ map Device t2 ++ t3)%list, Returned tt)
    | (t2, Returned None) =>
        ((t0 ++ t1 ++ map Device t2 ++ [Print CannotRelease])%list, Returned tt)
    | (t2, Thrown e) => ((t0 ++ t1 ++ map Device t2)%list, Thrown e)
    | (t2, Awaiting) => ((t0 ++ t1 ++ map Device t2)%list, Awaiting)
    end
  else if String.eqb action "b" then
    let '(t, _) := IOSRun.executeBuild sh environment target "Release" in
    ((t0 ++ t)%list, Returned tt)
  else (t0, Returned tt).

(** [!deviceId] *)
Definition noDevice (deviceId : option string) : bool :=
  match deviceId with
  | Some s => negb (JS.truthy s)
  | None => true
  end.

(** [deviceId || 'emulator'] *)
Definition orEmulator (deviceId : option string) : string :=
  match deviceId with
  | Some s => if JS.truthy s then s else "emulator"
  | None => "emulator"
  end.

Definition executeAndroidAction (sh : shell) (action environment : string)
           (answers : list answer) : list effect * outcome unit :=
  let '(t0, _) := AndroidRun.setupEnvironment sh environment in
  let variant := AndroidRun.getVariant environment action in
  match AndroidRun.selectDevice sh answers with
  | (t1, Returned deviceId) =>
      if noDevice deviceId && negb (String.eqb action "b") then
        ((t0 ++ t1 ++ [Print CannotProceed])%list, Returned tt)
      else if String.eqb action "d" then
        let '(t, _) :=
          AndroidRun.executeDebug sh environment variant (orEmulator deviceId) in
        ((t0 ++ t1 ++ t)%list, Returned tt)
      else if String.eqb action "r" then
        let '(t, _) :=
          AndroidRun.executeRelease sh environment variant (orEmulator deviceId) in
        ((t0 ++ t1 ++ t)%list, Returned tt)
      else if String.eqb action "b" then
        let '(t, _) := AndroidRun.executeBuild sh environment variant in
        ((t0 ++ t1 ++ t)%list, Returned tt)
      else ((t0 ++ t1)%list, Returned tt)
  | (t1, Thrown e) => ((t0 ++ t1)%list, Thrown e)
  | (t1, Awaiting) => ((t0 ++ t1)%list, Awaiting)
  end.

End Panel.

(** ** The menus *)

Module UI.

(** A menu option: its key and its label; the colour, the icon and the
    description only bear on the lines printed. *)
Record MenuOption : Type := mkMenuOption {
  key : string;
  label : string
}.

(** The prompt of a menu, its arrow left out. *)
Definition choicePrompt : string := " Your choice: ".

(** [options.map((opt) => opt.key.toLowerCase())] *)
Definition validKeys (options : list MenuOption) : list string :=
  map (fun opt => JS.toLowerCase (key opt)) options.

(** [options[0].key]: a [TypeError] when there is no option. *)
Definition firstKey (options : list MenuOption) : outcome string :=
  match options with
  | opt :: _ => Returned (key opt)
  | [] => Thrown "Cannot read properties of undefined (reading 'key')"
  end.

(** The loop of [showMenu], the readline interface being there: every
    turn reads an answer, so a fuel above the number of answers is never
    used up.  The result is the selection the loop ends with. *)
Fixpoint menuLoop (fuel : nat) (options : list MenuOption) (step selection : string)
         (answers : list answer) : list effect * ending string :=
  if Cli.includes (validKeys options) (JS.toLowerCase selection)
  then ([], Finished (Returned selection))
  else
    match fuel with
    | O => ([], Finished Awaiting)
    | S fuel' =>
        match Cli.question true choicePrompt answers with
        | (t, Returned answer) =>
            let rest := tl answers in
            match Cli.handleSpecialCommands true answer step rest with
            | (t1, Exited code) => ((t ++ t1)%list, Exited code)
            | (t1, Finished (Returned true)) =>
                if String.eqb (JS.toLowerCase answer) "skip"
                then ((t ++ t1)%list, Finished (firstKey options))
                else
                  let '(t2, e) :=
                    menuLoop fuel' options step answer (skipn (asked t1) rest) in
                  ((t ++ t1 ++ t2)%list, e)
            | (t1, Finished (Returned false)) =>
                let said :=
                  if Cli.includes (validKeys options) (JS.toLowerCase answer)
                  then [] else [Print InvalidMenuSelection] in
                let '(t2, e) := menuLoop fuel' options step answer rest in
                ((t ++ t1 ++ said ++ t2)%list, e)
            | (t1, Finished (Thrown e)) => ((t ++ t1)%list, Finished (Thrown e))
            | (t1, Finished Awaiting) => ((t ++ t1)%list, Finished Awaiting)
            end
        | (t, Thrown e) => (t, Finished (Thrown e))
        | (t, Awaiting) => (t, Finished Awaiting)
        end
    end.

Definition entries (options : list MenuOption) : list (string * string) :=
  map (fun opt => (key opt, label opt)) options.

Definition showMenu (title : string) (options : list MenuOption)
           (step currentPlatform : string) (answers : list answer)
  : list effect * ending string :=
  let '(t, e) := menuLoop (S (List.length answers)) options step "" answers in
  let shown := Print (Menu title (entries options) currentPlatform) in
  match e with
  | Finished (Returned selection) =>
      match find (fun opt => String.eqb (JS.toLowerCase (key opt))
                                        (JS.toLowerCase selection)) options with
      | Some selectedOption =>
          ((shown :: t ++ [Print (SelectedOption (label selectedOption))])%list,
           Finished (Returned (JS.toLowerCase (key selectedOption))))
      | None =>
          match firstKey options with
          | Returned k => (shown :: t, Finished (Returned (JS.toLowerCase k)))
          | Thrown x => (shown :: t, Finished (Thrown x))
          | Awaiting => (shown :: t, Finished Awaiting)
          end
      end
  | _ => (shown :: t, e)
  end.

End UI.

(** A character occurs in a text. *)
Definition hasChar (c : ascii) (s : string) : bool :=
  existsb (Ascii.eqb c) (list_ascii_of_string s).

(** What a trace prints with [console.log] of the notices of the actions. *)
Definition isPrint (e : effect) : list notice :=
  match e with Print n => [n] | _ => [] end.

Definition notices (t : list effect) : list notice := flat_map isPrint t.

(** Nothing of the word iphone is in a removed end: it holds no letter p,
    and it does not begin with a letter of the word. *)
Definition noIphonePart (v : string) : Prop :=
  hasChar "p" (JS.toLowerCase v) = false
  /\ match v with
     | EmptyString => True
     | String c _ => hasChar (JS.toLowerChar c) "iphone" = false
     end.

(** ** Strings and lines *)

Lemma split_nonempty (sep : ascii) (s : string) : JS.split sep s <> [].
Proof.
  destruct s as [|c s]; simpl; [discriminate|].
  destruct (Ascii.eqb c sep); [discriminate|].
  destruct (JS.split sep s); discriminate.
Qed.

Lemma oneLine_cons (c : ascii) (s : string) :
  oneLine (String c s) = true -> Ascii.eqb c "010" = false /\ oneLine s = true.
Proof.
  unfold oneLine; simpl. intros H.
  apply andb_true_iff in H as [H1 H2].
  split; [now apply negb_true_iff in H1 | exact H2].
Qed.

(** Splitting at the first line break. *)
Lemma split_first_line (line0 rest : string) :
  oneLine line0 = true ->
  JS.split "010" (line0 ++ newline ++ rest) = line0 :: JS.split "010" rest.
Proof.
  induction line0 as [|c line0 IH]; intros H.
  - reflexivity.
  - apply oneLine_cons in H as [Hc Hl].
    cbn [append JS.split]. rewrite Hc.
    change (line0 ++ String "010" rest) with (line0 ++ newline ++ rest).
    rewrite (IH Hl). reflexivity.
Qed.

Lemma split_single_line (line0 : string) :
  oneLine line0 = true -> JS.split "010" line0 = [line0].
Proof.
  induction line0 as [|c line0 IH]; intros H.
  - reflexivity.
  - apply oneLine_cons in H as [Hc Hl].
    cbn [JS.split]. rewrite Hc, (IH Hl). reflexivity.
Qed.

(** ** The matcher on greedy runs and literal text *)

Lemma substring_prefix (s1 s2 : string) :
  substring 0 (String.length s1) (s1 ++ s2) = s1.
Proof.
  induction s1 as [|c s1 IH]; cbn [String.length append substring].
  - now destruct s2.
  - now rewrite IH.
Qed.

Lemma append_empty_r (s : string) : s ++ "" = s.
Proof. induction s as [|c s IH]; cbn [append]; [reflexivity | now rewrite IH]. Qed.

Lemma length_append (s1 s2 : string) :
  String.length (s1 ++ s2) = String.length s1 + String.length s2.
Proof. induction s1 as [|c s1 IH]; cbn [append String.length]; [reflexivity | now rewrite IH]. Qed.

Lemma append_assoc (s1 s2 s3 : string) : (s1 ++ s2) ++ s3 = s1 ++ s2 ++ s3.
Proof. induction s1 as [|c s1 IH]; cbn [append]; [reflexivity | now rewrite IH]. Qed.

Lemma allOf_cons (p : ascii -> bool) (c : ascii) (s : string) :
  allOf p (String c s) = p c && allOf p s.
Proof. reflexivity. Qed.

Lemma allOf_append (p : ascii -> bool) (s1 s2 : string) :
  allOf p (s1 ++ s2) = allOf p s1 && allOf p s2.
Proof.
  induction s1 as [|c s1 IH]; cbn [append]; [reflexivity|].
  now rewrite !allOf_cons, IH, andb_assoc.
Qed.

(** A greedy run over all of [s1], when what follows is accepted. *)
Lemma star_greedy_success (p : ascii -> bool) (s1 : string) :
  forall (s2 : string) (pos : nat) (cs : Regex.caps) (k : Regex.cont) x,
    allOf p s1 = true -> stopsAt p s2 = true ->
    k (pos + String.length s1) s2 cs = Some x ->
    Regex.star p true pos (s1 ++ s2) cs k = Some x.
Proof.
  induction s1 as [|a s1 IH]; intros s2 pos cs k x Hall Hstop Hk.
  - cbn [append String.length] in *. rewrite Nat.add_0_r in Hk.
    destruct s2 as [|c s2]; cbn [Regex.star]; [exact Hk|].
    cbn [stopsAt] in Hstop. apply negb_true_iff in Hstop. now rewrite Hstop.
  - rewrite allOf_cons in Hall. apply andb_true_iff in Hall as [Ha Hall].
    cbn [append Regex.star]. rewrite Ha.
    rewrite (IH s2 (S pos) cs k x Hall Hstop); [reflexivity|].
    cbn [String.length] in Hk. now rewrite Nat.add_succ_r in Hk.
Qed.

Lemma rep1_greedy_success (p : ascii -> bool) (a : ascii) (s1 s2 : string)
      (pos : nat) (cs : Regex.caps) (k : Regex.cont) x :
  p a = true -> allOf p s1 = true -> stopsAt p s2 = true ->
  k (pos + String.length (String a s1)) s2 cs = Some x ->
  Regex.run (Regex.Rep p 1 true) pos (String a s1 ++ s2) cs k = Some x.
Proof.
  intros Ha Hall Hstop Hk. cbn [Regex.run Regex.rep append]. rewrite Ha.
  apply star_greedy_success; [exact Hall | exact Hstop |].
  cbn [String.length] in Hk. now rewrite Nat.add_succ_r in Hk.
Qed.

Lemma cap_rep1_greedy_success (n : nat) (p : ascii -> bool) (a : ascii) (s1 s2 : string)
      (pos : nat) (cs : Regex.caps) (k : Regex.cont) x :
  p a = true -> allOf p s1 = true -> stopsAt p s2 = true ->
  k (pos + String.length (String a s1)) s2 ((n, String a s1) :: cs) = Some x ->
  Regex.run (Regex.Cap n (Regex.Rep p 1 true)) pos (String a s1 ++ s2) cs k = Some x.
Proof.
  intros Ha Hall Hstop Hk. cbn [Regex.run].
  fold (Regex.run (Regex.Rep p 1 true) pos (String a s1 ++ s2) cs).
  apply rep1_greedy_success; [exact Ha | exact Hall | exact Hstop |].
  replace (pos + String.length (String a s1) - pos) with (String.length (String a s1)) by lia.
  now rewrite substring_prefix.
Qed.

Lemma cap_star_greedy_success (n : nat) (p : ascii -> bool) (s1 s2 : string)
      (pos : nat) (cs : Regex.caps) (k : Regex.cont) x :
  allOf p s1 = true -> stopsAt p s2 = true ->
  k (pos + String.length s1) s2 ((n, s1) :: cs) = Some x ->
  Regex.run (Regex.Cap n (Regex.Rep p 0 true)) pos (s1 ++ s2) cs k = Some x.
Proof.
  intros Hall Hstop Hk. cbn [Regex.run Regex.rep].
  apply star_greedy_success; [exact Hall | exact Hstop |].
  replace (pos + String.length s1 - pos) with (String.length s1) by lia.
  now rewrite substring_prefix.
Qed.

Lemma run_lits (l : string) : forall (s : string) (pos : nat) (cs : Regex.caps) (k : Regex.cont),
  Regex.run (Regex.lits l) pos (l ++ s) cs k = k (pos + String.length l) s cs.
Proof.
  induction l as [|c l IH]; intros s pos cs k; cbn [Regex.lits Regex.run append String.length].
  - now rewrite Nat.add_0_r.
  - rewrite Ascii.eqb_refl, IH. now rewrite Nat.add_succ_r.
Qed.

Lemma run_lits_fail (l : string) : forall (s : string) (pos : nat) (cs : Regex.caps) (k : Regex.cont),
  String.prefix l s = false -> Regex.run (Regex.lits l) pos s cs k = None.
Proof.
  induction l as [|c l IH]; intros s pos cs k H; [destruct s; discriminate|].
  cbn [Regex.lits Regex.run]. destruct s as [|a s]; [reflexivity|].
  cbn [String.prefix] in H. destruct (Ascii.eqb_spec a c) as [->|N]; [|reflexivity].
  destruct (ascii_dec c c) as [_|N]; [|now contradiction N].
  now apply IH.
Qed.

Lemma cap_star_greedy_all (n : nat) (p : ascii -> bool) (s : string)
      (pos : nat) (cs : Regex.caps) (k : Regex.cont) x :
  allOf p s = true ->
  k (pos + String.length s) "" ((n, s) :: cs) = Some x ->
  Regex.run (Regex.Cap n (Regex.Rep p 0 true)) pos s cs k = Some x.
Proof.
  intros Hall Hk. rewrite <- (append_empty_r s) at 1.
  now apply cap_star_greedy_success.
Qed.

Lemma run_Cat (r1 r2 : Regex.re) (pos : nat) (s : string) (cs : Regex.caps)
      (k : Regex.cont) :
  Regex.run (Regex.Cat r1 r2) pos s cs k
  = Regex.run r1 pos s cs (fun pos' s' cs' => Regex.run r2 pos' s' cs' k).
Proof. reflexivity. Qed.

Lemma run_Bos (s : string) (cs : Regex.caps) (k : Regex.cont) :
  Regex.run Regex.Bos 0 s cs k = k 0 s cs.
Proof. reflexivity. Qed.

Lemma run_Eos (pos : nat) (cs : Regex.caps) (k : Regex.cont) :
  Regex.run Regex.Eos pos "" cs k = k pos "" cs.
Proof. reflexivity. Qed.

Lemma run_Eps (pos : nat) (s : string) (cs : Regex.caps) (k : Regex.cont) :
  Regex.run Regex.Eps pos s cs k = k pos s cs.
Proof. reflexivity. Qed.

Lemma exec_at_start (r : Regex.re) (s : string) (e : nat) (cs : Regex.caps) :
  Regex.matchAt r 0 s = Some (e, cs) -> Regex.exec r s = Some (0, e, cs).
Proof. intros H. unfold Regex.exec. destruct s; cbn [Regex.search]; now rewrite H. Qed.

(** A pattern that starts with literal text finds nothing in a text that
    does not hold that literal text. *)
Lemma search_lits_none (l : string) (r : Regex.re) (s : string) : forall pos,
  JS.includes s l = false ->
  Regex.search (Regex.Cat (Regex.lits l) r) pos s = None.
Proof.
  induction s as [|a s IH]; intros pos H; cbn [JS.includes] in H;
    apply orb_false_iff in H as [Hp Hs]; cbn [Regex.search]; unfold Regex.matchAt;
    cbn [Regex.run]; rewrite (run_lits_fail l _ _ _ _ Hp); [reflexivity|].
  now apply IH.
Qed.

Lemma trim_truthy (a : ascii) (s : string) :
  JS.isWhiteSpace a = false -> JS.truthy (JS.trim (String a s)) = true.
Proof.
  intros H. unfold JS.trim. cbn [JS.trimStart]. rewrite H. cbn [JS.trimEnd].
  destruct (JS.trimEnd s); [now rewrite H | reflexivity].
Qed.

(** ** Parser A on a device line *)

(** The pattern of Parser A on [<identifier> device <details>]. *)
Lemma deviceRe_match (a : ascii) (id1 details : string) :
  Regex.notWs a = true -> allOf Regex.notWs id1 = true ->
  allOf Regex.dot details = true -> stopsAt Regex.ws details = true ->
  Regex.exec Android.deviceRe (String a id1 ++ " device " ++ details)
  = Some (0, String.length (String a id1 ++ " device " ++ details),
          [(2, details); (1, String a id1)]).
Proof.
  intros Ha Hid Hdot Hstop. apply exec_at_start. unfold Regex.matchAt, Android.deviceRe.
  cbn [Regex.seq fold_right].
  rewrite run_Cat, run_Bos, run_Cat.
  apply cap_rep1_greedy_success; [exact Ha | exact Hid | reflexivity |].
  rewrite run_Cat.
  change (" device " ++ details) with (String " " "" ++ ("device" ++ (" " ++ details))).
  apply rep1_greedy_success; [reflexivity | reflexivity | reflexivity |].
  rewrite run_Cat, run_lits, run_Cat.
  change (" " ++ details) with (String " " "" ++ details).
  apply rep1_greedy_success; [reflexivity | reflexivity | exact Hstop |].
  rewrite run_Cat.
  apply cap_star_greedy_all; [exact Hdot|].
  rewrite run_Cat, run_Eos, run_Eps.
  do 2 f_equal. rewrite !length_append. cbn [String.length]. lia.
Qed.

(** The pattern of the model fragment on [model:<token>] and what follows. *)
Lemma modelRe_match (b : ascii) (token1 rest : string) :
  Regex.notWs b = true -> allOf Regex.notWs token1 = true ->
  stopsAt Regex.notWs rest = true ->
  exists e,
    Regex.exec Android.modelRe ("model:" ++ String b token1 ++ rest)
    = Some (0, e, [(1, String b token1)]).
Proof.
  intros Hb Ht Hstop. eexists. apply exec_at_start. unfold Regex.matchAt, Android.modelRe.
  cbn [Regex.seq fold_right].
  rewrite run_Cat, run_lits, run_Cat.
  apply cap_rep1_greedy_success; [exact Hb | exact Ht | exact Hstop |].
  rewrite run_Eps. reflexivity.
Qed.

Lemma modelRe_none (details : string) :
  JS.includes details "model:" = false -> Regex.exec Android.modelRe details = None.
Proof.
  intros H. unfold Regex.exec, Android.modelRe. cbn [Regex.seq fold_right].
  now apply search_lits_none.
Qed.

Lemma token_inv (s : string) :
  token s = true ->
  exists a s1, s = String a s1 /\ Regex.notWs a = true /\ allOf Regex.notWs s1 = true.
Proof.
  unfold token. destruct s as [|a s1]; [discriminate|]. cbn [JS.truthy andb].
  rewrite allOf_cons. intros H. apply andb_true_iff in H as [Ha Hs]. now exists a, s1.
Qed.

Lemma notWs_dot (c : ascii) : Regex.notWs c = true -> Regex.dot c = true.
Proof.
  unfold Regex.notWs, Regex.dot, JS.isWhiteSpace. intros H.
  apply negb_true_iff in H. apply negb_true_iff.
  apply orb_false_iff in H as [H _]. apply orb_false_iff in H as [H _].
  apply andb_false_iff in H.
  destruct (Nat.eqb_spec (JS.code c) 10) as [E|N]; [rewrite E in H; destruct H; discriminate|].
  destruct (Nat.eqb_spec (JS.code c) 13) as [E|N']; [rewrite E in H; destruct H; discriminate|].
  reflexivity.
Qed.

Lemma allOf_impl (p q : ascii -> bool) (s : string) :
  (forall c, p c = true -> q c = true) -> allOf p s = true -> allOf q s = true.
Proof.
  intros H. induction s as [|c s IH]; [reflexivity|].
  rewrite !allOf_cons. intros Hs. apply andb_true_iff in Hs as [Hc Hs].
  now rewrite (H c Hc), (IH Hs).
Qed.

(** A device line with a model fragment: the identifier is kept and the
    model token, its underscores turned into blanks, is the name. *)
Lemma adb_line_with_model (deviceId model rest : string) :
  token deviceId = true -> token model = true ->
  allOf Regex.dot rest = true -> stopsAt Regex.notWs rest = true ->
  Android.parseAdbLine (deviceId ++ " device model:" ++ model ++ rest)
  = [Android.device deviceId (JS.replaceAllChar "_" " " model) physicalDevices].
Proof.
  intros Hid Hm Hdot Hstop.
  destruct (token_inv _ Hid) as (a & id1 & -> & Ha & Hid1).
  destruct (token_inv _ Hm) as (b & m1 & -> & Hb & Hm1).
  unfold Android.parseAdbLine.
  change (String a id1 ++ " device model:" ++ String b m1 ++ rest)
    with (String a (id1 ++ " device model:" ++ String b m1 ++ rest)).
  rewrite trim_truthy by (unfold Regex.notWs in Ha; now apply negb_true_iff in Ha).
  change (String a (id1 ++ " device model:" ++ String b m1 ++ rest))
    with (String a id1 ++ " device " ++ ("model:" ++ String b m1 ++ rest)).
  rewrite deviceRe_match; [| exact Ha | exact Hid1 | | reflexivity].
  - cbn [Regex.group Regex.lookupCap Nat.eqb].
    destruct (modelRe_match b m1 rest Hb Hm1 Hstop) as (e & ->).
    reflexivity.
  - rewrite allOf_append. apply andb_true_iff. split; [reflexivity|].
    change (String b m1 ++ rest) with (String b (m1 ++ rest)).
    rewrite allOf_cons, allOf_append, (notWs_dot b Hb), Hdot.
    now rewrite (allOf_impl Regex.notWs Regex.dot m1 notWs_dot Hm1).
Qed.

(** A device line whose details hold no model fragment gets the
    placeholder name. *)
Lemma adb_line_without_model (deviceId details : string) :
  token deviceId = true ->
  allOf Regex.dot details = true -> stopsAt Regex.ws details = true ->
  JS.includes details "model:" = false ->
  Android.parseAdbLine (deviceId ++ " device " ++ details)
  = [Android.device deviceId "Android Device" physicalDevices].
Proof.
  intros Hid Hdot Hstop Hno.
  destruct (token_inv _ Hid) as (a & id1 & -> & Ha & Hid1).
  unfold Android.parseAdbLine.
  change (String a id1 ++ " device " ++ details)
    with (String a (id1 ++ " device " ++ details)).
  rewrite trim_truthy by (unfold Regex.notWs in Ha; now apply negb_true_iff in Ha).
  change (String a (id1 ++ " device " ++ details))
    with (String a id1 ++ " device " ++ details).
  rewrite deviceRe_match; [| exact Ha | exact Hid1 | exact Hdot | exact Hstop].
  cbn [Regex.group Regex.lookupCap Nat.eqb]. now rewrite modelRe_none.
Qed.

Lemma dot_oneLine (s : string) : allOf Regex.dot s = true -> oneLine s = true.
Proof.
  apply (allOf_impl Regex.dot (fun c => negb (Ascii.eqb c "010"))).
  intros c H. destruct (Ascii.eqb_spec c "010") as [->|N]; [discriminate H | reflexivity].
Qed.

Lemma token_dot (s : string) : token s = true -> allOf Regex.dot s = true.
Proof.
  unfold token. intros H. apply andb_true_iff in H as [_ H].
  exact (allOf_impl Regex.notWs Regex.dot s notWs_dot H).
Qed.

(** The listing made of a header line and one more line. *)
Lemma parseAdb_header_and_line (header line : string) :
  oneLine header = true -> oneLine line = true ->
  Android.parseAdb (header ++ newline ++ line) = Android.parseAdbLine line.
Proof.
  intros Hh Hl. unfold Android.parseAdb.
  rewrite (split_first_line header line Hh), (split_single_line line Hl).
  cbn [tl flat_map]. apply app_nil_r.
Qed.

(** ** Parser A: the header line and the device lines *)

(** C10. The Android parser drops the first line of the captured [adb]
    output whatever it holds: a captured output of one line gives no
    record, and the records of a longer output are those of the lines
    after the first one, so that none comes from line 0. *)
Theorem android_first_line_discarded (line0 rest : string) :
  oneLine line0 = true ->
  Android.parseAdb line0 = []
  /\ Android.parseAdb (line0 ++ newline ++ rest)
     = flat_map Android.parseAdbLine (JS.split "010" rest)
  /\ forall emulators,
       Android.listDevices (Ok (line0 ++ newline ++ rest)) (Ok emulators)
       = Android.listDevices (Ok (newline ++ rest)) (Ok emulators).
Proof.
  intros H.
  assert (E : Android.parseAdb (line0 ++ newline ++ rest)
              = flat_map Android.parseAdbLine (JS.split "010" rest)).
  { unfold Android.parseAdb. now rewrite (split_first_line line0 rest H). }
  repeat split.
  - unfold Android.parseAdb. now rewrite (split_single_line line0 H).
  - exact E.
  - intros emulators. unfold Android.listDevices. now rewrite E.
Qed.

(** The first line of this output has the shape of a device line, and is
    dropped all the same. *)
Lemma android_first_line_discarded_witness :
  oneLine "AB12 device model:iPhone_15" = true
  /\ Android.parseAdbLine "AB12 device model:iPhone_15"
     = [Android.device "AB12" "iPhone 15" physicalDevices]
  /\ Android.parseAdb "AB12 device model:iPhone_15" = []
  /\ Android.parseAdb ("AB12 device model:iPhone_15" ++ newline ++ "CD34 device usb:1-1")
     = flat_map Android.parseAdbLine (JS.split "010" "CD34 device usb:1-1").
Proof.
  split; [reflexivity|]. split; [reflexivity|].
  pose proof (android_first_line_discarded
                "AB12 device model:iPhone_15" "CD34 device usb:1-1" eq_refl) as H.
  split; [exact (proj1 H) | exact (proj1 (proj2 H))].
Defined.

(** C7, as stated: the captured output made of the single line
    [AB12 device model:iPhone_15] gives no record at all, the line being
    taken for the header. *)
Lemma adb_single_device_line_gives_nothing :
  Android.listDevices (Ok "AB12 device model:iPhone_15") (Ok "") = ([], [])
  /\ snd (Android.listDevices (Ok "AB12 device model:iPhone_15") (Ok ""))
     <> [Android.device "AB12" "iPhone 15" physicalDevices].
Proof. split; [reflexivity | discriminate]. Qed.

(** C7, amended. When the line [AB12 device model:iPhone_15] comes after
    the header line, it gives exactly one record of the physical category
    with id [AB12] and name [iPhone 15].  In general a device line after the
    header gives one record with the identifier of the line; its name is the
    token of the [model:] fragment with the underscores turned into blanks,
    and the placeholder name when the details hold no such fragment. *)
Theorem adb_device_line_after_header (header : string) :
  oneLine header = true ->
  Android.listDevices (Ok (header ++ newline ++ "AB12 device model:iPhone_15")) (Ok "")
  = ([], [Android.device "AB12" "iPhone 15" physicalDevices])
  /\ (forall deviceId model : string,
        token deviceId = true -> token model = true ->
        Android.parseAdb (header ++ newline ++ deviceId ++ " device model:" ++ model)
        = [Android.device deviceId (JS.replaceAllChar "_" " " model) physicalDevices])
  /\ (forall deviceId details : string,
        token deviceId = true ->
        allOf Regex.dot details = true -> stopsAt Regex.ws details = true ->
        JS.includes details "model:" = false ->
        Android.parseAdb (header ++ newline ++ deviceId ++ " device " ++ details)
        = [Android.device deviceId "Android Device" physicalDevices]).
Proof.
  intros H. split; [|split].
  - unfold Android.listDevices, Android.parseAdb.
    rewrite (split_first_line header _ H). reflexivity.
  - intros deviceId model Hid Hm.
    rewrite parseAdb_header_and_line; [| exact H |].
    + rewrite <- (append_empty_r model) at 1.
      now apply adb_line_with_model.
    + apply dot_oneLine. rewrite !allOf_append, (token_dot _ Hid), (token_dot _ Hm).
      reflexivity.
  - intros deviceId details Hid Hdot Hstop Hno.
    rewrite parseAdb_header_and_line; [| exact H |].
    + now apply adb_line_without_model.
    + apply dot_oneLine. rewrite !allOf_append, (token_dot _ Hid), Hdot.
      reflexivity.
Qed.

Lemma adb_device_line_after_header_witness :
  oneLine "List of devices attached" = true
  /\ Android.listDevices
       (Ok ("List of devices attached" ++ newline ++ "AB12 device model:iPhone_15")) (Ok "")
     = ([], [Android.device "AB12" "iPhone 15" physicalDevices])
  /\ (token "AB12" = true /\ token "Pixel_7_Pro" = true
      /\ Android.parseAdb ("List of devices attached" ++ newline
                             ++ "AB12" ++ " device model:" ++ "Pixel_7_Pro")
         = [Android.device "AB12" "Pixel 7 Pro" physicalDevices])
  /\ (allOf Regex.dot "usb:1-1 transport_id:3" = true
      /\ stopsAt Regex.ws "usb:1-1 transport_id:3" = true
      /\ JS.includes "usb:1-1 transport_id:3" "model:" = false
      /\ Android.parseAdb ("List of devices attached" ++ newline
                             ++ "AB12" ++ " device " ++ "usb:1-1 transport_id:3")
         = [Android.device "AB12" "Android Device" physicalDevices]).
Proof.
  pose proof (adb_device_line_after_header "List of devices attached" eq_refl)
    as (H1 & H2 & H3).
  split; [reflexivity|]. split; [exact H1|]. split.
  - split; [reflexivity|]. split; [reflexivity|].
    exact (H2 "AB12" "Pixel_7_Pro" eq_refl eq_refl).
  - split; [reflexivity|]. split; [reflexivity|]. split; [reflexivity|].
    exact (H3 "AB12" "usb:1-1 transport_id:3" eq_refl eq_refl eq_refl eq_refl).
Defined.

(** ** Failure of the listing command *)

(** C4. When the listing command fails, [listDevices] returns the empty
    result (every category empty on iOS, the empty list on Android, for
    either of its two commands) and the failure is printed with
    [console.error]; nothing is thrown, the functions return on every
    input.  An empty captured output gives the empty result as well, and
    prints nothing. *)
Theorem listing_failure_gives_no_devices :
  (forall e, IOS.listDevices (Throw e) = ([LogError (ErrorListing e)], noDevices))
  /\ (forall e emulator,
        Android.listDevices (Throw e) emulator = ([LogError (ErrorListing e)], []))
  /\ (forall adbDevices e,
        Android.listDevices (Ok adbDevices) (Throw e) = ([LogError (ErrorListing e)], []))
  /\ IOS.listDevices (Ok "") = ([], mkCategorized [] [] [])
  /\ Android.listDevices (Ok "") (Ok "") = ([], []).
Proof. repeat split. Qed.

(** ** Parser B: the standard grammar *)

(** C3, at the failing input. A line [<name> (<id>)] without version,
    name and id one blank apart, is not matched by the standard grammar
    (which asks for two runs of white space between the name and the id),
    nor by the other two: no record comes out of it.  With the version, or
    with two blanks, the line is parsed. *)
Theorem standard_line_without_version_is_skipped :
  Regex.exec IOS.standardRe "My iPhone (00008030-ABC)" = None
  /\ IOS.parseLine "My iPhone (00008030-ABC)" physicalDevices = None
  /\ IOS.listDevices (Ok ("== Devices ==" ++ newline ++ "My iPhone (00008030-ABC)"))
     = ([], noDevices)
  /\ IOS.parseLine "My iPhone (17.0) (00008030-ABC)" physicalDevices
     = Some (IOS.device "My iPhone" "00008030-ABC" physicalDevices None (Some "17.0"))
  /\ IOS.parseLine "My iPhone  (00008030-ABC)" physicalDevices
     = Some (IOS.device "My iPhone" "00008030-ABC" physicalDevices None None).
Proof. repeat split. Qed.

(** Parser B on a listing with the three sections and the three line
    grammars: the Mac is left out of the physical devices, the simulators
    that are not iPhones are left out, and of the two [iPhone 15] simulators
    the one of version 18.4 is kept. *)
Example ios_listing :
  IOS.listDevices
    (Ok ("== Devices ==" ++ newline
         ++ "Office MacBook Pro (18.3) (MAC-0)" ++ newline
         ++ "My Phone (18.3.2) (00008120-000A)" ++ newline
         ++ "== Devices Offline ==" ++ newline
         ++ "Old Watch (10.4) (WATCH-1)" ++ newline
         ++ "" ++ newline
         ++ "== Simulators ==" ++ newline
         ++ "iPhone 15 (17.0) (SIM-1)" ++ newline
         ++ "iPhone 15 (18.4) (SIM-2)" ++ newline
         ++ "iPad Air (18.4) (SIM-3)" ++ newline
         ++ "{ platform:iOS Simulator, arch:x86_64, id:SIM-4, OS:18.4, name:iPhone SE (3rd generation) }"
         ++ newline
         ++ "not a device line"))
  = ([],
     {| physical :=
          [IOS.device "My Phone" "00008120-000A" physicalDevices None (Some "18.3.2")];
        offline :=
          [IOS.device "Old Watch" "WATCH-1" offlineDevices None (Some "10.4")];
        sims :=
          [Utils.annotate
             (IOS.device "iPhone 15" "SIM-2" simulators None (Some "18.4"));
           Utils.annotate
             (IOS.device "iPhone SE (3rd generation)" "SIM-4" simulators
                         (Some "iOS Simulator") (Some "18.4"))] |}).
Proof. reflexivity. Qed.

(** ** The rendering pass of the selectors *)

Lemma countFrom_app (l1 l2 : list DeviceInfo) : forall k,
  countFrom k (l1 ++ l2)
  = (countFrom k l1 ++ countFrom (k + Z.of_nat (List.length l1)) l2)%list.
Proof.
  induction l1 as [|d l1 IH]; intros k; cbn [countFrom app List.length].
  - now rewrite Z.add_0_r.
  - rewrite IH. do 3 f_equal. lia.
Qed.

Lemma countFrom_length (l : list DeviceInfo) : forall k,
  List.length (countFrom k l) = List.length l.
Proof. induction l as [|d l IH]; intros k; simpl; [reflexivity | now rewrite IH]. Qed.

Lemma countFrom_numbers (l : list DeviceInfo) : forall k : nat,
  map fst (countFrom (Z.of_nat k) l) = map Z.of_nat (seq k (List.length l)).
Proof.
  induction l as [|d l IH]; intros k; cbn [countFrom map seq List.length fst].
  - reflexivity.
  - f_equal. rewrite <- IH. do 2 f_equal. lia.
Qed.

Lemma countFrom_devices (l : list DeviceInfo) : forall k,
  map snd (countFrom k l) = l.
Proof. induction l as [|d l IH]; intros k; simpl; [reflexivity | now rewrite IH]. Qed.

Lemma numbered_countFrom (l : list DeviceInfo) : forall start,
  Android.numbered start l = countFrom (start + 1) l.
Proof. induction l as [|d l IH]; intros s; simpl; [reflexivity | now rewrite IH]. Qed.

Lemma fold_showSelectable (l : list DeviceInfo) : forall r,
  fold_left IOS.showSelectable l r
  = IOS.mkRender
      (IOS.deviceCounter r + Z.of_nat (List.length l))
      (IOS.allDevices r ++ map indexedDevice (countFrom (IOS.deviceCounter r) l))
      (IOS.printed r ++ map selectableLine (countFrom (IOS.deviceCounter r) l)).
Proof.
  induction l as [|d l IH]; intros [k all t].
  - cbn. now rewrite Z.add_0_r, !app_nil_r.
  - cbn [fold_left]. rewrite IH. unfold IOS.showSelectable.
    cbn [IOS.deviceCounter IOS.allDevices IOS.printed countFrom map List.length].
    rewrite <- !app_assoc. cbn [app]. f_equal. lia.
Qed.

Lemma fold_showSimulator (l : list DeviceInfo) : forall r,
  fold_left IOS.showSimulator l r
  = fold_left IOS.showSelectable (filter IOS.isIphone l) r.
Proof.
  induction l as [|d l IH]; intros r; cbn [fold_left filter]; [reflexivity|].
  unfold IOS.showSimulator at 2. destruct (IOS.isIphone d); cbn [fold_left]; apply IH.
Qed.

(** The rendering pass in closed form. *)
Lemma renderDevices_eq (c : CategorizedDevices) :
  IOS.renderDevices c
  = IOS.mkRender (1 + Z.of_nat (List.length (selectable c)))
                 (map indexedDevice (countFrom 1 (selectable c)))
                 (renderedLines c).
Proof.
  unfold IOS.renderDevices, renderedLines, selectable.
  rewrite countFrom_app, map_app, length_app, Nat2Z.inj_add.
  destruct c as [phys off sm]; cbn [physical offline sims].
  assert (P : match phys with
              | [] => IOS.say (IOS.mkRender 1 [] [Log (Heading "== Devices ==")])
                              [Log NoPhysicalDevices]
              | _ :: _ => fold_left IOS.showSelectable phys
                            (IOS.mkRender 1 [] [Log (Heading "== Devices ==")])
              end
              = IOS.mkRender (1 + Z.of_nat (List.length phys))
                  (map indexedDevice (countFrom 1 phys))
                  (Log (Heading "== Devices ==")
                     :: match phys with
                        | [] => [Log NoPhysicalDevices]
                        | _ :: _ => map selectableLine (countFrom 1 phys)
                        end)).
  { destruct phys as [|p phys]; [reflexivity|]. now rewrite fold_showSelectable. }
  rewrite P; clear P.
  set (lp := match phys with
             | [] => [Log NoPhysicalDevices]
             | _ :: _ => map selectableLine (countFrom 1 phys)
             end).
  destruct off as [|o off], sm as [|s sm];
    unfold IOS.say; cbn [IOS.deviceCounter IOS.allDevices IOS.printed];
    try rewrite fold_showSimulator, fold_showSelectable;
    cbn [IOS.deviceCounter IOS.allDevices IOS.printed filter countFrom map app List.length];
    rewrite ?app_nil_r, ?Z.add_0_r, <- ?app_assoc; cbn [app];
    f_equal; try lia; try reflexivity.
Qed.

Lemma shownNumbers_app (t1 t2 : list event) :
  shownNumbers (t1 ++ t2) = (shownNumbers t1 ++ shownNumbers t2)%list.
Proof. apply flat_map_app. Qed.

Lemma shownNumbers_selectable (l : list (Z * DeviceInfo)) :
  shownNumbers (map selectableLine l) = map Some (map fst l).
Proof. induction l as [|[n d] l IH]; simpl; [reflexivity | now rewrite <- IH]. Qed.

Lemma shownNumbers_selectable' (l : list (Z * DeviceInfo)) :
  shownNumbers (map (fun '(n, d) => Log (Selectable (Some n) d)) l) = map Some (map fst l).
Proof. induction l as [|[n d] l IH]; simpl; [reflexivity | now rewrite <- IH]. Qed.

Lemma shownNumbers_selectableName (l : list (Z * DeviceInfo)) :
  shownNumbers (map (fun '(n, d) => Log (SelectableName n d)) l) = map Some (map fst l).
Proof. induction l as [|[n d] l IH]; simpl; [reflexivity | now rewrite <- IH]. Qed.

Lemma shownNumbers_unavailable (l : list DeviceInfo) :
  shownNumbers (map (fun d => Log (Unavailable d)) l) = [].
Proof. induction l as [|d l IH]; simpl; [reflexivity | exact IH]. Qed.

Lemma upTo_countFrom (l : list DeviceInfo) :
  map fst (countFrom 1 l) = upTo (List.length l).
Proof. exact (countFrom_numbers l 1). Qed.

Lemma renderedLines_numbers (c : CategorizedDevices) :
  shownNumbers (renderedLines c) = map Some (upTo (List.length (selectable c))).
Proof.
  unfold selectable. rewrite <- upTo_countFrom, countFrom_app, !map_app.
  unfold renderedLines. destruct c as [phys off sm]; cbn [physical offline sims].
  change (shownNumbers (?e :: ?t)) with (shownNumber e ++ shownNumbers t)%list.
  cbn [shownNumber app]. rewrite !shownNumbers_app.
  replace (shownNumbers match off with
                        | [] => []
                        | _ :: _ =>
                            Log (Heading "== Devices Offline ==")
                              :: map (fun d => Log (Unavailable d)) off
                        end) with (@nil (option Z)).
  2:{ destruct off; [reflexivity|].
      change (shownNumbers (?e :: ?t)) with (shownNumber e ++ shownNumbers t)%list.
      cbn [shownNumber app]. symmetry. apply shownNumbers_unavailable. }
  cbn [app]. f_equal.
  - destruct phys; [reflexivity | apply shownNumbers_selectable].
  - destruct sm; [reflexivity|].
    change (shownNumbers (?e :: ?t)) with (shownNumber e ++ shownNumbers t)%list.
    cbn [shownNumber app]. apply shownNumbers_selectable.
Qed.

Lemma renderedLines_unavailable (c : CategorizedDevices) :
  flat_map shownUnavailable (renderedLines c) = offline c.
Proof.
  assert (S : forall l, flat_map shownUnavailable (map selectableLine l) = []).
  { induction l as [|[n d] l IH]; simpl; [reflexivity | exact IH]. }
  assert (U : forall l, flat_map shownUnavailable (map (fun d => Log (Unavailable d)) l) = l).
  { induction l as [|d l IH]; simpl; [reflexivity | now rewrite IH]. }
  unfold renderedLines. destruct c as [phys off sm]; cbn [physical offline sims].
  cbn [flat_map shownUnavailable app]. rewrite !flat_map_app.
  replace (flat_map shownUnavailable
             match phys with
             | [] => [Log NoPhysicalDevices]
             | _ :: _ => map selectableLine (countFrom 1 phys)
             end) with (@nil DeviceInfo) by (destruct phys; [reflexivity | now rewrite S]).
  destruct sm as [|s sm]; cbn [flat_map shownUnavailable app]; rewrite ?S, ?app_nil_r;
    (destruct off as [|o off]; [reflexivity|]);
    cbn [flat_map shownUnavailable app map]; now rewrite U.
Qed.

Lemma questions_app (t1 t2 : list event) :
  questions (t1 ++ t2) = questions t1 + questions t2.
Proof. unfold questions. now rewrite filter_app, length_app. Qed.

Lemma questions_logs (A : Type) (f : A -> message) (l : list A) :
  questions (map (fun a => Log (f a)) l) = 0.
Proof. induction l as [|a l IH]; [reflexivity | exact IH]. Qed.

Lemma renderedLines_questions (c : CategorizedDevices) :
  questions (renderedLines c) = 0.
Proof.
  assert (S : forall l, questions (map selectableLine l) = 0).
  { intros l. apply (questions_logs _ (fun p => Selectable (Some (fst p)) (snd p))). }
  unfold renderedLines. destruct c as [phys off sm]; cbn [physical offline sims].
  change (questions (?e :: ?t)) with (questions [e] + questions t).
  rewrite !questions_app.
  assert (A : questions match phys with
                        | [] => [Log NoPhysicalDevices]
                        | _ :: _ => map selectableLine (countFrom 1 phys)
                        end = 0) by (destruct phys; [reflexivity | apply S]).
  assert (B : questions match off with
                        | [] => []
                        | _ :: _ =>
                            Log (Heading "== Devices Offline ==")
                              :: map (fun d => Log (Unavailable d)) off
                        end = 0).
  { destruct off; [reflexivity|].
    change (questions (?e :: ?t)) with (questions [e] + questions t).
    now rewrite (questions_logs _ Unavailable). }
  assert (C : questions match sm with
                        | [] => []
                        | _ :: _ =>
                            Log (Heading "== Simulators ==")
                              :: map selectableLine
                                     (countFrom (1 + Z.of_nat (List.length phys))
                                                (filter IOS.isIphone sm))
                        end = 0).
  { destruct sm; [reflexivity|].
    change (questions (?e :: ?t)) with (questions [e] + questions t).
    now rewrite S. }
  rewrite A, B, C. reflexivity.
Qed.

(** The records of Parser A: physical devices, then emulators. *)
Lemma parseAdb_physical (s : string) :
  Forall (fun d => category d = Some physicalDevices) (Android.parseAdb s).
Proof.
  unfold Android.parseAdb. apply Forall_flat_map, Forall_forall. intros line _.
  unfold Android.parseAdbLine.
  destruct (JS.truthy (JS.trim line)); [|constructor].
  destruct (Regex.exec Android.deviceRe line) as [m|]; [|constructor].
  destruct (Regex.group 1 m); [|constructor].
  destruct (Regex.group 2 m); constructor; [reflexivity | constructor].
Qed.

Lemma parseEmulators_simulators (s : string) :
  Forall (fun d => category d = Some simulators) (Android.parseEmulators s).
Proof.
  unfold Android.parseEmulators. apply Forall_flat_map, Forall_forall. intros line _.
  unfold Android.parseEmulatorLine.
  destruct (JS.truthy (JS.trim line)); constructor; [reflexivity | constructor].
Qed.

Lemma filter_category_same (c : Category) (l : list DeviceInfo) :
  Forall (fun d => category d = Some c) l -> filter (hasCategory c) l = l.
Proof.
  induction 1 as [|d l H _ IH]; simpl; [reflexivity|].
  unfold hasCategory at 1. rewrite H. destruct c; simpl; now rewrite IH.
Qed.

Lemma filter_category_other (c c' : Category) (l : list DeviceInfo) :
  Category_eqb c c' = false ->
  Forall (fun d => category d = Some c) l -> filter (hasCategory c') l = [].
Proof.
  intros Hc. induction 1 as [|d l H _ IH]; simpl; [reflexivity|].
  unfold hasCategory at 1. now rewrite H, Hc.
Qed.

Lemma android_devices_by_category (adb emulator : result string) :
  let devices := snd (Android.listDevices adb emulator) in
  (filter (hasCategory physicalDevices) devices
     ++ filter (hasCategory simulators) devices)%list = devices.
Proof.
  destruct adb as [a|e]; [|reflexivity].
  destruct emulator as [m|e]; [|reflexivity].
  cbn [Android.listDevices snd]. rewrite !filter_app.
  rewrite (filter_category_same _ _ (parseAdb_physical a)).
  rewrite (filter_category_same _ _ (parseEmulators_simulators m)).
  rewrite (filter_category_other physicalDevices simulators _ eq_refl (parseAdb_physical a)).
  rewrite (filter_category_other simulators physicalDevices _ eq_refl (parseEmulators_simulators m)).
  now rewrite app_nil_r.
Qed.

Lemma display_numbers (devices : list DeviceInfo) :
  shownNumbers (Android.display devices)
  = map Some (upTo (List.length (filter (hasCategory physicalDevices) devices
                                  ++ filter (hasCategory simulators) devices))).
Proof.
  rewrite <- upTo_countFrom, countFrom_app, !map_app.
  unfold Android.display.
  set (phys := filter (hasCategory physicalDevices) devices).
  set (emus := filter (hasCategory simulators) devices).
  change (shownNumbers (?e :: ?t)) with (shownNumber e ++ shownNumbers t)%list.
  cbn [shownNumber app]. rewrite shownNumbers_app. f_equal.
  - destruct phys; [reflexivity|].
    now rewrite shownNumbers_selectable', numbered_countFrom.
  - destruct emus; [reflexivity|].
    change (shownNumbers (?e :: ?t)) with (shownNumber e ++ shownNumbers t)%list.
    cbn [shownNumber app].
    rewrite shownNumbers_selectableName, numbered_countFrom.
    do 3 f_equal. lia.
Qed.

(** C6. In one rendering pass the selectable devices, the physical ones
    first and then the simulators, get the indices 1, 2, ..., n in display
    order: the numbering goes on through the simulator section, the offline
    devices are printed without a number and get no index.  This holds for
    the iOS selector, and for the numbers the Android selector prints in
    front of the devices it lists. *)
Theorem selector_indices_contiguous :
  (forall c : CategorizedDevices,
     let r := IOS.renderDevices c in
     IOS.allDevices r = map indexedDevice (countFrom 1 (selectable c))
     /\ map index (IOS.allDevices r) = map Some (upTo (List.length (selectable c)))
     /\ shownNumbers (IOS.printed r) = map Some (upTo (List.length (selectable c)))
     /\ flat_map shownUnavailable (IOS.printed r) = offline c)
  /\ (forall adb emulator : result string,
        let devices := snd (Android.listDevices adb emulator) in
        shownNumbers (Android.display devices) = map Some (upTo (List.length devices))).
Proof.
  split.
  - intros c r. subst r. rewrite renderDevices_eq.
    cbn [IOS.allDevices IOS.printed]. repeat split.
    + rewrite <- upTo_countFrom.
      induction (countFrom 1 (selectable c)) as [|[n d] l IH]; simpl;
        [reflexivity | now rewrite IH].
    + apply renderedLines_numbers.
    + apply renderedLines_unavailable.
  - intros adb emulator devices. rewrite display_numbers. subst devices.
    now rewrite android_devices_by_category.
Qed.

(** C8. When the selectable set is empty, whatever the offline devices,
    the selector returns [null] at once and asks no question. *)
Theorem no_selectable_device_no_prompt :
  (forall (c : CategorizedDevices) (answers : list answer),
     physical c = [] -> filter IOS.isIphone (sims c) = [] ->
     snd (IOS.selectDevice c answers) = Returned None
     /\ questions (fst (IOS.selectDevice c answers)) = 0)
  /\ (forall (adb emulator : result string) (answers : list answer),
        snd (Android.listDevices adb emulator) = [] ->
        snd (Android.selectDevice adb emulator answers) = Returned None
        /\ questions (fst (Android.selectDevice adb emulator answers)) = 0).
Proof.
  split.
  - intros c answers Hp Hs. unfold IOS.selectDevice. rewrite renderDevices_eq.
    unfold selectable. rewrite Hp, Hs. cbn [app countFrom map IOS.allDevices IOS.printed fst snd].
    split; [reflexivity|]. rewrite questions_app, renderedLines_questions. reflexivity.
  - intros adb emulator answers H. unfold Android.selectDevice.
    destruct (Android.listDevices adb emulator) as [t devices] eqn:E.
    cbn [snd] in H. subst devices. cbn [fst snd]. split; [reflexivity|].
    rewrite questions_app.
    destruct adb as [a|e]; [destruct emulator as [m|e]|];
      cbn in E; inversion E; reflexivity.
Qed.

Lemma no_selectable_device_no_prompt_witness :
  let c := mkCategorized
             []
             [IOS.device "Old iPhone" "0000-OFF" offlineDevices None (Some "15.0")]
             [IOS.device "Apple TV" "SIM-TV" simulators None (Some "17.0")] in
  (physical c = [] /\ filter IOS.isIphone (sims c) = []
   /\ snd (IOS.selectDevice c [Line "1"]) = Returned None
   /\ questions (fst (IOS.selectDevice c [Line "1"])) = 0)
  /\ (snd (Android.listDevices (Ok "List of devices attached") (Ok "")) = []
      /\ snd (Android.selectDevice (Ok "List of devices attached") (Ok "") [Line "1"])
         = Returned None
      /\ questions (fst (Android.selectDevice (Ok "List of devices attached") (Ok "")
                                              [Line "1"])) = 0).
Proof.
  intros c. split.
  - split; [reflexivity|]. split; [reflexivity|].
    exact (proj1 no_selectable_device_no_prompt c [Line "1"] eq_refl eq_refl).
  - split; [reflexivity|].
    exact (proj2 no_selectable_device_no_prompt
                 (Ok "List of devices attached") (Ok "") [Line "1"] eq_refl).
Defined.

(** ** The prompt loop of the iOS selector *)

Lemma findIndex_index (all : list DeviceInfo) (sel : option Z) (d : DeviceInfo) :
  IOS.findIndex all sel = Some d -> In d all /\ index d = sel /\ sel <> None.
Proof.
  unfold IOS.findIndex. intros H. apply find_some in H as [Hin Hh].
  unfold IOS.hasIndex in Hh. destruct (index d) as [i|], sel as [n|]; try discriminate.
  apply Z.eqb_eq in Hh. subst. repeat split; [exact Hin | discriminate].
Qed.

Lemma questions_cons_log (m : message) (t : list event) :
  questions (Log m :: t) = questions t.
Proof. reflexivity. Qed.

Lemma shownAgain_questions (all : list DeviceInfo) (attempts : nat) :
  questions (shownAgain all attempts) = 0.
Proof.
  unfold shownAgain. destruct (IOS.maxAttempts <=? S attempts); [|reflexivity].
  unfold IOS.redisplay.
  rewrite !questions_cons_log, questions_app, questions_cons_log.
  rewrite (questions_logs _ (fun d => Selectable (index d) d)), Nat.add_0_r.
  destruct (filter (hasCategory physicalDevices) all); [reflexivity|].
  apply (questions_logs _ (fun d => Selectable (index d) d)).
Qed.

(** The devices of a rendering pass have indices from 1 on: none has the
    index -1 the loop starts from. *)
Lemma rendered_devices_no_default_index (c : CategorizedDevices) :
  IOS.found (IOS.allDevices (IOS.renderDevices c)) (Some (-1)%Z) = false.
Proof.
  rewrite renderDevices_eq. cbn [IOS.allDevices]. unfold IOS.found, IOS.findIndex.
  assert (H : forall l k, (1 <= k)%Z ->
                find (IOS.hasIndex (Some (-1)%Z)) (map indexedDevice (countFrom k l)) = None).
  { induction l as [|d l IH]; intros k Hk; [reflexivity|].
    cbn [countFrom map find]. unfold IOS.hasIndex at 1.
    cbn [indexedDevice fst snd IOS.withIndex index].
    destruct (Z.eqb_spec k (-1)); [lia|]. apply IH. lia. }
  now rewrite H.
Qed.

Section PromptLoop.

Variable all : list DeviceInfo.

Lemma promptLoop_waiting (sel : option Z) (attempts : nat) :
  IOS.found all sel = false -> attempts < IOS.maxAttempts ->
  IOS.promptLoop all sel attempts [] = ([Question], Awaiting).
Proof.
  intros Hf Ha. cbn [IOS.promptLoop]. rewrite Hf.
  apply Nat.ltb_lt in Ha. now rewrite Ha.
Qed.

Lemma promptLoop_found (sel : option Z) (attempts : nat) (answers : list answer)
      (d : DeviceInfo) :
  IOS.findIndex all sel = Some d ->
  IOS.promptLoop all sel attempts answers
  = ([Log (SelectedDevice (name d))], Returned (Some d)).
Proof.
  intros Hd.
  assert (Hf : IOS.found all sel = true) by (unfold IOS.found; now rewrite Hd).
  destruct answers; cbn [IOS.promptLoop]; rewrite Hf, Hd; reflexivity.
Qed.

(** One invalid answer: the error is printed, the list is printed again
    when the attempts are used up, and the loop goes on. *)
Lemma promptLoop_invalid (sel : option Z) (attempts : nat) (text : string)
      (rest : list answer) :
  IOS.found all sel = false -> attempts < IOS.maxAttempts ->
  invalidLine all text = true ->
  IOS.promptLoop all sel attempts (Line text :: rest)
  = ((invalidAttempt all ++ shownAgain all attempts
        ++ fst (IOS.promptLoop all (Some (-1)%Z) (nextAttempts attempts) rest))%list,
     snd (IOS.promptLoop all (Some (-1)%Z) (nextAttempts attempts) rest)).
Proof.
  intros Hf Ha Hi. unfold invalidLine in Hi.
  cbn [IOS.promptLoop]. rewrite Hf. apply Nat.ltb_lt in Ha. rewrite Ha.
  cbn [negb andb]. rewrite Hi, orb_true_r.
  unfold nextAttempts, shownAgain, invalidAttempt.
  destruct (IOS.maxAttempts <=? S attempts).
  - destruct (IOS.promptLoop all (Some (-1)%Z) 0 rest) as [t o]. reflexivity.
  - destruct (IOS.promptLoop all (Some (-1)%Z) (S attempts) rest) as [t o]. reflexivity.
Qed.

(** A valid answer ends the loop with the device of that index. *)
Lemma promptLoop_valid (sel : option Z) (attempts : nat) (text : string)
      (rest : list answer) (d : DeviceInfo) :
  IOS.found all sel = false -> attempts < IOS.maxAttempts ->
  IOS.findIndex all (JS.parseInt10 (JS.trim text)) = Some d ->
  IOS.promptLoop all sel attempts (Line text :: rest)
  = ([Question; Log (SelectedDevice (name d))], Returned (Some d)).
Proof.
  intros Hf Ha Hd.
  assert (Hp : IOS.found all (JS.parseInt10 (JS.trim text)) = true)
    by (unfold IOS.found; now rewrite Hd).
  cbn [IOS.promptLoop]. rewrite Hf. apply Nat.ltb_lt in Ha. rewrite Ha.
  cbn [negb andb]. rewrite Hp.
  destruct (JS.parseInt10 (JS.trim text)) as [n|] eqn:En.
  - cbn [negb orb]. rewrite (promptLoop_found (Some n) attempts rest d Hd). reflexivity.
  - now destruct (findIndex_index _ _ _ Hd) as (_ & _ & Hn).
Qed.

Lemma nextAttempts_lt (attempts : nat) : nextAttempts attempts < IOS.maxAttempts.
Proof.
  unfold nextAttempts. destruct (IOS.maxAttempts <=? S attempts) eqn:E.
  - unfold IOS.maxAttempts. lia.
  - apply Nat.leb_gt in E. exact E.
Qed.

Hypothesis no_default_index : IOS.found all (Some (-1)%Z) = false.

(** Invalid answers only: the loop is still asking. *)
Lemma promptLoop_invalid_only (texts : list string) : forall attempts,
  attempts < IOS.maxAttempts ->
  Forall (fun t => invalidLine all t = true) texts ->
  snd (IOS.promptLoop all (Some (-1)%Z) attempts (map Line texts)) = Awaiting
  /\ questions (fst (IOS.promptLoop all (Some (-1)%Z) attempts (map Line texts)))
     = S (List.length texts).
Proof.
  induction texts as [|t texts IH]; intros attempts Ha Hall.
  - cbn [map]. rewrite (promptLoop_waiting _ _ no_default_index Ha). split; reflexivity.
  - inversion Hall as [|? ? Ht Hts]; subst.
    cbn [map]. rewrite (promptLoop_invalid _ _ _ _ no_default_index Ha Ht).
    destruct (IH (nextAttempts attempts) (nextAttempts_lt attempts) Hts) as [Ho Hq].
    cbn [fst snd]. split; [exact Ho|].
    rewrite !questions_app, Hq. cbn [List.length].
    now rewrite shownAgain_questions.
Qed.

(** Invalid answers, then a valid one. *)
Lemma promptLoop_invalid_then_valid (texts : list string) (text : string)
      (rest : list answer) (d : DeviceInfo) : forall attempts,
  attempts < IOS.maxAttempts ->
  Forall (fun t => invalidLine all t = true) texts ->
  IOS.findIndex all (JS.parseInt10 (JS.trim text)) = Some d ->
  snd (IOS.promptLoop all (Some (-1)%Z) attempts (map Line texts ++ Line text :: rest))
  = Returned (Some d).
Proof.
  induction texts as [|t texts IH]; intros attempts Ha Hall Hd.
  - cbn [map app]. now rewrite (promptLoop_valid _ _ _ _ d no_default_index Ha Hd).
  - inversion Hall as [|? ? Ht Hts]; subst.
    cbn [map app]. rewrite (promptLoop_invalid _ _ _ _ no_default_index Ha Ht).
    cbn [snd]. apply IH; [apply nextAttempts_lt | exact Hts | exact Hd].
Qed.

End PromptLoop.

(** ** What is printed again *)

Lemma indexed_category (c0 : Category) (l : list DeviceInfo) (k : Z) :
  Forall (fun d => category d = Some c0) l ->
  Forall (fun d => category d = Some c0) (map indexedDevice (countFrom k l)).
Proof.
  intros F. revert k. induction F as [|d l H _ IH]; intros k; [constructor|].
  cbn [countFrom map]. constructor; [exact H | apply IH].
Qed.

Lemma redisplay_lines (l : list (Z * DeviceInfo)) :
  map (fun d => Log (Selectable (index d) d)) (map indexedDevice l)
  = map indexedLine l.
Proof. rewrite map_map. reflexivity. Qed.

(** The list printed again is the categorized list of the rendering
    pass, without the offline devices. *)
Lemma redisplay_rendered (c : CategorizedDevices) :
  wellCategorized c ->
  IOS.redisplay (IOS.allDevices (IOS.renderDevices c)) = redisplayed c.
Proof.
  intros (Hp & _ & Hs). rewrite renderDevices_eq. cbn [IOS.allDevices].
  unfold selectable. rewrite countFrom_app, map_app.
  assert (Fp : Forall (fun d => category d = Some physicalDevices) (physical c)).
  { apply Forall_forall. intros d Hd. rewrite Forall_forall in Hp.
    now destruct (Hp d Hd). }
  assert (Fs : Forall (fun d => category d = Some simulators)
                      (filter IOS.isIphone (sims c))).
  { apply Forall_forall. intros d Hd. apply filter_In in Hd as [Hd _].
    rewrite Forall_forall in Hs. now destruct (Hs d Hd). }
  unfold IOS.redisplay, redisplayed. rewrite !filter_app.
  rewrite (filter_category_same _ _ (indexed_category _ _ 1 Fp)).
  rewrite (filter_category_other physicalDevices simulators _ eq_refl
             (indexed_category _ _ 1 Fp)).
  rewrite (filter_category_other simulators physicalDevices _ eq_refl
             (indexed_category _ _ _ Fs)).
  rewrite (filter_category_same _ _ (indexed_category _ _ _ Fs)).
  rewrite app_nil_r. cbn [app]. rewrite !redisplay_lines.
  destruct (physical c) as [|p ps]; reflexivity.
Qed.

Lemma shownNumbers_indexedLine (l : list (Z * DeviceInfo)) :
  shownNumbers (map indexedLine l) = map Some (map fst l).
Proof. induction l as [|[n d] l IH]; simpl; [reflexivity | now rewrite <- IH]. Qed.

(** The numbers printed again are those of the first display. *)
Lemma redisplayed_numbers (c : CategorizedDevices) :
  shownNumbers (redisplayed c) = shownNumbers (renderedLines c).
Proof.
  rewrite renderedLines_numbers. unfold selectable.
  rewrite <- upTo_countFrom, countFrom_app, !map_app. unfold redisplayed.
  change (shownNumbers (?e :: ?t)) with (shownNumber e ++ shownNumbers t)%list.
  cbn [shownNumber app].
  change (shownNumbers (?e :: ?t)) with (shownNumber e ++ shownNumbers t)%list.
  cbn [shownNumber app]. rewrite shownNumbers_app.
  change (shownNumbers (?e :: ?t)) with (shownNumber e ++ shownNumbers t)%list.
  cbn [shownNumber app]. rewrite shownNumbers_indexedLine. f_equal.
  destruct (physical c); [reflexivity | apply shownNumbers_indexedLine].
Qed.

(** Every physical device and every simulator of the list is printed
    again, with its index. *)
Lemma redisplay_shows (all : list DeviceInfo) (d : DeviceInfo) :
  In d all ->
  category d = Some physicalDevices \/ category d = Some simulators ->
  In (Log (Selectable (index d) d)) (IOS.redisplay all).
Proof.
  intros Hin Hc. unfold IOS.redisplay. right. right. apply in_or_app.
  destruct Hc as [Hc|Hc].
  - left.
    assert (Hf : In d (filter (hasCategory physicalDevices) all)).
    { apply filter_In. split; [exact Hin|]. unfold hasCategory. now rewrite Hc. }
    destruct (filter (hasCategory physicalDevices) all); [contradiction|].
    now apply (in_map (fun d => Log (Selectable (index d) d))).
  - right. right.
    apply (in_map (fun d => Log (Selectable (index d) d))).
    apply filter_In. split; [exact Hin|]. unfold hasCategory. now rewrite Hc.
Qed.

(** C5. In the iOS prompt loop, three invalid answers in a row do not end
    the selection: after the third one the list of devices is printed again
    and the loop goes on as from its start, the counter of attempts back at
    zero.  What is printed again begins with the notice that the attempts
    are used up and holds every physical device and every simulator of the
    list with its index; for the list of a rendering pass it is the
    categorized list itself, the physical devices and then the simulators
    under their headings, numbered as on the first display, without the
    offline devices.  However many invalid answers are given, the loop is
    still asking for a line; and a valid index given after them is resolved
    to the record of that index. *)
Theorem invalid_attempts_never_end_the_prompt (all : list DeviceInfo) :
  IOS.found all (Some (-1)%Z) = false ->
  (forall (a b c : string) (rest : list answer),
     invalidLine all a = true -> invalidLine all b = true -> invalidLine all c = true ->
     IOS.promptForDeviceSelection all (Line a :: Line b :: Line c :: rest)
     = ((invalidAttempt all ++ invalidAttempt all ++ invalidAttempt all
           ++ IOS.redisplay all
           ++ fst (IOS.promptForDeviceSelection all rest))%list,
        snd (IOS.promptForDeviceSelection all rest)))
  /\ ((exists t, IOS.redisplay all
                 = Log MaximumAttempts :: Log (Heading "== Devices ==") :: t)
      /\ (forall d, In d all ->
            category d = Some physicalDevices \/ category d = Some simulators ->
            In (Log (Selectable (index d) d)) (IOS.redisplay all))
      /\ (forall c, wellCategorized c ->
            all = IOS.allDevices (IOS.renderDevices c) ->
            IOS.redisplay all = redisplayed c
            /\ shownNumbers (IOS.redisplay all)
               = shownNumbers (IOS.printed (IOS.renderDevices c))))
  /\ (forall texts : list string,
        Forall (fun t => invalidLine all t = true) texts ->
        snd (IOS.promptForDeviceSelection all (map Line texts)) = Awaiting
        /\ questions (fst (IOS.promptForDeviceSelection all (map Line texts)))
           = S (List.length texts))
  /\ (forall (texts : list string) (text : string) (rest : list answer) (d : DeviceInfo),
        Forall (fun t => invalidLine all t = true) texts ->
        IOS.findIndex all (JS.parseInt10 (JS.trim text)) = Some d ->
        snd (IOS.promptForDeviceSelection all (map Line texts ++ Line text :: rest))
        = Returned (Some d)
        /\ In d all /\ index d = JS.parseInt10 (JS.trim text)).
Proof.
  intros H0. unfold IOS.promptForDeviceSelection. split; [|split; [|split]].
  - intros a b c rest Ha Hb Hc.
    rewrite (promptLoop_invalid all _ 0 a _ H0 ltac:(unfold IOS.maxAttempts; lia) Ha).
    change (nextAttempts 0) with 1.
    rewrite (promptLoop_invalid all _ 1 b _ H0 ltac:(unfold IOS.maxAttempts; lia) Hb).
    change (nextAttempts 1) with 2.
    rewrite (promptLoop_invalid all _ 2 c _ H0 ltac:(unfold IOS.maxAttempts; lia) Hc).
    change (nextAttempts 2) with 0.
    change (shownAgain all 0) with (@nil event).
    change (shownAgain all 1) with (@nil event).
    change (shownAgain all 2) with (IOS.redisplay all).
    cbn [fst snd app]. reflexivity.
  - split; [|split].
    + unfold IOS.redisplay. eexists. reflexivity.
    + intros d Hin Hc. now apply redisplay_shows.
    + intros c Hw ->. rewrite (redisplay_rendered c Hw). split; [reflexivity|].
      rewrite redisplayed_numbers, renderDevices_eq. reflexivity.
  - intros texts Hall.
    apply (promptLoop_invalid_only all H0 texts 0);
      [unfold IOS.maxAttempts; lia | assumption].
  - intros texts text rest d Hall Hd. split.
    + apply (promptLoop_invalid_then_valid all H0 texts text rest d 0);
        [unfold IOS.maxAttempts; lia | assumption | assumption].
    + destruct (findIndex_index _ _ _ Hd) as (? & ? & _). now split.
Qed.

(** Two selectable devices and an offline one; three invalid answers, the
    list printed again, then the index 2. *)
Lemma invalid_attempts_never_end_the_prompt_witness :
  let phone := IOS.device "My Phone" "0000-1" physicalDevices None (Some "17.0") in
  let old := IOS.device "Old Phone" "0000-9" offlineDevices None None in
  let sim := IOS.device "iPhone 15" "SIM-2" simulators None (Some "18.4") in
  let c := mkCategorized [phone] [old] [sim] in
  let all := IOS.allDevices (IOS.renderDevices c) in
  let d := IOS.withIndex sim 2 in
  IOS.found all (Some (-1)%Z) = false
  /\ Forall (fun t => invalidLine all t = true) ["x"; ""; "99"]
  /\ IOS.findIndex all (JS.parseInt10 (JS.trim " 2 ")) = Some d
  /\ wellCategorized c
  /\ IOS.redisplay all
     = [Log MaximumAttempts; Log (Heading "== Devices ==");
        Log (Selectable (Some 1%Z) (IOS.withIndex phone 1));
        Log (Heading "== Simulators ==");
        Log (Selectable (Some 2%Z) (IOS.withIndex sim 2))]
  /\ snd (IOS.promptForDeviceSelection all (map Line ["x"; ""; "99"])) = Awaiting
  /\ snd (IOS.promptForDeviceSelection all (map Line ["x"; ""; "99"] ++ [Line " 2 "]))
     = Returned (Some d).
Proof.
  intros phone old sim c all d.
  assert (H0 : IOS.found all (Some (-1)%Z) = false) by reflexivity.
  assert (Hi : Forall (fun t => invalidLine all t = true) ["x"; ""; "99"])
    by (repeat constructor).
  assert (Hd : IOS.findIndex all (JS.parseInt10 (JS.trim " 2 ")) = Some d) by reflexivity.
  assert (Hw : wellCategorized c) by (repeat split; repeat constructor).
  destruct (invalid_attempts_never_end_the_prompt all H0)
    as (_ & (_ & _ & Hagain) & Hinv & Hval).
  split; [exact H0|]. split; [exact Hi|]. split; [exact Hd|]. split; [exact Hw|].
  split; [exact (proj1 (Hagain c Hw eq_refl))|].
  split; [exact (proj1 (Hinv _ Hi)) | exact (proj1 (Hval _ " 2 " [] d Hi Hd))].
Defined.

(** ** Invalid answers *)

(** C2, as stated, fails on the Android selector: an answer that is
    neither a listed number nor the letter e is reported and resolved to the
    default emulator; no second question is asked, though a further line is
    there to be read.  On the iOS selector an answer is judged by the number
    [parseInt] reads at its start: [2abc] selects the device of index 2. *)
Lemma android_invalid_line_does_not_repeat :
  let adb := Ok ("List of devices attached" ++ newline ++ "AB12 device model:Pixel_7") in
  let c := mkCategorized
             [IOS.device "My Phone" "0000-1" physicalDevices None (Some "17.0")]
             []
             [IOS.device "iPhone 15" "SIM-2" simulators None (Some "18.4")] in
  (snd (Android.listDevices adb (Ok ""))
   = [Android.device "AB12" "Pixel 7" physicalDevices]
   /\ JS.parseInt "abc" = None
   /\ JS.toLowerCase "abc" <> "e"
   /\ snd (Android.selectDevice adb (Ok "") [Line "abc"; Line "1"])
      = Returned (Some "emulator")
   /\ snd (Android.selectDevice adb (Ok "") [Line "abc"; Line "1"]) <> Awaiting
   /\ questions (fst (Android.selectDevice adb (Ok "") [Line "abc"; Line "1"])) = 1)
  /\ (JS.allDigits "2abc" = false
      /\ snd (IOS.selectDevice c [Line "2abc"])
         = Returned (Some (IOS.withIndex
                             (IOS.device "iPhone 15" "SIM-2" simulators None (Some "18.4"))
                             2))).
Proof. cbv zeta. repeat split; discriminate. Qed.

(** C2, amended. In the iOS prompt, an answer from which no assigned index
    is read (by [parseInt] on the trimmed line) counts as an invalid attempt:
    the error is printed and the question is asked again.  In the Android
    prompt, an answer that is not the letter e and from which no listed
    number is read is reported as well, but the prompt is not repeated: the
    selector returns the default emulator. *)
Theorem invalid_line_is_reported :
  (forall (all : list DeviceInfo) (sel : option Z) (attempts : nat) (text : string),
     IOS.found all (Some (-1)%Z) = false ->
     IOS.found all sel = false -> attempts < IOS.maxAttempts ->
     invalidLine all text = true ->
     (forall rest,
        IOS.promptLoop all sel attempts (Line text :: rest)
        = ((invalidAttempt all ++ shownAgain all attempts
              ++ fst (IOS.promptLoop all (Some (-1)%Z) (nextAttempts attempts) rest))%list,
           snd (IOS.promptLoop all (Some (-1)%Z) (nextAttempts attempts) rest)))
     /\ IOS.promptLoop all sel attempts [Line text]
        = ((invalidAttempt all ++ shownAgain all attempts ++ [Question])%list, Awaiting))
  /\ (forall (adb emulator : result string) (text : string) (rest : list answer),
        let devices := snd (Android.listDevices adb emulator) in
        devices <> [] ->
        JS.toLowerCase text <> "e" ->
        noListedNumber devices text = true ->
        snd (Android.selectDevice adb emulator (Line text :: rest))
        = Returned (Some "emulator")
        /\ In (Log InvalidUsingDefault)
              (fst (Android.selectDevice adb emulator (Line text :: rest)))
        /\ questions (fst (Android.selectDevice adb emulator (Line text :: rest))) = 1).
Proof.
  split.
  - intros all sel attempts text H0 Hf Ha Hi. split.
    + intros rest. now apply promptLoop_invalid.
    + rewrite (promptLoop_invalid all sel attempts text [] Hf Ha Hi).
      now rewrite (promptLoop_waiting all _ _ H0 (nextAttempts_lt attempts)).
  - intros adb emulator text rest devices Hne He Hn. subst devices.
    unfold Android.selectDevice.
    destruct (Android.listDevices adb emulator) as [t devices] eqn:E.
    cbn [snd] in Hne, Hn.
    assert (Ht : t = []).
    { destruct adb as [a|e]; [destruct emulator as [m|e]|]; cbn in E; inversion E; subst;
        [reflexivity | now contradiction Hne | now contradiction Hne]. }
    subst t. destruct devices as [|d0 devices]; [now contradiction Hne|].
    assert (R : Android.resolve (d0 :: devices) text
                = ([Log InvalidUsingDefault], Some "emulator")).
    { unfold Android.resolve. apply String.eqb_neq in He. rewrite He.
      unfold noListedNumber in Hn. destruct (JS.parseInt text) as [n|]; [|reflexivity].
      replace ((n - 1 <? 0)%Z || (Z.of_nat (List.length (d0 :: devices)) <=? n - 1)%Z)
        with true; [reflexivity|].
      symmetry. apply orb_true_iff. apply orb_true_iff in Hn as [Hn|Hn];
        [left | right]; [apply Z.ltb_lt in Hn; apply Z.ltb_lt | 
                         apply Z.ltb_lt in Hn; apply Z.leb_le]; lia. }
    rewrite R. cbn [fst snd app]. repeat split.
    + apply in_or_app. right. right. left. reflexivity.
    + rewrite questions_app.
      change (questions (Question :: ?t)) with (S (questions t)).
      cbn [questions filter isQuestion List.length]. rewrite Nat.add_succ_r, Nat.add_0_r.
      f_equal. change (questions (Android.display (d0 :: devices)) = 0).
      unfold Android.display. rewrite questions_cons_log, questions_app.
      replace (questions match filter (hasCategory physicalDevices) (d0 :: devices) with
                         | [] => [Log NoPhysicalDevices]
                         | _ :: _ =>
                             map (fun '(n, d) => Log (Selectable (Some n) d))
                                 (Android.numbered 0
                                    (filter (hasCategory physicalDevices) (d0 :: devices)))
                         end) with 0.
      2:{ destruct (filter (hasCategory physicalDevices) (d0 :: devices)); [reflexivity|].
          symmetry. generalize (Android.numbered 0 (d :: l)).
          induction l0 as [|[n x] l0 IH]; [reflexivity | exact IH]. }
      destruct (filter (hasCategory simulators) (d0 :: devices)); [reflexivity|].
      rewrite questions_cons_log.
      generalize (Android.numbered
                    (Z.of_nat (List.length (filter (hasCategory physicalDevices)
                                                   (d0 :: devices)))) (d :: l)).
      induction l0 as [|[n x] l0 IH]; [reflexivity | exact IH].
Qed.

Lemma invalid_line_is_reported_witness :
  let c := mkCategorized
             [IOS.device "My Phone" "0000-1" physicalDevices None (Some "17.0")]
             []
             [IOS.device "iPhone 15" "SIM-2" simulators None (Some "18.4")] in
  let all := IOS.allDevices (IOS.renderDevices c) in
  let adb := Ok ("List of devices attached" ++ newline ++ "AB12 device model:Pixel_7") in
  (IOS.found all (Some (-1)%Z) = false
   /\ invalidLine all "seven" = true
   /\ IOS.promptLoop all (Some (-1)%Z) 0 [Line "seven"]
      = ((invalidAttempt all ++ shownAgain all 0 ++ [Question])%list, Awaiting))
  /\ (snd (Android.listDevices adb (Ok "")) <> []
      /\ JS.toLowerCase "7" <> "e"
      /\ noListedNumber (snd (Android.listDevices adb (Ok ""))) "7" = true
      /\ snd (Android.selectDevice adb (Ok "") [Line "7"]) = Returned (Some "emulator")).
Proof.
  intros c all adb. split.
  - split; [reflexivity|]. split; [reflexivity|].
    refine (proj2 (proj1 invalid_line_is_reported all (Some (-1)%Z) 0 "seven"
                         eq_refl eq_refl _ eq_refl)).
    unfold IOS.maxAttempts. lia.
  - assert (Hne : snd (Android.listDevices adb (Ok "")) <> []) by discriminate.
    assert (He : JS.toLowerCase "7" <> "e") by discriminate.
    split; [exact Hne|]. split; [exact He|]. split; [reflexivity|].
    exact (proj1 (proj2 invalid_line_is_reported adb (Ok "") "7" [] Hne He eq_refl)).
Defined.

(** ** The order on versions *)

Lemma versionLt_trans (u v w : string) :
  versionLt u v -> versionLt v w -> versionLt u w.
Proof.
  intros (i & Hi & Ei) (k & Hk & Ek).
  destruct (Nat.lt_trichotomy i k) as [L|[E|L]].
  - exists i. split; [rewrite <- (Ek i L); exact Hi|].
    intros j Hj. rewrite (Ei j Hj). apply Ek. lia.
  - subst k. exists i. split; [lia|].
    intros j Hj. rewrite (Ei j Hj). now apply Ek.
  - exists k. split; [rewrite (Ei k L); exact Hk|].
    intros j Hj. rewrite <- (Ek j Hj). apply Ei. lia.
Qed.

Lemma versionLt_Eq (u v w : string) :
  versionLt u v -> versionEq v w -> versionLt u w.
Proof.
  intros (i & Hi & Ei) E. exists i. split; [now rewrite <- (E i)|].
  intros j Hj. now rewrite <- (E j), (Ei j Hj).
Qed.

Lemma versionEq_Lt (u v w : string) :
  versionEq u v -> versionLt v w -> versionLt u w.
Proof.
  intros E (i & Hi & Ei). exists i. split; [now rewrite (E i)|].
  intros j Hj. now rewrite (E j), (Ei j Hj).
Qed.


Lemma versionLe_trans (u v w : string) :
  versionLe u v -> versionLe v w -> versionLe u w.
Proof.
  intros [L1|E1] [L2|E2].
  - left. eapply versionLt_trans; eassumption.
  - left. eapply versionLt_Eq; eassumption.
  - left. eapply versionEq_Lt; eassumption.
  - right. intros i. now rewrite (E1 i), (E2 i).
Qed.

Lemma versionLt_Le (u v : string) : versionLt u v -> versionLe u v.
Proof. intros H. now left. Qed.

(** A version is never strictly lower than itself, nor than a lower one. *)
Lemma versionLt_not_Le (u v : string) : versionLt u v -> ~ versionLe v u.
Proof.
  intros (i & Hi & Ei) [(k & Hk & Ek)|E].
  - destruct (Nat.lt_trichotomy i k) as [L|[->|L]].
    + specialize (Ek i L). lia.
    + lia.
    + specialize (Ei k L). lia.
  - specialize (E i). lia.
Qed.

(** ** The comparator of the sort *)

Lemma split_digitDot (v : string) :
  forallb Regex.digitDot (list_ascii_of_string v) = true ->
  Forall (fun p => JS.allDigits p = true) (JS.split "." v).
Proof.
  induction v as [|c v IH]; intros H.
  - repeat constructor.
  - cbn [list_ascii_of_string forallb] in H. apply andb_true_iff in H as [Hc Hv].
    specialize (IH Hv). cbn [JS.split].
    destruct (Ascii.eqb c ".") eqn:E.
    + constructor; [reflexivity | exact IH].
    + destruct (JS.split "." v) as [|x xs]; [repeat constructor|].
      * unfold JS.allDigits. cbn. unfold Regex.digitDot in Hc. rewrite E in Hc.
        now rewrite orb_false_r in Hc; rewrite Hc.
      * inversion IH as [|? ? Hx Hxs]; subst. constructor; [|exact Hxs].
        unfold JS.allDigits in *. cbn [list_ascii_of_string forallb].
        unfold Regex.digitDot in Hc. rewrite E, orb_false_r in Hc. now rewrite Hc.
Qed.

Lemma versionParts_numeric (v : string) :
  versionOk v = true -> numeric (Utils.versionParts v).
Proof.
  unfold versionOk. intros H. apply andb_true_iff in H as [H _].
  apply split_digitDot in H. unfold numeric, Utils.versionParts.
  induction H as [|p ps Hp _ IH]; constructor; [|exact IH].
  unfold JS.Number. now rewrite Hp.
Qed.

Lemma partAt_numeric (parts : list (option Z)) (i : nat) :
  numeric parts -> Utils.partAt parts i = Some (valueAt parts i).
Proof.
  intros H. unfold valueAt, Utils.partAt.
  destruct (nth_in_or_default i parts (Some 0%Z)) as [Hin|Hd].
  - unfold numeric in H. rewrite Forall_forall in H. specialize (H _ Hin).
    now destruct (nth i parts (Some 0%Z)).
  - now rewrite Hd.
Qed.

Lemma valueAt_overflow (parts : list (option Z)) (j : nat) :
  List.length parts <= j -> valueAt parts j = 0%Z.
Proof. intros H. unfold valueAt, Utils.partAt. now rewrite nth_overflow. Qed.

(** What the loop of the comparator returns on numbers: 0 when the parts
    agree at all the indices it visits, else the difference at the first
    index where they differ. *)
Lemma compareFrom_spec (a b : list (option Z)) :
  numeric a -> numeric b ->
  forall n i,
    (Utils.compareFrom n i a b = Some 0%Z
     /\ forall j, i <= j < i + n -> valueAt a j = valueAt b j)
    \/ (exists k, i <= k < i + n
                  /\ (forall j, i <= j < k -> valueAt a j = valueAt b j)
                  /\ valueAt a k <> valueAt b k
                  /\ Utils.compareFrom n i a b = Some (valueAt b k - valueAt a k)%Z).
Proof.
  intros Ha Hb. induction n as [|n IH]; intros i.
  - left. split; [reflexivity | intros j Hj; lia].
  - cbn [Utils.compareFrom]. rewrite (partAt_numeric a i Ha), (partAt_numeric b i Hb).
    cbn [Utils.numNeq Utils.numSub].
    destruct (Z.eqb_spec (valueAt a i) (valueAt b i)) as [E|N]; cbn [negb].
    + destruct (IH (S i)) as [[Hz Hj]|(k & Hk & Hj & Hn & Hz)].
      * left. split; [exact Hz|]. intros j Hr.
        destruct (Nat.eq_dec j i) as [->|Hne]; [exact E | apply Hj; lia].
      * right. exists k. split; [lia|]. split; [|split; assumption].
        intros j Hr. destruct (Nat.eq_dec j i) as [->|Hne]; [exact E | apply Hj; lia].
    + right. exists i. split; [lia|]. split; [intros j Hr; lia|]. split; [exact N | reflexivity].
Qed.

Lemma hasVersion_numeric (d : DeviceInfo) :
  hasVersion d = true -> numeric (Utils.versionParts (Utils.versionOf d)).
Proof.
  unfold hasVersion, Utils.versionOf. destruct (osVersion d) as [v|]; [|discriminate].
  apply versionParts_numeric.
Qed.

Lemma compareVersions_spec (x w : DeviceInfo) :
  hasVersion x = true -> hasVersion w = true ->
  (Utils.isPositive (Utils.compareVersions x w) = true
   /\ versionLt (Utils.versionOf x) (Utils.versionOf w))
  \/ (Utils.isPositive (Utils.compareVersions x w) = false
      /\ versionLe (Utils.versionOf w) (Utils.versionOf x)).
Proof.
  intros Hx Hw. apply hasVersion_numeric in Hx, Hw.
  unfold Utils.compareVersions.
  set (a := Utils.versionParts (Utils.versionOf x)) in *.
  set (b := Utils.versionParts (Utils.versionOf w)) in *.
  destruct (compareFrom_spec a b Hx Hw (Nat.max (List.length a) (List.length b)) 0)
    as [[Hz Hj]|(k & Hk & Hj & Hn & Hz)]; rewrite Hz.
  - right. split; [reflexivity|]. right. intros j. unfold component. fold a b.
    destruct (Nat.lt_ge_cases j (Nat.max (List.length a) (List.length b))) as [L|G].
    + symmetry. apply Hj. lia.
    + rewrite !valueAt_overflow; [reflexivity | lia | lia].
  - cbn [Utils.isPositive]. destruct (Z.ltb_spec 0 (valueAt b k - valueAt a k)) as [P|P].
    + left. split; [reflexivity|]. exists k. unfold component. fold a b.
      split; [lia|]. intros j Hlt. apply Hj. lia.
    + right. split; [reflexivity|]. left. exists k. unfold component. fold a b.
      split; [lia|]. intros j Hlt. symmetry. apply Hj. lia.
Qed.

(** ** The sort and its first record *)

Lemma insertSorted_head (cmp : DeviceInfo -> DeviceInfo -> option Z)
      (x y : DeviceInfo) (l : list DeviceInfo) :
  exists rest,
    Utils.insertSorted cmp x (y :: l)
    = (if Utils.isPositive (cmp x y) then y else x) :: rest.
Proof.
  cbn [Utils.insertSorted]. destruct (Utils.isPositive (cmp x y)); eexists; reflexivity.
Qed.

(** The first record of a sorted group is the first of its records of
    highest version. *)
Lemma sort_first_highest (grp : list DeviceInfo) :
  grp <> [] ->
  Forall (fun d => hasVersion d = true) grp ->
  exists w rest, Utils.sort Utils.compareVersions grp = w :: rest /\ firstHighest grp w.
Proof.
  induction grp as [|x l IH]; intros Hne Hall; [contradiction|].
  inversion Hall as [|? ? Hx Hl]; subst.
  destruct l as [|y l'].
  - exists x, []. split; [reflexivity|]. exists [], []. repeat split; constructor.
  - destruct (IH ltac:(discriminate) Hl) as (w & rest & Hs & before & after & Hg & Hb & Ha).
    assert (Hw : hasVersion w = true).
    { rewrite Forall_forall in Hl. apply Hl. rewrite Hg. apply in_or_app. right. now left. }
    change (Utils.sort Utils.compareVersions (x :: y :: l'))
      with (Utils.insertSorted Utils.compareVersions x
              (Utils.sort Utils.compareVersions (y :: l'))).
    rewrite Hs.
    destruct (insertSorted_head Utils.compareVersions x w rest) as (rest' & Hr).
    rewrite Hr.
    destruct (compareVersions_spec x w Hx Hw) as [[Hp Hlt]|[Hp Hle]]; rewrite Hp.
    + exists w, rest'. split; [reflexivity|].
      exists (x :: before), after. rewrite Hg. repeat split; [|exact Ha].
      constructor; assumption.
    + exists x, rest'. split; [reflexivity|].
      exists [], (y :: l'). repeat split; [constructor|].
      rewrite Hg. apply Forall_app. split; [|constructor].
      * eapply Forall_impl; [|exact Hb]. cbn beta. intros b Hbw.
        eapply versionLe_trans; [apply versionLt_Le; exact Hbw | exact Hle].
      * exact Hle.
      * eapply Forall_impl; [|exact Ha]. cbn beta. intros b Hbw.
        eapply versionLe_trans; eassumption.
Qed.

Lemma firstHighest_in (grp : list DeviceInfo) (w : DeviceInfo) :
  firstHighest grp w -> In w grp.
Proof. intros (b & a & -> & _). apply in_or_app. right. now left. Qed.


(** ** The groups of the deduplicator *)

Lemma getOwn_none_iff (k : string) (o : Utils.groups) :
  Utils.getOwn k o = None <-> ~ In k (map fst o).
Proof.
  induction o as [|[k' g] o IH]; cbn [Utils.getOwn map fst In].
  - tauto.
  - destruct (String.eqb_spec k k') as [->|N].
    + split; [discriminate | intros H; exfalso; apply H; now left].
    + rewrite IH. split; [intros H [E|I]; [now apply N | now apply H] | tauto].
Qed.

Lemma keys_pushOwn (k : string) (e : DeviceInfo) (o : Utils.groups) :
  map fst (Utils.pushOwn k e o) = map fst o.
Proof.
  induction o as [|[k' g] o IH]; cbn [Utils.pushOwn map fst]; [reflexivity|].
  destruct (String.eqb k k'); cbn [map fst]; [reflexivity | now rewrite IH].
Qed.

Lemma getOwn_pushOwn (k : string) (e : DeviceInfo) (o : Utils.groups) (k' : string) :
  Utils.getOwn k' (Utils.pushOwn k e o)
  = if String.eqb k' k
    then option_map (fun g => (g ++ [e])%list) (Utils.getOwn k o)
    else Utils.getOwn k' o.
Proof.
  induction o as [|[k0 g] o IH]; cbn [Utils.pushOwn Utils.getOwn].
  - now destruct (String.eqb k' k).
  - destruct (String.eqb_spec k k0) as [->|N]; cbn [Utils.getOwn option_map].
    + now destruct (String.eqb k' k0).
    + rewrite IH. destruct (String.eqb_spec k' k0) as [->|N'].
      * apply String.eqb_neq in N. rewrite String.eqb_sym in N. now rewrite N.
      * reflexivity.
Qed.

Lemma getOwn_app_new (k : string) (g : list DeviceInfo) (o : Utils.groups) (k' : string) :
  Utils.getOwn k' (o ++ [(k, g)])%list
  = match Utils.getOwn k' o with
    | Some x => Some x
    | None => if String.eqb k' k then Some g else None
    end.
Proof.
  induction o as [|[k0 g0] o IH]; cbn [app Utils.getOwn]; [reflexivity|].
  now destruct (String.eqb k' k0).
Qed.

Lemma groupOf_cons (k : string) (d : DeviceInfo) (l : list DeviceInfo) :
  groupOf k (d :: l)
  = if String.eqb k (Utils.extractModelName d)
    then Utils.annotate d :: groupOf k l else groupOf k l.
Proof.
  unfold groupOf. cbn [filter]. rewrite (String.eqb_sym k).
  now destruct (String.eqb (Utils.extractModelName d) k).
Qed.

(** The first loop on names that are not inherited: it does not throw,
    and the group of each key is made of the records of that model, in
    input order. *)
Lemma groupByModel_spec (simulators : list DeviceInfo) : forall o : Utils.groups,
  Forall (fun d => Utils.inherited (Utils.extractModelName d) = false) simulators ->
  exists g,
    Utils.groupByModel o simulators = Ok g
    /\ (forall k, Utils.getOwn k g = mergeGroup (Utils.getOwn k o) (groupOf k simulators))
    /\ (NoDup (map fst o) -> NoDup (map fst g)).
Proof.
  induction simulators as [|d rest IH]; intros o Hall.
  - exists o. split; [reflexivity|]. split; [|tauto].
    intros k. unfold mergeGroup, groupOf. cbn.
    destruct (Utils.getOwn k o); [now rewrite app_nil_r | reflexivity].
  - inversion Hall as [|? ? Hd Hrest]; subst.
    cbn [Utils.groupByModel]. unfold Utils.addToGroup.
    destruct (Utils.getOwn (Utils.extractModelName d) o) as [g0|] eqn:E.
    + destruct (IH (Utils.pushOwn (Utils.extractModelName d) (Utils.annotate d) o) Hrest)
        as (g & Hg & Hk & Hn).
      exists g. split; [exact Hg|]. split.
      * intros k. rewrite Hk, getOwn_pushOwn, groupOf_cons, E.
        destruct (String.eqb_spec k (Utils.extractModelName d)) as [->|N].
        -- rewrite E. cbn [option_map mergeGroup]. now rewrite <- app_assoc.
        -- reflexivity.
      * now rewrite keys_pushOwn in Hn.
    + rewrite Hd.
      destruct (IH (o ++ [(Utils.extractModelName d, [Utils.annotate d])])%list Hrest)
        as (g & Hg & Hk & Hn).
      exists g. split; [exact Hg|]. split.
      * intros k. rewrite Hk, getOwn_app_new, groupOf_cons.
        destruct (String.eqb_spec k (Utils.extractModelName d)) as [->|N].
        -- rewrite E. reflexivity.
        -- now destruct (Utils.getOwn k o).
      * intros Ho. apply Hn. rewrite map_app. cbn [map fst].
        apply NoDup_app; [exact Ho | repeat constructor; intros [] |].
        intros k Hin [<-|[]]. now apply getOwn_none_iff in E.
Qed.

Lemma groupOf_nonempty (k : string) (simulators : list DeviceInfo) :
  groupOf k simulators <> [] <-> In k (map Utils.extractModelName simulators).
Proof.
  induction simulators as [|d l IH]; [cbn; tauto|].
  rewrite groupOf_cons. cbn [map In].
  destruct (String.eqb_spec k (Utils.extractModelName d)) as [->|N].
  - split; [now left | discriminate].
  - rewrite IH. split; [now right | intros [E|I]; [now contradiction N | exact I]].
Qed.

Lemma groupOf_model (k : string) (simulators : list DeviceInfo) (x : DeviceInfo) :
  In x (groupOf k simulators) -> modelName x = Some k.
Proof.
  unfold groupOf. intros H. apply in_map_iff in H as (d & <- & Hd).
  apply filter_In in Hd as [_ Hd]. apply String.eqb_eq in Hd. now rewrite <- Hd.
Qed.

Lemma groupOf_hasVersion (k : string) (simulators : list DeviceInfo) :
  Forall (fun d => versionOk (Utils.extractOsVersion d) = true) simulators ->
  Forall (fun x => hasVersion x = true) (groupOf k simulators).
Proof.
  intros H. unfold groupOf. apply Forall_forall. intros x Hx.
  apply in_map_iff in Hx as (d & <- & Hd). apply filter_In in Hd as [Hd _].
  rewrite Forall_forall in H. exact (H d Hd).
Qed.

(** ** The keys of the groups *)

Lemma insertKey_perm (k : string) (l : list string) :
  Permutation (Utils.insertKey k l) (k :: l).
Proof.
  induction l as [|k' l IH]; cbn [Utils.insertKey]; [reflexivity|].
  destruct (JS.decimalValue k <=? JS.decimalValue k')%Z; [reflexivity|].
  rewrite IH. apply perm_swap.
Qed.

Lemma sortKeys_perm (l : list string) : Permutation (Utils.sortKeys l) l.
Proof.
  induction l as [|k l IH]; [reflexivity|].
  change (Utils.sortKeys (k :: l)) with (Utils.insertKey k (Utils.sortKeys l)).
  now rewrite insertKey_perm, IH.
Qed.

Lemma filter_split_perm (p : string -> bool) (l : list string) :
  Permutation (filter p l ++ filter (fun k => negb (p k)) l)%list l.
Proof.
  induction l as [|k l IH]; [reflexivity|].
  cbn [filter]. destruct (p k); cbn [negb app].
  - now constructor.
  - rewrite <- Permutation_middle. now constructor.
Qed.

Lemma objectKeys_perm (o : Utils.groups) : Permutation (Utils.objectKeys o) (map fst o).
Proof.
  unfold Utils.objectKeys. rewrite sortKeys_perm. apply filter_split_perm.
Qed.

(** ** One record for each group *)

Lemma flat_map_singletons (f : string -> list DeviceInfo) (ks : list string) :
  (forall k, In k ks -> exists w, f k = [w]) ->
  List.length (flat_map f ks) = List.length ks.
Proof.
  induction ks as [|k ks IH]; intros H; [reflexivity|].
  cbn [flat_map]. rewrite length_app, IH by (intros k' Hk'; apply H; now right).
  destruct (H k (or_introl eq_refl)) as (w & ->). reflexivity.
Qed.

Lemma emitted_none (f : string -> list DeviceInfo) (ks : list string) (m : string) :
  (forall k, In k ks -> k <> m -> Forall (fun x => hasModel m x = false) (f k)) ->
  ~ In m ks ->
  filter (hasModel m) (flat_map f ks) = [].
Proof.
  induction ks as [|k ks IH]; intros H Hm; [reflexivity|].
  cbn [flat_map]. rewrite filter_app, IH.
  - rewrite app_nil_r.
    assert (N : k <> m) by (intros ->; apply Hm; now left).
    specialize (H k (or_introl eq_refl) N).
    induction H as [|x l Hx _ IHl]; [reflexivity|]. cbn [filter]. now rewrite Hx.
  - intros k' Hk'. apply H. now right.
  - intros I. apply Hm. now right.
Qed.

Lemma emitted_once (f : string -> list DeviceInfo) (ks : list string)
      (m : string) (w : DeviceInfo) :
  NoDup ks -> In m ks -> f m = [w] -> hasModel m w = true ->
  (forall k, In k ks -> k <> m -> Forall (fun x => hasModel m x = false) (f k)) ->
  filter (hasModel m) (flat_map f ks) = [w].
Proof.
  induction ks as [|k ks IH]; intros Hnd Hin Hf Hw H; [contradiction|].
  inversion Hnd as [|? ? Hk Hks]; subst.
  cbn [flat_map]. rewrite filter_app.
  destruct (string_dec k m) as [->|N].
  - rewrite Hf. cbn [filter]. rewrite Hw.
    rewrite (emitted_none f ks m); [reflexivity | | exact Hk].
    intros k' Hk'. apply H. now right.
  - destruct Hin as [E|Hin]; [contradiction|].
    rewrite (IH Hks Hin Hf Hw) by (intros k' Hk'; apply H; now right).
    specialize (H k (or_introl eq_refl) N).
    replace (filter (hasModel m) (f k)) with (@nil DeviceInfo); [reflexivity|].
    induction H as [|x l Hx _ IHl]; [reflexivity|]. cbn [filter]. now rewrite Hx.
Qed.

(** The deduplicator on a list whose model names are not inherited
    property names and whose versions are numeric: it returns, with one
    record for each model, the first of the records of highest version of
    that model. *)
Lemma dedup_spec (simulators : list DeviceInfo) :
  Forall (fun d => Utils.inherited (Utils.extractModelName d) = false) simulators ->
  Forall (fun d => versionOk (Utils.extractOsVersion d) = true) simulators ->
  exists out,
    Utils.filterSimulatorsByHighestOSVersion simulators = Ok out
    /\ List.length out
       = List.length (nodup string_dec (map Utils.extractModelName simulators))
    /\ forall m, In m (map Utils.extractModelName simulators) ->
         exists w, filter (hasModel m) out = [w]
                   /\ firstHighest (groupOf m simulators) w.
Proof.
  intros Hinh Hver.
  destruct (groupByModel_spec simulators [] Hinh) as (g & Hg & Hk & Hn).
  specialize (Hn (NoDup_nil _)).
  assert (Hkey : forall k, In k (map fst g)
                           <-> In k (map Utils.extractModelName simulators)).
  { intros k. rewrite <- groupOf_nonempty. split.
    - intros Hin E. apply (proj1 (getOwn_none_iff k g)); [|exact Hin].
      rewrite Hk, E. reflexivity.
    - intros Hne. destruct (in_dec string_dec k (map fst g)) as [I|I]; [exact I|].
      apply getOwn_none_iff in I. rewrite Hk in I. cbn [Utils.getOwn mergeGroup] in I.
      destruct (groupOf k simulators); [now contradiction Hne | discriminate]. }
  assert (Hgrp : forall k, In k (map Utils.extractModelName simulators) ->
                   exists w, Utils.highestOfGroup g k = [w]
                             /\ firstHighest (groupOf k simulators) w).
  { intros k Hin. apply groupOf_nonempty in Hin.
    destruct (sort_first_highest (groupOf k simulators) Hin
                (groupOf_hasVersion k simulators Hver)) as (w & rest & Hs & Hf).
    exists w. split; [|exact Hf].
    unfold Utils.highestOfGroup. rewrite Hk. cbn [Utils.getOwn mergeGroup].
    destruct (groupOf k simulators) eqn:E; [now contradiction Hin|].
    now rewrite Hs. }
  pose proof (objectKeys_perm g) as Hperm.
  exists (Utils.highestVersionSimulators g).
  unfold Utils.filterSimulatorsByHighestOSVersion. rewrite Hg.
  split; [reflexivity|]. split.
  - unfold Utils.highestVersionSimulators. rewrite flat_map_singletons.
    + rewrite (Permutation_length Hperm). apply Permutation_length.
      apply NoDup_Permutation; [exact Hn | apply NoDup_nodup |].
      intros k. rewrite Hkey. symmetry. apply nodup_In.
    + intros k Hin. apply (Permutation_in _ Hperm) in Hin. apply Hkey in Hin.
      destruct (Hgrp k Hin) as (w & Hw & _). now exists w.
  - intros m Hm. destruct (Hgrp m Hm) as (w & Hw & Hf). exists w. split; [|exact Hf].
    unfold Utils.highestVersionSimulators. apply emitted_once.
    + apply (Permutation_NoDup (Permutation_sym Hperm) Hn).
    + apply (Permutation_in _ (Permutation_sym Hperm)). now apply Hkey.
    + exact Hw.
    + unfold hasModel. rewrite (groupOf_model m simulators w (firstHighest_in _ _ Hf)).
      apply String.eqb_refl.
    + intros k Hin N. apply (Permutation_in _ Hperm) in Hin. apply Hkey in Hin.
      destruct (Hgrp k Hin) as (w' & Hw' & Hf'). rewrite Hw'. constructor; [|constructor].
      unfold hasModel. rewrite (groupOf_model k simulators w' (firstHighest_in _ _ Hf')).
      now apply String.eqb_neq.
Qed.


(** C9. When records of one model have the same version, or more generally
    whatever the versions of the records of a model are, the deduplicator
    returns exactly one record of that model: the one met first, in input
    order, among its records of highest version.  In particular the first
    record of the group is returned when none of the others is higher.  The
    list is one on which the grouping succeeds. *)
Theorem ties_keep_first_encountered (simulators : list DeviceInfo) (m : string) :
  Forall (fun d => Utils.inherited (Utils.extractModelName d) = false) simulators ->
  Forall (fun d => versionOk (Utils.extractOsVersion d) = true) simulators ->
  In m (map Utils.extractModelName simulators) ->
  exists out w,
    Utils.filterSimulatorsByHighestOSVersion simulators = Ok out
    /\ filter (hasModel m) out = [w]
    /\ firstHighest (groupOf m simulators) w
    /\ (forall first rest,
          groupOf m simulators = first :: rest ->
          Forall (fun x => versionLe (Utils.versionOf x) (Utils.versionOf first)) rest ->
          w = first).
Proof.
  intros Hinh Hver Hin. destruct (dedup_spec simulators Hinh Hver) as (out & Ho & _ & Hm).
  destruct (Hm m Hin) as (w & Hw & Hf). exists out, w.
  split; [exact Ho|]. split; [exact Hw|]. split; [exact Hf|].
  intros first rest Hg Hrest. destruct Hf as (before & after & Hd & Hb & _).
  rewrite Hg in Hd. destruct before as [|b before]; cbn [app] in Hd.
  - now inversion Hd.
  - exfalso. inversion Hd; subst b rest. inversion Hb as [|? ? Hlt _]; subst.
    rewrite Forall_forall in Hrest.
    apply (versionLt_not_Le _ _ Hlt). apply Hrest.
    apply in_or_app. right. now left.
Qed.

(** Two records of the model [iPhone 15] share the highest version 18.4;
    the first of them, [SIM-B], is returned. *)
Lemma ties_keep_first_encountered_witness :
  let a := IOS.device "iPhone 15" "SIM-A" simulators None (Some "17.0") in
  let b := IOS.device "iPhone 15" "SIM-B" simulators None (Some "18.4") in
  let c := IOS.device "iPhone 15" "SIM-C" simulators None (Some "18.4") in
  let d := IOS.device "iPhone 14" "SIM-D" simulators None (Some "16.2") in
  let l := [a; d; b; c] in
  Forall (fun d => Utils.inherited (Utils.extractModelName d) = false) l
  /\ Forall (fun d => versionOk (Utils.extractOsVersion d) = true) l
  /\ In "iPhone 15" (map Utils.extractModelName l)
  /\ Utils.filterSimulatorsByHighestOSVersion l = Ok [Utils.annotate b; Utils.annotate d]
  /\ exists out w,
       Utils.filterSimulatorsByHighestOSVersion l = Ok out
       /\ filter (hasModel "iPhone 15") out = [w]
       /\ firstHighest (groupOf "iPhone 15" l) w.
Proof.
  intros a b c d l.
  assert (H1 : Forall (fun d => Utils.inherited (Utils.extractModelName d) = false) l)
    by (repeat constructor).
  assert (H2 : Forall (fun d => versionOk (Utils.extractOsVersion d) = true) l)
    by (repeat constructor).
  assert (H3 : In "iPhone 15" (map Utils.extractModelName l)) by (left; reflexivity).
  split; [exact H1|]. split; [exact H2|]. split; [exact H3|]. split; [reflexivity|].
  destruct (ties_keep_first_encountered l "iPhone 15" H1 H2 H3) as (out & w & Ho & Hw & Hf & _).
  exists out, w. split; [exact Ho|]. split; [exact Hw | exact Hf].
Defined.

(** ** The deduplicator on arbitrary versions *)

Lemma insertSorted_in (cmp : DeviceInfo -> DeviceInfo -> option Z)
      (x y : DeviceInfo) (l : list DeviceInfo) :
  In y (Utils.insertSorted cmp x l) <-> y = x \/ In y l.
Proof.
  induction l as [|z l IH]; cbn [Utils.insertSorted In].
  - intuition.
  - destruct (Utils.isPositive (cmp x z)); cbn [In]; [rewrite IH|]; intuition.
Qed.

Lemma sort_in (cmp : DeviceInfo -> DeviceInfo -> option Z) (l : list DeviceInfo)
      (y : DeviceInfo) :
  In y (Utils.sort cmp l) <-> In y l.
Proof.
  induction l as [|x l IH]; [reflexivity|].
  change (Utils.sort cmp (x :: l)) with (Utils.insertSorted cmp x (Utils.sort cmp l)).
  rewrite insertSorted_in, IH. cbn [In]. intuition.
Qed.

Lemma sort_head_in (cmp : DeviceInfo -> DeviceInfo -> option Z) (grp : list DeviceInfo) :
  grp <> [] -> exists w rest, Utils.sort cmp grp = w :: rest /\ In w grp.
Proof.
  intros Hne. destruct (Utils.sort cmp grp) as [|w rest] eqn:E.
  - destruct grp as [|x l]; [contradiction|].
    assert (H : In x (Utils.sort cmp (x :: l))) by (apply sort_in; now left).
    rewrite E in H. contradiction.
  - exists w, rest. split; [reflexivity|]. apply (sort_in cmp). rewrite E. now left.
Qed.

(** The groups that the first loop builds, and what the second loop is
    run on. *)
Lemma dedup_groups (simulators : list DeviceInfo) :
  Forall (fun d => Utils.inherited (Utils.extractModelName d) = false) simulators ->
  exists g,
    Utils.groupByModel [] simulators = Ok g
    /\ Utils.filterSimulatorsByHighestOSVersion simulators
       = Ok (Utils.highestVersionSimulators g)
    /\ NoDup (map fst g)
    /\ (forall k, In k (map fst g) <-> In k (map Utils.extractModelName simulators))
    /\ (forall k, In k (map Utils.extractModelName simulators) ->
          exists w, Utils.highestOfGroup g k = [w] /\ In w (groupOf k simulators)).
Proof.
  intros Hinh.
  destruct (groupByModel_spec simulators [] Hinh) as (g & Hg & Hk & Hn).
  specialize (Hn (NoDup_nil _)).
  exists g. split; [exact Hg|].
  split; [unfold Utils.filterSimulatorsByHighestOSVersion; now rewrite Hg|].
  split; [exact Hn|]. split.
  - intros k. rewrite <- groupOf_nonempty. split.
    + intros Hin E. apply (proj1 (getOwn_none_iff k g)); [|exact Hin].
      rewrite Hk, E. reflexivity.
    + intros Hne. destruct (in_dec string_dec k (map fst g)) as [I|I]; [exact I|].
      apply getOwn_none_iff in I. rewrite Hk in I. cbn [Utils.getOwn mergeGroup] in I.
      destruct (groupOf k simulators); [now contradiction Hne | discriminate].
  - intros k Hin. apply groupOf_nonempty in Hin.
    destruct (sort_head_in Utils.compareVersions (groupOf k simulators) Hin)
      as (w & rest & Hs & Hw).
    exists w. split; [|exact Hw].
    unfold Utils.highestOfGroup. rewrite Hk. cbn [Utils.getOwn mergeGroup].
    destruct (groupOf k simulators) eqn:E; [now contradiction Hin|].
    now rewrite Hs.
Qed.

(** X1. Whatever the version texts are (numeric or not), on a list without
    inherited model names the deduplicator returns one record for each
    distinct model name, and each returned record is an input record of that
    model with its version and model name attached: no record is made up,
    no model is lost. *)
Theorem dedup_returns_input_records (simulators : list DeviceInfo) :
  Forall (fun d => Utils.inherited (Utils.extractModelName d) = false) simulators ->
  exists out,
    Utils.filterSimulatorsByHighestOSVersion simulators = Ok out
    /\ List.length out
       = List.length (nodup string_dec (map Utils.extractModelName simulators))
    /\ (forall w, In w out -> exists d, In d simulators /\ w = Utils.annotate d)
    /\ (forall m, In m (map Utils.extractModelName simulators) ->
          exists w, filter (hasModel m) out = [w] /\ In w (groupOf m simulators)).
Proof.
  intros Hinh.
  destruct (dedup_groups simulators Hinh) as (g & _ & Hf & Hn & Hkey & Hgrp).
  pose proof (objectKeys_perm g) as Hperm.
  exists (Utils.highestVersionSimulators g). split; [exact Hf|]. split; [|split].
  - unfold Utils.highestVersionSimulators. rewrite flat_map_singletons.
    + rewrite (Permutation_length Hperm). apply Permutation_length.
      apply NoDup_Permutation; [exact Hn | apply NoDup_nodup |].
      intros k. rewrite Hkey. symmetry. apply nodup_In.
    + intros k Hin. apply (Permutation_in _ Hperm) in Hin. apply Hkey in Hin.
      destruct (Hgrp k Hin) as (w & Hw & _). now exists w.
  - intros w Hw. unfold Utils.highestVersionSimulators in Hw.
    apply in_flat_map in Hw as (k & Hk & Hw).
    apply (Permutation_in _ Hperm) in Hk. apply Hkey in Hk.
    destruct (Hgrp k Hk) as (w' & Hw' & Hin). rewrite Hw' in Hw.
    destruct Hw as [<-|[]]. unfold groupOf in Hin.
    apply in_map_iff in Hin as (d & <- & Hd). apply filter_In in Hd as [Hd _].
    now exists d.
  - intros m Hm. destruct (Hgrp m Hm) as (w & Hw & Hin). exists w. split; [|exact Hin].
    unfold Utils.highestVersionSimulators. apply emitted_once.
    + apply (Permutation_NoDup (Permutation_sym Hperm) Hn).
    + apply (Permutation_in _ (Permutation_sym Hperm)). now apply Hkey.
    + exact Hw.
    + unfold hasModel. rewrite (groupOf_model m simulators w Hin). apply String.eqb_refl.
    + intros k Hin' N. apply (Permutation_in _ Hperm) in Hin'. apply Hkey in Hin'.
      destruct (Hgrp k Hin') as (w' & Hw' & Hf'). rewrite Hw'. constructor; [|constructor].
      unfold hasModel. rewrite (groupOf_model k simulators w' Hf').
      now apply String.eqb_neq.
Qed.

(** Versions that are no numbers: the comparator gives [NaN] and the first
    record of each model is kept. *)
Lemma dedup_returns_input_records_witness :
  let a := IOS.device "iPhone 15" "SIM-A" simulators None (Some "beta") in
  let b := IOS.device "iPhone 15 (18.4)" "SIM-B" simulators None None in
  let c := IOS.device "iPhone 14 Simulator" "SIM-C" simulators None (Some "16.x") in
  let l := [a; c; b] in
  Forall (fun d => Utils.inherited (Utils.extractModelName d) = false) l
  /\ Utils.filterSimulatorsByHighestOSVersion l = Ok [Utils.annotate a; Utils.annotate c]
  /\ exists out,
       Utils.filterSimulatorsByHighestOSVersion l = Ok out
       /\ List.length out = List.length (nodup string_dec (map Utils.extractModelName l)).
Proof.
  intros a b c l.
  assert (H : Forall (fun d => Utils.inherited (Utils.extractModelName d) = false) l)
    by (repeat constructor).
  split; [exact H|]. split; [reflexivity|].
  destruct (dedup_returns_input_records l H) as (out & Ho & Hl & _).
  exists out. split; [exact Ho | exact Hl].
Defined.

(** ** When the deduplicator throws *)

Lemma groupByModel_throws (simulators : list DeviceInfo) : forall o : Utils.groups,
  (forall k, In k (map fst o) -> Utils.inherited k = false) ->
  existsb (fun d => Utils.inherited (Utils.extractModelName d)) simulators = true ->
  Utils.groupByModel o simulators = Throw "modelGroups[modelName].push is not a function".
Proof.
  induction simulators as [|d rest IH]; intros o Ho Hex; [discriminate|].
  cbn [existsb] in Hex. cbn [Utils.groupByModel]. unfold Utils.addToGroup.
  destruct (Utils.getOwn (Utils.extractModelName d) o) as [g0|] eqn:E.
  - assert (Hd : Utils.inherited (Utils.extractModelName d) = false).
    { apply Ho. destruct (in_dec string_dec (Utils.extractModelName d) (map fst o)) as [I|I];
        [exact I|]. apply getOwn_none_iff in I. rewrite I in E. discriminate. }
    rewrite Hd in Hex. cbn [orb] in Hex. apply IH; [|exact Hex].
    now rewrite keys_pushOwn.
  - destruct (Utils.inherited (Utils.extractModelName d)) eqn:Hd; [reflexivity|].
    cbn [orb] in Hex. apply IH; [|exact Hex].
    intros k Hk. rewrite map_app in Hk. apply in_app_or in Hk as [Hk|[<-|[]]];
      [now apply Ho | exact Hd].
Qed.

Lemma dedup_cases (simulators : list DeviceInfo) :
  match Utils.filterSimulatorsByHighestOSVersion simulators with
  | Throw e =>
      existsb (fun d => Utils.inherited (Utils.extractModelName d)) simulators = true
      /\ e = "modelGroups[modelName].push is not a function"
  | Ok _ =>
      existsb (fun d => Utils.inherited (Utils.extractModelName d)) simulators = false
  end.
Proof.
  destruct (existsb (fun d => Utils.inherited (Utils.extractModelName d)) simulators) eqn:E.
  - unfold Utils.filterSimulatorsByHighestOSVersion.
    rewrite (groupByModel_throws simulators []); [now split | intros k [] | exact E].
  - assert (H : Forall (fun d => Utils.inherited (Utils.extractModelName d) = false)
                       simulators).
    { apply Forall_forall. intros d Hd.
      destruct (Utils.inherited (Utils.extractModelName d)) eqn:Hi; [|reflexivity].
      assert (X : existsb (fun d => Utils.inherited (Utils.extractModelName d)) simulators
                  = true) by (apply existsb_exists; now exists d).
      rewrite X in E. discriminate. }
    destruct (dedup_groups simulators H) as (g & _ & Hf & _). now rewrite Hf.
Qed.

(** X3. The deduplicator throws exactly when one of the records has a model
    name that is the name of an inherited property; on every other list it
    returns. *)
Theorem dedup_throws_on_inherited_names_only (simulators : list DeviceInfo) :
  match Utils.filterSimulatorsByHighestOSVersion simulators with
  | Throw e =>
      existsb (fun d => Utils.inherited (Utils.extractModelName d)) simulators = true
      /\ e = "modelGroups[modelName].push is not a function"
  | Ok _ =>
      existsb (fun d => Utils.inherited (Utils.extractModelName d)) simulators = false
  end.
Proof. exact (dedup_cases simulators). Qed.

Lemma dedup_ok_not_inherited (simulators out : list DeviceInfo) :
  Utils.filterSimulatorsByHighestOSVersion simulators = Ok out ->
  Forall (fun d => Utils.inherited (Utils.extractModelName d) = false) simulators.
Proof.
  intros H. pose proof (dedup_cases simulators) as T.
  rewrite H in T. apply Forall_forall. intros d Hd.
  destruct (Utils.inherited (Utils.extractModelName d)) eqn:Hi; [|reflexivity].
  assert (X : existsb (fun d => Utils.inherited (Utils.extractModelName d)) simulators
              = true) by (apply existsb_exists; now exists d).
  rewrite X in T. discriminate.
Qed.

(** ** The deduplicator applied twice *)

Lemma firstGroup_truthy (r : Regex.re) (s g : string) :
  Utils.firstGroup r s = Some g -> JS.truthy g = true.
Proof.
  unfold Utils.firstGroup. destruct (Regex.exec r s) as [m|]; [|discriminate].
  destruct (Regex.group 1 m) as [t|]; [|discriminate].
  destruct (JS.truthy t) eqn:E; [|discriminate]. intros H. now inversion H; subst.
Qed.

Lemma extractOsVersion_truthy (d : DeviceInfo) :
  JS.truthy (Utils.extractOsVersion d) = true.
Proof.
  assert (F : JS.truthy
                (let osVersion1 :=
                   match Utils.firstGroup Utils.osInIdRe (id d) with
                   | Some g => g
                   | None => "0"
                   end in
                 if String.eqb osVersion1 "0" then
                   match Utils.firstGroup Utils.parenVersionRe (name d) with
                   | Some g => g
                   | None => osVersion1
                   end
                 else osVersion1) = true).
  { cbv zeta.
    destruct (Utils.firstGroup Utils.osInIdRe (id d)) as [g|] eqn:E1.
    - destruct (String.eqb g "0") eqn:E0.
      + destruct (Utils.firstGroup Utils.parenVersionRe (name d)) as [h|] eqn:E2.
        * exact (firstGroup_truthy _ _ _ E2).
        * exact (firstGroup_truthy _ _ _ E1).
      + exact (firstGroup_truthy _ _ _ E1).
    - cbn [String.eqb Ascii.eqb Bool.eqb].
      destruct (Utils.firstGroup Utils.parenVersionRe (name d)) as [h|] eqn:E2.
      + exact (firstGroup_truthy _ _ _ E2).
      + reflexivity. }
  unfold Utils.extractOsVersion. destruct (osVersion d) as [v|]; [|exact F].
  destruct (JS.truthy v) eqn:E; [exact E | exact F].
Qed.

(** A record that has been through [annotate] is not changed by it. *)
Lemma annotate_idem (d : DeviceInfo) :
  Utils.annotate (Utils.annotate d) = Utils.annotate d.
Proof.
  unfold Utils.annotate at 1. cbn [id name category platform index].
  assert (E : Utils.extractOsVersion (Utils.annotate d) = Utils.extractOsVersion d).
  { unfold Utils.extractOsVersion at 1. cbn [osVersion Utils.annotate].
    now rewrite extractOsVersion_truthy. }
  rewrite E. reflexivity.
Qed.

(** The first loop on records of distinct, new, not inherited models: one
    group of one record is created for each, in the order of the list. *)
Lemma groupByModel_fresh (l : list DeviceInfo) : forall o : Utils.groups,
  NoDup (map Utils.extractModelName l) ->
  (forall d, In d l ->
             Utils.inherited (Utils.extractModelName d) = false
             /\ ~ In (Utils.extractModelName d) (map fst o)) ->
  Utils.groupByModel o l
  = Ok (o ++ map (fun d => (Utils.extractModelName d, [Utils.annotate d])) l)%list.
Proof.
  induction l as [|d l IH]; intros o Hnd H.
  - cbn. now rewrite app_nil_r.
  - inversion Hnd as [|? ? Hd Hl]; subst.
    destruct (H d (or_introl eq_refl)) as [Hi Ho].
    cbn [Utils.groupByModel]. unfold Utils.addToGroup.
    apply getOwn_none_iff in Ho. rewrite Ho, Hi.
    rewrite IH; [cbn [map]; now rewrite <- app_assoc | exact Hl |].
    intros d' Hd'. destruct (H d' (or_intror Hd')) as [Hi' Ho']. split; [exact Hi'|].
    rewrite map_app. cbn [map fst]. intros I. apply in_app_or in I as [I|[E|[]]].
    + now apply Ho'.
    + apply Hd. rewrite E. now apply in_map.
Qed.

Lemma insertKey_ascending (k : string) (l : list string) :
  ascending l -> ascending (Utils.insertKey k l).
Proof.
  induction l as [|k' l IH]; intros H; [cbn; tauto|].
  cbn [Utils.insertKey]. destruct (Z.leb_spec (JS.decimalValue k) (JS.decimalValue k')) as [L|G].
  - cbn [ascending]. split; [exact L | exact H].
  - cbn [ascending] in H. destruct H as [H1 H2]. specialize (IH H2).
    cbn [ascending]. split; [|exact IH].
    destruct l as [|k'' l]; cbn [Utils.insertKey].
    + lia.
    + destruct (Z.leb_spec (JS.decimalValue k) (JS.decimalValue k'')); [lia | exact H1].
Qed.

Lemma sortKeys_ascending (l : list string) : ascending (Utils.sortKeys l).
Proof.
  induction l as [|k l IH]; [cbn; tauto|].
  change (Utils.sortKeys (k :: l)) with (Utils.insertKey k (Utils.sortKeys l)).
  now apply insertKey_ascending.
Qed.

Lemma sortKeys_of_ascending (l : list string) : ascending l -> Utils.sortKeys l = l.
Proof.
  induction l as [|k l IH]; intros H; [reflexivity|].
  cbn [ascending] in H. destruct H as [H1 H2].
  change (Utils.sortKeys (k :: l)) with (Utils.insertKey k (Utils.sortKeys l)).
  rewrite (IH H2). destruct l as [|k' l]; [reflexivity|].
  cbn [Utils.insertKey]. apply Z.leb_le in H1. now rewrite H1.
Qed.

Lemma filter_all (A : Type) (p : A -> bool) (l : list A) :
  Forall (fun x => p x = true) l -> filter p l = l.
Proof. induction 1 as [|x l H _ IH]; cbn [filter]; [reflexivity | now rewrite H, IH]. Qed.

Lemma filter_none (A : Type) (p : A -> bool) (l : list A) :
  Forall (fun x => p x = false) l -> filter p l = [].
Proof. induction 1 as [|x l H _ IH]; cbn [filter]; [reflexivity | now rewrite H]. Qed.

Lemma filter_Forall (A : Type) (p : A -> bool) (l : list A) :
  Forall (fun x => p x = true) (filter p l).
Proof. apply Forall_forall. intros x H. now apply filter_In in H. Qed.

(** Keys taken in the order of [Object.keys] and created again in that
    order come out of [Object.keys] in the same order. *)
Lemma keyOrder_idem (ks : list string) : keyOrder (keyOrder ks) = keyOrder ks.
Proof.
  unfold keyOrder at 1.
  set (A := filter Utils.isArrayIndex ks).
  set (B := filter (fun k => negb (Utils.isArrayIndex k)) ks).
  assert (HA : Forall (fun k => Utils.isArrayIndex k = true) (Utils.sortKeys A)).
  { apply Forall_forall. intros k Hk.
    apply (Permutation_in _ (sortKeys_perm A)) in Hk.
    now apply filter_In in Hk. }
  assert (HB : Forall (fun k => negb (Utils.isArrayIndex k) = true) B)
    by apply filter_Forall.
  unfold keyOrder. fold A B. rewrite !filter_app.
  rewrite (filter_all _ _ _ HA), (filter_all _ _ _ HB).
  rewrite (filter_none _ Utils.isArrayIndex B), app_nil_r.
  - rewrite (filter_none _ (fun k => negb (Utils.isArrayIndex k)) (Utils.sortKeys A)).
    + cbn [app]. now rewrite (sortKeys_of_ascending _ (sortKeys_ascending A)).
    + eapply Forall_impl; [|exact HA]. cbn beta. intros k Hk. now rewrite Hk.
  - eapply Forall_impl; [|exact HB]. cbn beta. intros k Hk. now apply negb_true_iff in Hk.
Qed.

Lemma getOwn_single_groups (l : list DeviceInfo) (d : DeviceInfo) :
  NoDup (map Utils.extractModelName l) -> In d l ->
  Utils.getOwn (Utils.extractModelName d)
               (map (fun d => (Utils.extractModelName d, [Utils.annotate d])) l)
  = Some [Utils.annotate d].
Proof.
  induction l as [|x l IH]; intros Hnd Hin; [contradiction|].
  inversion Hnd as [|? ? Hx Hl]; subst. cbn [map Utils.getOwn].
  destruct Hin as [->|Hin].
  - now rewrite String.eqb_refl.
  - destruct (String.eqb_spec (Utils.extractModelName d) (Utils.extractModelName x)) as [E|N].
    + exfalso. apply Hx. rewrite <- E. now apply in_map.
    + now apply IH.
Qed.

(** The records the second loop emits, key by key. *)
Lemma emitted_records (g : Utils.groups) (simulators : list DeviceInfo) (ks : list string) :
  (forall k, In k ks ->
             exists w, Utils.highestOfGroup g k = [w] /\ In w (groupOf k simulators)) ->
  map Utils.extractModelName (flat_map (Utils.highestOfGroup g) ks) = ks
  /\ Forall (fun w => Utils.annotate w = w) (flat_map (Utils.highestOfGroup g) ks).
Proof.
  induction ks as [|k ks IH]; intros H; [split; [reflexivity | constructor]|].
  destruct (H k (or_introl eq_refl)) as (w & Hw & Hin).
  destruct IH as [IH1 IH2]; [intros k' Hk'; apply H; now right|].
  cbn [flat_map]. rewrite Hw. cbn [app map].
  unfold groupOf in Hin. apply in_map_iff in Hin as (d & <- & Hd).
  apply filter_In in Hd as [_ Hd]. apply String.eqb_eq in Hd.
  split.
  - f_equal; [exact Hd | exact IH1].
  - constructor; [apply annotate_idem | exact IH2].
Qed.

(** Applying the deduplicator to its own result changes nothing. *)
Lemma dedup_idem (simulators out : list DeviceInfo) :
  Utils.filterSimulatorsByHighestOSVersion simulators = Ok out ->
  Utils.filterSimulatorsByHighestOSVersion out = Ok out.
Proof.
  intros H. pose proof (dedup_ok_not_inherited _ _ H) as Hinh.
  destruct (dedup_groups simulators Hinh) as (g & _ & Hf & Hn & Hkey & Hgrp).
  rewrite Hf in H. injection H as <-.
  set (out := Utils.highestVersionSimulators g).
  pose proof (objectKeys_perm g) as Hperm.
  assert (Hks : forall k, In k (Utils.objectKeys g) ->
                  exists w, Utils.highestOfGroup g k = [w] /\ In w (groupOf k simulators)).
  { intros k Hk. apply Hgrp, Hkey. exact (Permutation_in _ Hperm Hk). }
  destruct (emitted_records g simulators (Utils.objectKeys g) Hks) as [Hm Ha].
  change (flat_map (Utils.highestOfGroup g) (Utils.objectKeys g)) with out in Hm, Ha.
  assert (Hnd : NoDup (map Utils.extractModelName out)).
  { rewrite Hm. exact (Permutation_NoDup (Permutation_sym Hperm) Hn). }
  assert (Hni : forall d, In d out ->
                  Utils.inherited (Utils.extractModelName d) = false
                  /\ ~ In (Utils.extractModelName d) (map fst (@nil (string * list DeviceInfo)))).
  { intros d Hd. split; [|intros []].
    assert (Hk : In (Utils.extractModelName d) (map Utils.extractModelName simulators)).
    { apply Hkey. apply (Permutation_in _ Hperm). rewrite <- Hm. now apply in_map. }
    apply in_map_iff in Hk as (d' & E & Hd'). rewrite <- E.
    rewrite Forall_forall in Hinh. now apply Hinh. }
  unfold Utils.filterSimulatorsByHighestOSVersion.
  rewrite (groupByModel_fresh out [] Hnd Hni). cbn [app].
  set (g2 := map (fun d => (Utils.extractModelName d, [Utils.annotate d])) out).
  unfold Utils.highestVersionSimulators.
  assert (Hk2 : Utils.objectKeys g2 = map Utils.extractModelName out).
  { change (Utils.objectKeys g2) with (keyOrder (map fst g2)).
    unfold g2. rewrite map_map. cbn [fst].
    change (map (fun x => Utils.extractModelName x) out)
      with (map Utils.extractModelName out).
    rewrite !Hm. change (Utils.objectKeys g) with (keyOrder (map fst g)).
    apply keyOrder_idem. }
  rewrite Hk2. f_equal.
  assert (G : forall l, incl l out ->
                flat_map (Utils.highestOfGroup g2) (map Utils.extractModelName l) = l).
  { induction l as [|d l IH]; intros Hl; [reflexivity|].
    cbn [map flat_map]. rewrite IH by (intros x Hx; apply Hl; now right).
    unfold Utils.highestOfGroup. unfold g2.
    rewrite (getOwn_single_groups out d Hnd (Hl d (or_introl eq_refl))).
    rewrite Forall_forall in Ha. rewrite (Ha d (Hl d (or_introl eq_refl))).
    reflexivity. }
  apply G. apply incl_refl.
Qed.

(** X2. The deduplicator is idempotent: applied to a list it has returned,
    it returns the same list, in the same order. *)
Theorem dedup_idempotent (simulators out : list DeviceInfo) :
  Utils.filterSimulatorsByHighestOSVersion simulators = Ok out ->
  Utils.filterSimulatorsByHighestOSVersion out = Ok out.
Proof. exact (dedup_idem simulators out). Qed.

Lemma dedup_idempotent_witness :
  let a := IOS.device "iPhone 15" "SIM-A" simulators None (Some "17.0") in
  let b := IOS.device "iPhone 15 (18.4)" "SIM-B" simulators None None in
  let c := IOS.device "12" "SIM-C" simulators None (Some "1") in
  let out := [Utils.annotate c; Utils.annotate b] in
  Utils.filterSimulatorsByHighestOSVersion [a; b; c] = Ok out
  /\ Utils.filterSimulatorsByHighestOSVersion out = Ok out.
Proof.
  intros a b c out.
  assert (H : Utils.filterSimulatorsByHighestOSVersion [a; b; c] = Ok out) by reflexivity.
  split; [exact H | exact (dedup_idempotent [a; b; c] out H)].
Defined.

(** ** What Parser B keeps in its categories *)

Lemma parseLine_category (line : string) (c : Category) (d : DeviceInfo) :
  IOS.parseLine line c = Some d -> category d = Some c.
Proof.
  unfold IOS.parseLine.
  repeat match goal with
         | |- context [match ?x with _ => _ end] => destruct x
         end;
    intros H; try discriminate H; injection H as <-; reflexivity.
Qed.

Lemma addDevice_wellCategorized (c : Category) (d : DeviceInfo) (acc : CategorizedDevices) :
  category d = Some c -> wellCategorized acc -> wellCategorized (IOS.addDevice c d acc).
Proof.
  intros Hc (Hp & Ho & Hs). unfold IOS.addDevice. destruct c.
  - destruct (JS.includes (JS.toLowerCase (name d)) "macbook") eqn:Em; cbn [negb andb];
      [now repeat split|].
    destruct (JS.includes (JS.toLowerCase (name d)) "ipad") eqn:Ei; cbn [negb];
      [now repeat split|].
    repeat split; cbn [physical offline sims]; try assumption.
    apply Forall_app. split; [exact Hp|]. now repeat constructor.
  - repeat split; cbn [physical offline sims]; try assumption.
    apply Forall_app. split; [exact Ho|]. now repeat constructor.
  - destruct (JS.includes (JS.toLowerCase (name d)) "iphone") eqn:E; [|now repeat split].
    repeat split; cbn [physical offline sims]; try assumption.
    apply Forall_app. split; [exact Hs|]. now repeat constructor.
Qed.

Lemma scanLine_wellCategorized (st : option Category * CategorizedDevices) (raw : string) :
  wellCategorized (snd st) -> wellCategorized (snd (IOS.scanLine st raw)).
Proof.
  destruct st as [cur acc]. cbn [snd]. intros H. unfold IOS.scanLine.
  destruct (JS.startsWith (JS.trim raw) "==").
  - destruct (String.eqb (JS.trim raw) "== Devices =="); [exact H|].
    destruct (String.eqb (JS.trim raw) "== Devices Offline =="); [exact H|].
    destruct (JS.includes (JS.trim raw) "Simulator"); exact H.
  - destruct (negb (JS.truthy (JS.trim raw))); [exact H|].
    destruct cur as [c|]; [|exact H].
    destruct (IOS.parseLine (JS.trim raw) c) as [d|] eqn:E; [|exact H].
    cbn [snd]. apply addDevice_wellCategorized; [|exact H].
    exact (parseLine_category _ _ _ E).
Qed.

Lemma scan_wellCategorized (rawDeviceList : string) :
  wellCategorized (IOS.scan rawDeviceList).
Proof.
  unfold IOS.scan.
  assert (G : forall lines st, wellCategorized (snd st) ->
                wellCategorized (snd (fold_left IOS.scanLine lines st))).
  { induction lines as [|l lines IH]; intros st H; [exact H|].
    cbn [fold_left]. apply IH. now apply scanLine_wellCategorized. }
  apply G. repeat split; constructor.
Qed.

(** What comes out of the deduplicator: annotated input records, of
    distinct models. *)
Lemma dedup_out_facts (simulators out : list DeviceInfo) :
  Utils.filterSimulatorsByHighestOSVersion simulators = Ok out ->
  (forall w, In w out -> exists d, In d simulators /\ w = Utils.annotate d)
  /\ NoDup (map Utils.extractModelName out).
Proof.
  intros H. pose proof (dedup_ok_not_inherited _ _ H) as Hinh.
  destruct (dedup_groups simulators Hinh) as (g & _ & Hf & Hn & Hkey & Hgrp).
  rewrite Hf in H. injection H as <-.
  pose proof (objectKeys_perm g) as Hperm.
  assert (Hks : forall k, In k (Utils.objectKeys g) ->
                  exists w, Utils.highestOfGroup g k = [w] /\ In w (groupOf k simulators)).
  { intros k Hk. apply Hgrp, Hkey. exact (Permutation_in _ Hperm Hk). }
  split.
  - intros w Hw. unfold Utils.highestVersionSimulators in Hw.
    apply in_flat_map in Hw as (k & Hk & Hw).
    destruct (Hks k Hk) as (w' & Hw' & Hin). rewrite Hw' in Hw.
    destruct Hw as [<-|[]]. unfold groupOf in Hin.
    apply in_map_iff in Hin as (d & <- & Hd). apply filter_In in Hd as [Hd _].
    now exists d.
  - destruct (emitted_records g simulators (Utils.objectKeys g) Hks) as [Hm _].
    unfold Utils.highestVersionSimulators. rewrite Hm.
    exact (Permutation_NoDup (Permutation_sym Hperm) Hn).
Qed.

Lemma listDevices_wellCategorized (command : result string) :
  wellCategorized (snd (IOS.listDevices command))
  /\ NoDup (map Utils.extractModelName (sims (snd (IOS.listDevices command)))).
Proof.
  assert (E : wellCategorized noDevices /\ NoDup (map Utils.extractModelName (sims noDevices))).
  { split; [repeat split; constructor | constructor]. }
  destruct command as [raw|e]; [|exact E].
  cbn [IOS.listDevices]. pose proof (scan_wellCategorized raw) as (Hp & Ho & Hs).
  destruct (sims (IOS.scan raw)) as [|s0 ss] eqn:Es.
  - cbn [snd]. split; [|rewrite Es; constructor].
    repeat split; [exact Hp | exact Ho | now rewrite Es].
  - destruct (Utils.filterSimulatorsByHighestOSVersion (s0 :: ss)) as [out|e] eqn:Ef;
      [|exact E].
    destruct (dedup_out_facts _ _ Ef) as [Hin Hnd].
    cbn [snd sims]. split; [|exact Hnd].
    repeat split; cbn [physical offline sims]; [exact Hp | exact Ho |].
    apply Forall_forall. intros w Hw. destruct (Hin w Hw) as (d & Hd & ->).
    rewrite Forall_forall in Hs. exact (Hs d Hd).
Qed.

(** X4. Whatever the listing command gives, the result of the iOS
    [listDevices] is well categorized: each record carries the category of
    the list it is in, no physical device has "macbook" or "ipad" in its
    name, every simulator has "iphone" in its name; and no two simulators
    have the same model name. *)
Theorem ios_listing_is_well_categorized (command : result string) :
  wellCategorized (snd (IOS.listDevices command))
  /\ NoDup (map Utils.extractModelName (sims (snd (IOS.listDevices command)))).
Proof. exact (listDevices_wellCategorized command). Qed.

(** ** Lines before the first section marker *)

Lemma split_append (c : ascii) (a b : string) :
  JS.split c (a ++ String c b) = (JS.split c a ++ JS.split c b)%list.
Proof.
  induction a as [|x a IH]; cbn [append JS.split].
  - now rewrite Ascii.eqb_refl.
  - rewrite IH. destruct (Ascii.eqb x c); [reflexivity|].
    destruct (JS.split c a) as [|h t] eqn:E; [now destruct (split_nonempty c a)|].
    reflexivity.
Qed.

Lemma scanLine_noMarker (raw : string) :
  noMarker raw = true -> IOS.scanLine (None, noDevices) raw = (None, noDevices).
Proof.
  unfold noMarker. intros H. apply negb_true_iff in H. unfold IOS.scanLine.
  rewrite H. now destruct (negb (JS.truthy (JS.trim raw))).
Qed.

Lemma fold_noMarker (lines : list string) :
  forallb noMarker lines = true ->
  fold_left IOS.scanLine lines (None, noDevices) = (None, noDevices).
Proof.
  induction lines as [|l lines IH]; intros H; [reflexivity|].
  cbn [forallb] in H. apply andb_true_iff in H as [Hl Hls].
  cbn [fold_left]. rewrite (scanLine_noMarker l Hl). now apply IH.
Qed.

(** X5. Parser B ignores everything that comes before the first section
    marker: lines in front of it, device lines included, give no record, and
    an output without any marker line gives no device at all. *)
Theorem ios_lines_before_first_marker_are_ignored (before rest : string) :
  forallb noMarker (JS.split "010" before) = true ->
  IOS.listDevices (Ok before) = ([], noDevices)
  /\ IOS.listDevices (Ok (before ++ newline ++ rest)) = IOS.listDevices (Ok rest).
Proof.
  intros H.
  assert (E1 : IOS.scan before = noDevices).
  { unfold IOS.scan. now rewrite (fold_noMarker _ H). }
  assert (E2 : IOS.scan (before ++ newline ++ rest) = IOS.scan rest).
  { unfold IOS.scan. change (before ++ newline ++ rest) with (before ++ String "010" rest).
    now rewrite split_append, fold_left_app, (fold_noMarker _ H). }
  split.
  - cbn [IOS.listDevices]. now rewrite E1.
  - cbn [IOS.listDevices]. now rewrite E2.
Qed.

Lemma ios_lines_before_first_marker_are_ignored_witness :
  let before := "iPhone 15 (17.0) (SIM-0)" ++ newline ++ "Starting..." in
  let rest := "== Simulators ==" ++ newline ++ "iPhone 15 (18.4) (SIM-2)" in
  forallb noMarker (JS.split "010" before) = true
  /\ IOS.parseLine "iPhone 15 (17.0) (SIM-0)" simulators <> None
  /\ IOS.listDevices (Ok before) = ([], noDevices)
  /\ IOS.listDevices (Ok (before ++ newline ++ rest)) = IOS.listDevices (Ok rest).
Proof.
  intros before rest. split; [reflexivity|]. split; [discriminate|].
  exact (ios_lines_before_first_marker_are_ignored before rest eq_refl).
Defined.

(** ** The number in front of a device selects it *)

Lemma countFrom_in (l : list DeviceInfo) : forall k n x,
  In (n, x) (countFrom k l) ->
  (k <= n < k + Z.of_nat (List.length l))%Z
  /\ nth_error l (Z.to_nat (n - k)) = Some x.
Proof.
  induction l as [|d l IH]; intros k n x H; [contradiction|].
  cbn [countFrom In] in H. cbn [List.length]. destruct H as [E|H].
  - injection E as <- <-. split; [lia|]. now rewrite Z.sub_diag.
  - destruct (IH _ _ _ H) as [Hr Hn]. split; [lia|].
    replace (Z.to_nat (n - k)) with (S (Z.to_nat (n - (k + 1)))) by lia. exact Hn.
Qed.

Lemma find_countFrom (l : list DeviceInfo) : forall k n x,
  In (n, x) (countFrom k l) ->
  IOS.findIndex (map indexedDevice (countFrom k l)) (Some n) = Some (IOS.withIndex x n).
Proof.
  unfold IOS.findIndex.
  induction l as [|d l IH]; intros k n x H; [contradiction|].
  cbn [countFrom map find]. unfold IOS.hasIndex at 1.
  cbn [indexedDevice fst snd IOS.withIndex index].
  cbn [countFrom In] in H. destruct H as [E|H].
  - injection E as <- <-. now rewrite Z.eqb_refl.
  - destruct (countFrom_in _ _ _ _ H) as [Hr _].
    destruct (Z.eqb_spec k n); [lia|]. now apply IH.
Qed.

Lemma shownPairs_app (t1 t2 : list event) :
  shownPairs (t1 ++ t2) = (shownPairs t1 ++ shownPairs t2)%list.
Proof. apply flat_map_app. Qed.

Lemma shownPairs_selectable (l : list (Z * DeviceInfo)) :
  shownPairs (map selectableLine l) = l.
Proof. induction l as [|[n d] l IH]; cbn; [reflexivity | now f_equal]. Qed.

Lemma shownPairs_selectable' (l : list (Z * DeviceInfo)) :
  shownPairs (map (fun '(n, d) => Log (Selectable (Some n) d)) l) = l.
Proof. induction l as [|[n d] l IH]; cbn; [reflexivity | now f_equal]. Qed.

Lemma shownPairs_selectableName (l : list (Z * DeviceInfo)) :
  shownPairs (map (fun '(n, d) => Log (SelectableName n d)) l) = l.
Proof. induction l as [|[n d] l IH]; cbn; [reflexivity | now f_equal]. Qed.

Lemma shownPairs_unavailable (l : list DeviceInfo) :
  shownPairs (map (fun d => Log (Unavailable d)) l) = [].
Proof. induction l as [|d l IH]; cbn; [reflexivity | exact IH]. Qed.

Lemma shownPairs_cons_log (m : message) (t : list event) :
  shownPairs (Log m :: t) = (shownPair (Log m) ++ shownPairs t)%list.
Proof. reflexivity. Qed.

(** The numbered lines of an iOS rendering pass are the selectable devices
    numbered from 1. *)
Lemma renderedLines_pairs (c : CategorizedDevices) :
  shownPairs (renderedLines c) = countFrom 1 (selectable c).
Proof.
  unfold selectable. rewrite countFrom_app.
  unfold renderedLines. destruct c as [phys off sm]; cbn [physical offline sims].
  rewrite shownPairs_cons_log. cbn [shownPair app]. rewrite !shownPairs_app.
  replace (shownPairs match off with
                      | [] => []
                      | _ :: _ =>
                          Log (Heading "== Devices Offline ==")
                            :: map (fun d => Log (Unavailable d)) off
                      end) with (@nil (Z * DeviceInfo)).
  2:{ destruct off; [reflexivity|].
      rewrite shownPairs_cons_log. cbn [shownPair app].
      symmetry. apply shownPairs_unavailable. }
  cbn [app]. f_equal.
  - destruct phys; [reflexivity | apply shownPairs_selectable].
  - destruct sm; [reflexivity|].
    rewrite shownPairs_cons_log. cbn [shownPair app]. apply shownPairs_selectable.
Qed.

(** The numbered lines of the Android list are the listed devices numbered
    from 1. *)
Lemma display_pairs (adb emulator : result string) :
  shownPairs (Android.display (snd (Android.listDevices adb emulator)))
  = countFrom 1 (snd (Android.listDevices adb emulator)).
Proof.
  rewrite <- (android_devices_by_category adb emulator) at 2.
  set (devices := snd (Android.listDevices adb emulator)).
  rewrite countFrom_app. unfold Android.display.
  set (phys := filter (hasCategory physicalDevices) devices).
  set (emus := filter (hasCategory simulators) devices).
  rewrite shownPairs_cons_log. cbn [shownPair app]. rewrite shownPairs_app. f_equal.
  - destruct phys; [reflexivity|].
    now rewrite shownPairs_selectable', numbered_countFrom.
  - destruct emus; [reflexivity|].
    rewrite shownPairs_cons_log. cbn [shownPair app].
    rewrite shownPairs_selectableName, numbered_countFrom. f_equal. lia.
Qed.

Lemma ios_number_selects
        (c : CategorizedDevices) (n : Z) (x : DeviceInfo) (text : string)
        (rest : list answer) :
  In (n, x) (shownPairs (IOS.printed (IOS.renderDevices c))) ->
  JS.parseInt10 (JS.trim text) = Some n ->
  snd (IOS.selectDevice c (Line text :: rest)) = Returned (Some (IOS.withIndex x n))
  /\ questions (fst (IOS.selectDevice c (Line text :: rest))) = 1.
Proof.
  intros Hin Hp. pose proof (rendered_devices_no_default_index c) as H0.
  unfold IOS.selectDevice. rewrite renderDevices_eq in *.
  cbn [IOS.printed IOS.allDevices] in *. rewrite renderedLines_pairs in Hin.
  pose proof (find_countFrom _ _ _ _ Hin) as Hf. rewrite <- Hp in Hf.
  destruct (countFrom 1 (selectable c)) as [|p ps] eqn:E; [contradiction|].
  rewrite <- E in *. clear E.
  destruct (map indexedDevice (countFrom 1 (selectable c))) as [|a all'] eqn:Ea.
  - discriminate Hf.
  - rewrite <- Ea in *. unfold IOS.promptForDeviceSelection.
    rewrite (promptLoop_valid _ _ 0 text rest _ H0 ltac:(unfold IOS.maxAttempts; lia) Hf).
    cbn [fst snd]. split; [reflexivity|].
    rewrite questions_app, renderedLines_questions. reflexivity.
Qed.

(** X7. iOS selector: a device is selected by the number printed in front
    of it.  If the list shows the number [n] in front of the device [x] and
    the answer is read by [parseInt] as [n], the selector returns [x], with
    the index [n], on that first answer. *)
Theorem ios_printed_number_selects_device
        (c : CategorizedDevices) (n : Z) (x : DeviceInfo) (text : string)
        (rest : list answer) :
  In (n, x) (shownPairs (IOS.printed (IOS.renderDevices c))) ->
  JS.parseInt10 (JS.trim text) = Some n ->
  snd (IOS.selectDevice c (Line text :: rest)) = Returned (Some (IOS.withIndex x n))
  /\ questions (fst (IOS.selectDevice c (Line text :: rest))) = 1.
Proof. exact (ios_number_selects c n x text rest). Qed.

Lemma ios_printed_number_selects_device_witness :
  let c := mkCategorized
             [IOS.device "My Phone" "0000-1" physicalDevices None (Some "17.0")]
             [IOS.device "Old Phone" "0000-9" offlineDevices None None]
             [IOS.device "iPad Air" "SIM-1" simulators None (Some "18.4");
              IOS.device "iPhone 15" "SIM-2" simulators None (Some "18.4")] in
  let x := IOS.device "iPhone 15" "SIM-2" simulators None (Some "18.4") in
  In (2%Z, x) (shownPairs (IOS.printed (IOS.renderDevices c)))
  /\ JS.parseInt10 (JS.trim " 2") = Some 2%Z
  /\ snd (IOS.selectDevice c [Line " 2"]) = Returned (Some (IOS.withIndex x 2)).
Proof.
  intros c x.
  assert (H : In (2%Z, x) (shownPairs (IOS.printed (IOS.renderDevices c))))
    by (right; left; reflexivity).
  split; [exact H|]. split; [reflexivity|].
  exact (proj1 (ios_printed_number_selects_device c 2 x " 2" [] H eq_refl)).
Defined.

Lemma android_number_selects
        (adb emulator : result string) (n : Z) (x : DeviceInfo) (text : string)
        (rest : list answer) :
  In (n, x) (shownPairs (Android.display (snd (Android.listDevices adb emulator)))) ->
  JS.parseInt text = Some n ->
  JS.toLowerCase text <> "e" ->
  snd (Android.selectDevice adb emulator (Line text :: rest)) = Returned (Some (id x)).
Proof.
  intros Hin Hp He. rewrite display_pairs in Hin.
  destruct (countFrom_in _ _ _ _ Hin) as [Hr Hn].
  unfold Android.selectDevice.
  destruct (Android.listDevices adb emulator) as [t devices]. cbn [snd] in *.
  destruct devices as [|d0 ds] eqn:Ed; [contradiction|]. rewrite <- Ed in *.
  unfold Android.resolve. apply String.eqb_neq in He. rewrite He, Hp.
  replace ((n - 1 <? 0)%Z || (Z.of_nat (List.length devices) <=? n - 1)%Z) with false.
  - rewrite Hn. reflexivity.
  - symmetry. apply orb_false_iff. split; [apply Z.ltb_ge | apply Z.leb_gt]; lia.
Qed.

(** X8. Android selector: a device is selected by the number printed in
    front of it.  If the list shows the number [n] in front of the device
    [x] and the answer, which is not the letter e, is read by [parseInt] as
    [n], the selector returns the id of [x]. *)
Theorem android_printed_number_selects_device
        (adb emulator : result string) (n : Z) (x : DeviceInfo) (text : string)
        (rest : list answer) :
  In (n, x) (shownPairs (Android.display (snd (Android.listDevices adb emulator)))) ->
  JS.parseInt text = Some n ->
  JS.toLowerCase text <> "e" ->
  snd (Android.selectDevice adb emulator (Line text :: rest)) = Returned (Some (id x)).
Proof. exact (android_number_selects adb emulator n x text rest). Qed.

Lemma android_printed_number_selects_device_witness :
  let adb := Ok ("List of devices attached" ++ newline ++ "AB12 device model:Pixel_7") in
  let emu := Ok ("Pixel_8_API_34" ++ newline) in
  let x := Android.device "emulator-Pixel_8_API_34" "Pixel_8_API_34" simulators in
  In (2%Z, x) (shownPairs (Android.display (snd (Android.listDevices adb emu))))
  /\ JS.parseInt "2" = Some 2%Z /\ JS.toLowerCase "2" <> "e"
  /\ snd (Android.selectDevice adb emu [Line "2"]) = Returned (Some "emulator-Pixel_8_API_34").
Proof.
  intros adb emu x.
  assert (H : In (2%Z, x) (shownPairs (Android.display (snd (Android.listDevices adb emu)))))
    by (right; left; reflexivity).
  assert (He : JS.toLowerCase "2" <> "e") by discriminate.
  split; [exact H|]. split; [reflexivity|]. split; [exact He|].
  exact (android_printed_number_selects_device adb emu 2 x "2" [] H eq_refl He).
Defined.

(** ** What the selectors return *)

Lemma promptLoop_outcome (all : list DeviceInfo) (answers : list answer) :
  forall (sel : option Z) (attempts : nat),
    attempts < IOS.maxAttempts ->
    match snd (IOS.promptLoop all sel attempts answers) with
    | Returned (Some d) => In d all
    | Returned None => exists e, In (Fault e) answers
    | Thrown _ => False
    | Awaiting => True
    end.
Proof.
  assert (F : forall sel attempts answers,
             IOS.found all sel = true ->
             match snd (IOS.promptLoop all sel attempts answers) with
             | Returned (Some d) => In d all
             | Returned None => exists e, In (Fault e) answers
             | Thrown _ => False
             | Awaiting => True
             end).
  { intros sel attempts ans Ef. unfold IOS.found in Ef.
    destruct (IOS.findIndex all sel) as [d|] eqn:Ed; [|discriminate].
    rewrite (promptLoop_found all sel attempts ans d Ed). cbn [snd].
    now destruct (findIndex_index _ _ _ Ed). }
  assert (W : forall text rest (o : outcome (option DeviceInfo)),
             match o with
             | Returned (Some d) => In d all
             | Returned None => exists e, In (Fault e) rest
             | Thrown _ => False
             | Awaiting => True
             end ->
             match o with
             | Returned (Some d) => In d all
             | Returned None => exists e, In (Fault e) (Line text :: rest)
             | Thrown _ => False
             | Awaiting => True
             end).
  { intros text rest [[d|]| |] H; try exact H.
    destruct H as (e & He). exists e. now right. }
  induction answers as [|a rest IH]; intros sel attempts Ha.
  - destruct (IOS.found all sel) eqn:Ef; [now apply F|].
    now rewrite promptLoop_waiting.
  - destruct (IOS.found all sel) eqn:Ef; [now apply F|].
    destruct a as [text|e].
    + destruct (invalidLine all text) eqn:Ei.
      * rewrite (promptLoop_invalid all sel attempts text rest Ef Ha Ei). cbn [snd].
        apply W, IH. unfold nextAttempts, IOS.maxAttempts in *.
        destruct (3 <=? S attempts) eqn:E3; [lia|]. apply Nat.leb_gt in E3. exact E3.
      * unfold invalidLine in Ei. apply negb_false_iff in Ei. unfold IOS.found in Ei.
        destruct (IOS.findIndex all (JS.parseInt10 (JS.trim text))) as [d|] eqn:Ed;
          [|discriminate].
        rewrite (promptLoop_valid all sel attempts text rest d Ef Ha Ed). cbn [snd].
        now destruct (findIndex_index _ _ _ Ed).
    + cbn [IOS.promptLoop]. rewrite Ef. apply Nat.ltb_lt in Ha. rewrite Ha.
      cbn [negb andb snd]. exists e. now left.
Qed.

(** X6. The iOS selector returns a device only from the numbered list it
    has printed, that is a physical device or an iPhone simulator with the
    index shown, never an offline device; it returns [null] only when
    nothing is selectable or the question fails; it never throws. *)
Theorem ios_selector_returns_a_listed_device
        (c : CategorizedDevices) (answers : list answer) :
  match snd (IOS.selectDevice c answers) with
  | Returned (Some d) =>
      exists n x, In (n, x) (shownPairs (IOS.printed (IOS.renderDevices c)))
                  /\ In x (physical c ++ filter IOS.isIphone (sims c))
                  /\ d = IOS.withIndex x n
  | Returned None => selectable c = [] \/ exists e, In (Fault e) answers
  | Thrown _ => False
  | Awaiting => True
  end.
Proof.
  pose proof (rendered_devices_no_default_index c) as H0.
  unfold IOS.selectDevice. rewrite renderDevices_eq in *.
  cbn [IOS.printed IOS.allDevices] in *. rewrite renderedLines_pairs.
  destruct (map indexedDevice (countFrom 1 (selectable c))) as [|a all'] eqn:Ea.
  - cbn [snd]. left. destruct (selectable c); [reflexivity | discriminate Ea].
  - rewrite <- Ea in *. unfold IOS.promptForDeviceSelection.
    assert (P := promptLoop_outcome (map indexedDevice (countFrom 1 (selectable c)))
                                    answers (Some (-1)%Z) 0
                                    ltac:(unfold IOS.maxAttempts; lia)).
    destruct (IOS.promptLoop (map indexedDevice (countFrom 1 (selectable c)))
                             (Some (-1)%Z) 0 answers) as [t o].
    cbn [snd] in *. destruct o as [[d|]| |]; try exact P.
    + apply in_map_iff in P as ([n x] & <- & Hin). exists n, x.
      split; [exact Hin|]. split; [|reflexivity].
      destruct (countFrom_in _ _ _ _ Hin) as [_ Hn].
      exact (nth_error_In _ _ Hn).
    + now right.
Qed.

Lemma android_selectDevice_result
      (adb emulator : result string) (answers : list answer) :
  match snd (Android.selectDevice adb emulator answers) with
  | Returned None => snd (Android.listDevices adb emulator) = []
  | Returned (Some r) =>
      r = "emulator"
      \/ exists d, In d (snd (Android.listDevices adb emulator)) /\ r = id d
  | Thrown e => exists rest, answers = Fault e :: rest
  | Awaiting => answers = []
  end.
Proof.
  unfold Android.selectDevice.
  destruct (Android.listDevices adb emulator) as [t devices]. cbn [snd].
  destruct devices as [|d0 ds] eqn:Ed; [reflexivity|]. rewrite <- Ed.
  destruct answers as [|[text|e] rest]; cbn [snd]; [reflexivity | | now exists rest].
  unfold Android.resolve.
  destruct (String.eqb (JS.toLowerCase text) "e"); [now left|].
  destruct (JS.parseInt text) as [n|]; [|now left].
  destruct ((n - 1 <? 0)%Z || (Z.of_nat (List.length devices) <=? n - 1)%Z); [now left|].
  destruct (nth_error devices (Z.to_nat (n - 1))) as [d|] eqn:En; [|now left].
  cbn [snd]. right. exists d. split; [exact (nth_error_In _ _ En) | reflexivity].
Qed.

(** X9. The Android selector returns [null] only when no device is listed;
    when it is given an answer it returns the word "emulator" or the id of
    a listed device, nothing else. *)
Theorem android_selector_returns_a_listed_id
        (adb emulator : result string) (answers : list answer) :
  match snd (Android.selectDevice adb emulator answers) with
  | Returned None => snd (Android.listDevices adb emulator) = []
  | Returned (Some r) =>
      r = "emulator"
      \/ exists d, In d (snd (Android.listDevices adb emulator)) /\ r = id d
  | Thrown e => exists rest, answers = Fault e :: rest
  | Awaiting => answers = []
  end.
Proof. exact (android_selectDevice_result adb emulator answers). Qed.

(** ** Trimming *)

Lemma trimEnd_idem (s : string) : JS.trimEnd (JS.trimEnd s) = JS.trimEnd s.
Proof.
  induction s as [|c s IH]; [reflexivity|].
  cbn [JS.trimEnd]. destruct (JS.trimEnd s) as [|d t] eqn:E.
  - destruct (JS.isWhiteSpace c) eqn:Ec; [reflexivity|].
    cbn [JS.trimEnd]. now rewrite Ec.
  - change (JS.trimEnd (String c (String d t)))
      with (match JS.trimEnd (String d t) with
            | EmptyString => if JS.isWhiteSpace c then EmptyString else String c EmptyString
            | t' => String c t'
            end).
    rewrite IH. reflexivity.
Qed.

Lemma trimStart_trimEnd (s : string) :
  JS.trimStart (JS.trimEnd s) = JS.trimEnd (JS.trimStart s).
Proof.
  induction s as [|c s IH]; [reflexivity|].
  cbn [JS.trimEnd JS.trimStart].
  destruct (JS.isWhiteSpace c) eqn:Ec.
  - rewrite <- IH. destruct (JS.trimEnd s) as [|d t]; [reflexivity|].
    cbn [JS.trimStart]. now rewrite Ec.
  - cbn [JS.trimEnd].
    destruct (JS.trimEnd s) as [|d t]; cbn [JS.trimStart]; now rewrite Ec.
Qed.

Lemma trim_trimEnd (s : string) : JS.trim (JS.trimEnd s) = JS.trim s.
Proof. unfold JS.trim. now rewrite trimStart_trimEnd, trimEnd_idem. Qed.

(** A text is what [trimEnd] leaves of it, followed by white space. *)
Lemma trimEnd_split (s : string) :
  exists t, s = JS.trimEnd s ++ t /\ allOf Regex.ws t = true.
Proof.
  induction s as [|c s (t & Hs & Ht)]; [now exists ""|].
  cbn [JS.trimEnd]. destruct (JS.trimEnd s) as [|d u] eqn:E.
  - cbn [append] in Hs. subst t. destruct (JS.isWhiteSpace c) eqn:Ec.
    + exists (String c s). split; [reflexivity|]. rewrite allOf_cons.
      unfold Regex.ws at 1. now rewrite Ec.
    + now exists s.
  - exists t. split; [|exact Ht]. cbn [append]. now rewrite Hs at 1.
Qed.

(** No non-empty end of a text that [trimEnd] leaves alone is white space
    only. *)
Lemma trimEnd_fixed_suffix (u1 u2 : string) :
  JS.trimEnd (u1 ++ u2) = u1 ++ u2 -> u2 <> "" -> JS.trimStart u2 <> "".
Proof.
  induction u1 as [|c u1 IH]; cbn [append]; intros H Hn.
  - induction u2 as [|c u2 IH]; [contradiction|].
    cbn [JS.trimStart]. destruct (JS.isWhiteSpace c) eqn:Ec; [|discriminate].
    cbn [JS.trimEnd] in H. destruct (JS.trimEnd u2) as [|d t] eqn:E.
    + rewrite Ec in H. discriminate H.
    + injection H as H. apply IH; [exact H|]. rewrite <- H. discriminate.
  - cbn [JS.trimEnd] in H. destruct (JS.trimEnd (u1 ++ u2)) as [|d t] eqn:E.
    + destruct (JS.isWhiteSpace c); [discriminate H|].
      injection H as H. destruct u1; [|discriminate H]. cbn [append] in H. now subst.
    + injection H as H. now apply IH.
Qed.

Lemma trimStart_append (u v : string) :
  JS.trimStart u <> "" -> JS.trimStart (u ++ v) = JS.trimStart u ++ v.
Proof.
  induction u as [|c u IH]; cbn [JS.trimStart append]; [congruence|].
  destruct (JS.isWhiteSpace c); [exact IH | reflexivity].
Qed.

Lemma hasChar_append (c : ascii) (u v : string) :
  hasChar c (u ++ v) = hasChar c u || hasChar c v.
Proof.
  unfold hasChar. induction u as [|a u IH]; cbn [append list_ascii_of_string existsb];
    [reflexivity | now rewrite IH, orb_assoc].
Qed.

Lemma hasChar_trimStart (c : ascii) (u : string) :
  hasChar c u = false -> hasChar c (JS.trimStart u) = false.
Proof.
  induction u as [|a u IH]; [reflexivity|]. intros H. cbn [JS.trimStart].
  destruct (JS.isWhiteSpace a); [|exact H].
  apply IH. unfold hasChar in *. cbn [list_ascii_of_string existsb] in H.
  now apply orb_false_iff in H.
Qed.

Lemma hasChar_startsWith (c : ascii) (u v : string) :
  hasChar c u = false -> u <> "" ->
  JS.startsWith (u ++ v) (String c "") = false.
Proof.
  destruct u as [|a u]; [congruence|]. intros H _.
  unfold hasChar in H. cbn [list_ascii_of_string existsb] in H.
  apply orb_false_iff in H as [H _]. unfold JS.startsWith. cbn [append String.prefix].
  destruct (ascii_dec c a) as [->|Hn]; [now rewrite Ascii.eqb_refl in H | reflexivity].
Qed.

(** ** The matcher on a lazy run *)

(** A lazy run stops at the first offset where what follows is accepted. *)
Lemma star_lazy_first (p : ascii -> bool) (u : string) :
  forall (v : string) (pos : nat) (cs : Regex.caps) (k : Regex.cont) x,
    allOf p u = true ->
    (forall u1 u2, u = u1 ++ u2 -> u2 <> "" ->
                   k (pos + String.length u1) (u2 ++ v) cs = None) ->
    k (pos + String.length u) v cs = Some x ->
    Regex.star p false pos (u ++ v) cs k = Some x.
Proof.
  induction u as [|a u IH]; intros v pos cs k x Hall Hfail Hk.
  - cbn [append String.length] in *. rewrite Nat.add_0_r in Hk.
    destruct v as [|c v]; cbn [Regex.star]; [exact Hk|].
    rewrite Hk. now destruct (p c).
  - rewrite allOf_cons in Hall. apply andb_true_iff in Hall as [Ha Hall].
    cbn [append Regex.star]. rewrite Ha.
    pose proof (Hfail "" (String a u) eq_refl ltac:(discriminate)) as H0.
    cbn [String.length append] in H0. rewrite Nat.add_0_r in H0. rewrite H0.
    apply IH; [exact Hall | |].
    + intros u1 u2 -> Hn.
      specialize (Hfail (String a u1) u2 eq_refl Hn).
      cbn [String.length] in Hfail. now rewrite Nat.add_succ_r in Hfail.
    + cbn [String.length] in Hk. now rewrite Nat.add_succ_r in Hk.
Qed.

(** A run of a class fails when what follows fails at every offset of
    the run. *)
Lemma star_none (p : ascii -> bool) (greedy : bool) (k : Regex.cont)
      (ok : string -> bool) (s : string) :
  (forall pos s' cs, ok s' = false -> k pos s' cs = None) ->
  (forall a s', p a = true -> ok (String a s') = false) ->
  forall pos cs,
    ok (snd (JS.span p s)) = false ->
    Regex.star p greedy pos s cs k = None.
Proof.
  intros Hk Hp. induction s as [|a s IH]; intros pos cs H.
  - cbn [Regex.star]. apply Hk. exact H.
  - cbn [Regex.star]. cbn [JS.span] in H. destruct (p a) eqn:Ea.
    + assert (Hs : ok (snd (JS.span p s)) = false)
        by (destruct (JS.span p s); exact H).
      rewrite (IH (S pos) cs Hs), (Hk pos (String a s) cs (Hp a s Ea)).
      now destruct greedy.
    + apply Hk. exact H.
Qed.

Lemma span_ws_trimStart (s : string) : snd (JS.span Regex.ws s) = JS.trimStart s.
Proof.
  induction s as [|a s IH]; [reflexivity|]. cbn [JS.span JS.trimStart].
  unfold Regex.ws at 1. destruct (JS.isWhiteSpace a); [|reflexivity].
  rewrite <- IH. now destruct (JS.span Regex.ws s).
Qed.

(** ** The pattern of [getCleanDeviceName] *)

Lemma startsWith_char (c a : ascii) (s : string) :
  JS.startsWith (String a s) (String c "") = Ascii.eqb a c.
Proof.
  unfold JS.startsWith. cbn [String.prefix].
  destruct (Ascii.eqb_spec a c) as [->|Hn].
  - destruct (ascii_dec c c); [now destruct s | congruence].
  - destruct (ascii_dec c a); [congruence | reflexivity].
Qed.

(** What follows the name is rejected where the text goes on with
    something else than white space and an opening parenthesis. *)
Lemma versionInfoTail_none (r : string) (pos : nat) (cs : Regex.caps) :
  r <> "" -> JS.startsWith (JS.trimStart r) "(" = false ->
  Regex.run IOSRun.versionInfoTail pos r cs (fun e _ cs' => Some (e, cs')) = None.
Proof.
  intros Hn Hs. destruct r as [|a r]; [congruence|].
  unfold IOSRun.versionInfoTail.
  cbn [Regex.run Regex.seq fold_right Regex.rep].
  replace (if Regex.ws a then _ else None) with (@None (nat * Regex.caps));
    [reflexivity|].
  destruct (Regex.ws a) eqn:Ea; [|reflexivity]. symmetry.
  apply (star_none Regex.ws true _ (fun s => JS.startsWith s "(")).
  - intros p s' c H. destruct s' as [|b s']; [reflexivity|].
    rewrite startsWith_char in H. now rewrite H.
  - intros b s' Hb. rewrite startsWith_char.
    destruct (Ascii.eqb_spec b "(") as [->|]; [discriminate Hb | reflexivity].
  - rewrite span_ws_trimStart. cbn [JS.trimStart] in Hs.
    unfold Regex.ws in Ea. now rewrite Ea in Hs.
Qed.

(** The end of the text is accepted. *)
Lemma versionInfoTail_end (pos : nat) (cs : Regex.caps) :
  Regex.run IOSRun.versionInfoTail pos "" cs (fun e _ cs' => Some (e, cs'))
  = Some (pos, cs).
Proof. reflexivity. Qed.

(** A greedy run of the dot up to a closing parenthesis at the end. *)
Lemma star_dot_to_last_paren (inner : string) : forall (pos : nat) (cs : Regex.caps),
  allOf Regex.dot inner = true ->
  Regex.star Regex.dot true pos (inner ++ ")") cs
    (fun pos' s' cs' =>
       Regex.run (Regex.Cat (Regex.Lit ")") Regex.Eps) pos' s' cs'
         (fun pos'' s'' cs'' =>
            Regex.run Regex.Eos pos'' s'' cs'' (fun e _ c => Some (e, c))))
  = Some (pos + String.length inner + 1, cs).
Proof.
  induction inner as [|a inner IH]; intros pos cs Hall.
  - cbn [append Regex.star Regex.run]. replace (Regex.dot ")") with true by reflexivity. cbn. f_equal. f_equal. lia.
  - rewrite allOf_cons in Hall. apply andb_true_iff in Hall as [Ha Hall].
    cbn [append Regex.star]. rewrite Ha, (IH (S pos) cs Hall).
    cbn [String.length]. f_equal. f_equal. lia.
Qed.

(** White space, then a parenthesised text up to the end, is accepted. *)
Lemma versionInfoTail_some (w inner : string) (pos : nat) (cs : Regex.caps) :
  w <> "" -> allOf Regex.ws w = true -> allOf Regex.dot inner = true ->
  Regex.run IOSRun.versionInfoTail pos (w ++ "(" ++ inner ++ ")") cs
            (fun e _ cs' => Some (e, cs'))
  = Some (pos + String.length (w ++ "(" ++ inner ++ ")"), cs).
Proof.
  intros Hn Hw Hi. destruct w as [|a w]; [congruence|].
  rewrite allOf_cons in Hw. apply andb_true_iff in Hw as [Ha Hw].
  unfold IOSRun.versionInfoTail.
  cbn [Regex.run Regex.seq fold_right].
  change (Regex.rep Regex.ws 1 true pos (String a w ++ "(" ++ inner ++ ")") cs ?k)
    with (Regex.run (Regex.Rep Regex.ws 1 true) pos
                    (String a w ++ "(" ++ inner ++ ")") cs k).
  erewrite rep1_greedy_success; [reflexivity | exact Ha | exact Hw | reflexivity |].
  cbn [append Ascii.eqb Bool.eqb]. cbn [Regex.rep].
  rewrite (star_dot_to_last_paren inner _ cs Hi).
  cbn [String.length]. rewrite length_append. cbn [String.length]. rewrite length_append. cbn [String.length]. f_equal. f_equal. lia.
Qed.

Lemma matchAt_versionInfoRe (s : string) (pos : nat) :
  Regex.matchAt IOSRun.versionInfoRe pos s
  = Regex.star Regex.dot false pos s []
      (fun pos' s' cs' =>
         Regex.run IOSRun.versionInfoTail pos' s'
                   ((1, substring 0 (pos' - pos) s) :: cs')
                   (fun e _ cs'' => Some (e, cs''))).
Proof. reflexivity. Qed.

(** The name is cut where the lazy run first meets an accepted rest. *)
Lemma getCleanDeviceName_cut (u v : string) :
  allOf Regex.dot u = true ->
  (forall u1 u2, u = u1 ++ u2 -> u2 <> "" ->
                 JS.startsWith (JS.trimStart (u2 ++ v)) "(" = false) ->
  (forall cs, Regex.run IOSRun.versionInfoTail (String.length u) v cs
                        (fun e _ cs' => Some (e, cs'))
              = Some (String.length (u ++ v), cs)) ->
  IOSRun.getCleanDeviceName (u ++ v) = JS.trim u.
Proof.
  intros Hall Hfail Hk. unfold IOSRun.getCleanDeviceName.
  rewrite (exec_at_start _ _ (String.length (u ++ v)) [(1, u)]).
  - cbn. reflexivity.
  - rewrite matchAt_versionInfoRe.
    apply star_lazy_first; [exact Hall | |].
    + intros u1 u2 E Hn. apply versionInfoTail_none; [|now apply (Hfail u1)].
      destruct u2; [congruence | discriminate].
    + cbn [Nat.add]. rewrite Nat.sub_0_r, substring_prefix. apply Hk.
Qed.

(** X10. [getCleanDeviceName] cuts a name at its first parenthesis: of a
    name of one line that ends in a closing parenthesis and has white
    space before its first opening parenthesis, it keeps what is before
    that white space, trimmed, whatever the parentheses hold: of
    [iPhone SE (3rd generation) (18.4)] it keeps [iPhone SE]. *)
Theorem clean_name_drops_from_first_parenthesis (base gap inner : string) :
  allOf Regex.dot (base ++ gap ++ "(" ++ inner ++ ")") = true ->
  hasChar "(" base = false ->
  gap <> "" -> allOf Regex.ws gap = true ->
  IOSRun.getCleanDeviceName (base ++ gap ++ "(" ++ inner ++ ")") = JS.trim base.
Proof.
  intros Hall Hp Hn Hw.
  destruct (trimEnd_split base) as (t & Hb & Ht).
  rewrite <- (trim_trimEnd base).
  assert (E : base ++ gap ++ "(" ++ inner ++ ")"
              = JS.trimEnd base ++ ((t ++ gap) ++ "(" ++ inner ++ ")")).
  { rewrite Hb at 1. now rewrite !append_assoc. }
  rewrite E in *. clear E.
  rewrite !allOf_append in Hall.
  apply andb_true_iff in Hall as [Hd Hall].
  apply andb_true_iff in Hall as [_ Hall].
  apply andb_true_iff in Hall as [_ Hall].
  apply andb_true_iff in Hall as [Hi _].
  assert (Hp0 : hasChar "(" (JS.trimEnd base) = false).
  { rewrite Hb, hasChar_append in Hp. now apply orb_false_iff in Hp. }
  apply getCleanDeviceName_cut; [exact Hd | |].
  - intros u1 u2 E Hu.
    assert (Hs : JS.trimStart u2 <> "").
    { apply (trimEnd_fixed_suffix u1); [|exact Hu]. rewrite <- E. apply trimEnd_idem. }
    rewrite (trimStart_append _ _ Hs).
    apply hasChar_startsWith; [|exact Hs]. apply hasChar_trimStart.
    rewrite E, hasChar_append in Hp0. now apply orb_false_iff in Hp0.
  - intros cs. rewrite versionInfoTail_some.
    + now rewrite (length_append (JS.trimEnd base)).
    + destruct t; [|discriminate]. exact Hn.
    + rewrite allOf_append. now rewrite Ht, Hw.
    + exact Hi.
Qed.

Lemma clean_name_drops_from_first_parenthesis_witness :
  allOf Regex.dot "iPhone SE (3rd generation) (18.4)" = true
  /\ hasChar "(" "iPhone SE" = false
  /\ " " <> "" /\ allOf Regex.ws " " = true
  /\ IOSRun.getCleanDeviceName "iPhone SE (3rd generation) (18.4)" = "iPhone SE".
Proof.
  assert (Hn : " " <> "") by discriminate.
  split; [reflexivity|]. split; [reflexivity|]. split; [exact Hn|].
  split; [reflexivity|].
  exact (clean_name_drops_from_first_parenthesis
           "iPhone SE" " " "3rd generation) (18.4" eq_refl eq_refl Hn eq_refl).
Defined.

(** X11. A name of one line without opening parenthesis is returned
    trimmed by [getCleanDeviceName]. *)
Theorem clean_name_without_parenthesis (fullName : string) :
  allOf Regex.dot fullName = true -> hasChar "(" fullName = false ->
  IOSRun.getCleanDeviceName fullName = JS.trim fullName.
Proof.
  intros Hd Hp. rewrite <- (append_empty_r fullName) at 1.
  apply getCleanDeviceName_cut; [exact Hd | |].
  - intros u1 u2 E Hu. rewrite append_empty_r.
    rewrite E, hasChar_append in Hp. apply orb_false_iff in Hp as [_ Hp].
    pose proof (hasChar_trimStart _ _ Hp) as H.
    destruct (JS.trimStart u2) as [|a r] eqn:Et; [reflexivity|].
    rewrite <- (append_empty_r (String a r)).
    apply hasChar_startsWith; [exact H | discriminate].
  - intros cs. rewrite versionInfoTail_end. now rewrite append_empty_r.
Qed.

Lemma clean_name_without_parenthesis_witness :
  allOf Regex.dot " iPhone 15 Pro " = true
  /\ hasChar "(" " iPhone 15 Pro " = false
  /\ IOSRun.getCleanDeviceName " iPhone 15 Pro " = "iPhone 15 Pro".
Proof.
  split; [reflexivity|]. split; [reflexivity|].
  exact (clean_name_without_parenthesis " iPhone 15 Pro " eq_refl eq_refl).
Defined.

(** What a run of a class returns, the continuation returns. *)
Lemma star_some (p : ascii -> bool) (greedy : bool) (k : Regex.cont)
      (cs : Regex.caps) (P : nat * Regex.caps -> Prop) :
  (forall pos s x, k pos s cs = Some x -> P x) ->
  forall s pos x, Regex.star p greedy pos s cs k = Some x -> P x.
Proof.
  intros Hk. induction s as [|a s IH]; intros pos x H; cbn [Regex.star] in H.
  - exact (Hk _ _ _ H).
  - destruct (p a); [|exact (Hk _ _ _ H)]. destruct greedy.
    + destruct (Regex.star p true (S pos) s cs k) eqn:E.
      * injection H as <-. exact (IH _ _ E).
      * exact (Hk _ _ _ H).
    + destruct (k pos (String a s) cs) eqn:E.
      * injection H as <-. exact (Hk _ _ _ E).
      * exact (IH _ _ H).
Qed.

(** The rest of the pattern captures nothing. *)
Lemma versionInfoTail_caps (r : string) (pos : nat) (cs : Regex.caps) x :
  Regex.run IOSRun.versionInfoTail pos r cs (fun e _ cs' => Some (e, cs')) = Some x ->
  snd x = cs.
Proof.
  unfold IOSRun.versionInfoTail.
  cbn [Regex.run Regex.seq fold_right Regex.rep]. intros H.
  assert (HE : forall pos' s',
             match s' with
             | "" => Some (pos', cs)
             | String _ _ => None
             end = Some x -> snd x = cs).
  { intros pos' [|b s'] E; [now injection E as <- | discriminate E]. }
  match type of H with
  | match ?m with Some y => Some y | None => _ end = _ => destruct m eqn:E
  end; [injection H as ->|exact (HE _ _ H)].
  destruct r as [|a r]; [discriminate E|]. destruct (Regex.ws a); [|discriminate E].
  refine (star_some _ _ _ _ (fun y => snd y = cs) _ _ _ _ E).
  clear. intros pos [|b s] y E; [discriminate E|].
  destruct (Ascii.eqb b "("); [|discriminate E].
  refine (star_some _ _ _ _ (fun y => snd y = cs) _ _ _ _ E).
  clear. intros pos [|b s] y E; [discriminate E|].
  destruct (Ascii.eqb b ")"); [|discriminate E].
  destruct s; [now injection E as <- | discriminate E].
Qed.

(** A match of the pattern always has its group 1. *)
Lemma matchAt_versionInfoRe_caps (s : string) (pos : nat) x :
  Regex.matchAt IOSRun.versionInfoRe pos s = Some x ->
  exists g, snd x = [(1, g)].
Proof.
  rewrite matchAt_versionInfoRe. intros E.
  refine (star_some _ _ _ _ (fun y => exists g, snd y = [(1, g)]) _ _ _ _ E).
  intros pos' s' y H. apply versionInfoTail_caps in H. rewrite H. eauto.
Qed.

Lemma search_versionInfoRe (s : string) : forall pos,
  exists b e g, Regex.search IOSRun.versionInfoRe pos s = Some (b, e, [(1, g)]).
Proof.
  induction s as [|a s IH]; intros pos; cbn [Regex.search];
    destruct (Regex.matchAt IOSRun.versionInfoRe pos _) as [[e cs]|] eqn:E.
  - destruct (matchAt_versionInfoRe_caps _ _ _ E) as (g & Hg). cbn [snd] in Hg.
    subst cs. eauto.
  - discriminate E.
  - destruct (matchAt_versionInfoRe_caps _ _ _ E) as (g & Hg). cbn [snd] in Hg.
    subst cs. eauto.
  - apply IH.
Qed.

Lemma trimStart_idem (s : string) : JS.trimStart (JS.trimStart s) = JS.trimStart s.
Proof.
  induction s as [|c s IH]; [reflexivity|]. cbn [JS.trimStart].
  destruct (JS.isWhiteSpace c) eqn:Ec; [exact IH|]. cbn [JS.trimStart]. now rewrite Ec.
Qed.

Lemma trim_idem (s : string) : JS.trim (JS.trim s) = JS.trim s.
Proof.
  unfold JS.trim. now rewrite trimStart_trimEnd, trimStart_idem, trimEnd_idem.
Qed.

(** X12. The pattern of [getCleanDeviceName] matches every text, with
    its group 1: the function never falls back on the full name, and what
    it returns is a trimmed text. *)
Theorem clean_name_always_matches (fullName : string) :
  (exists b e g, Regex.exec IOSRun.versionInfoRe fullName = Some (b, e, [(1, g)])
                 /\ IOSRun.getCleanDeviceName fullName = JS.trim g)
  /\ JS.trim (IOSRun.getCleanDeviceName fullName)
     = IOSRun.getCleanDeviceName fullName.
Proof.
  destruct (search_versionInfoRe fullName 0) as (b & e & g & H).
  assert (E : IOSRun.getCleanDeviceName fullName = JS.trim g).
  { unfold IOSRun.getCleanDeviceName, Regex.exec. rewrite H. cbn. reflexivity. }
  split; [now exists b, e, g|]. rewrite E. apply trim_idem.
Qed.

(** ** The command line *)

Lemma includes_In (args : list string) (flag : string) :
  Cli.includes args flag = true <-> In flag args.
Proof.
  unfold Cli.includes. rewrite existsb_exists. split.
  - intros (x & Hx & E). apply String.eqb_eq in E. now subst.
  - intros H. exists flag. split; [exact H | apply String.eqb_refl].
Qed.

Lemma includes_ext (args1 args2 : list string) :
  (forall f, In f args1 <-> In f args2) ->
  forall flag, Cli.includes args1 flag = Cli.includes args2 flag.
Proof.
  intros H flag. apply eq_true_iff_eq. rewrite !includes_In. apply H.
Qed.

(** X13. The command line is read as a set of flags: neither the order of
    the arguments nor their repetition, nor the first two entries of
    [process.argv], change what [parseCommandLineArgs] returns. *)
Theorem command_line_is_read_as_a_set
        (node script node' script' : string) (args1 args2 : list string) :
  (forall f, In f args1 <-> In f args2) ->
  Cli.parseCommandLineArgs (node :: script :: args1)
  = Cli.parseCommandLineArgs (node' :: script' :: args2).
Proof.
  intros H. unfold Cli.parseCommandLineArgs. cbn [skipn].
  now rewrite !(includes_ext args1 args2 H).
Qed.

Lemma command_line_is_read_as_a_set_witness :
  (forall f, In f ["--debug"; "--ios"; "--debug"] <-> In f ["--ios"; "--debug"])
  /\ Cli.parseCommandLineArgs ["node"; "panel.js"; "--debug"; "--ios"; "--debug"]
     = Cli.parseCommandLineArgs ["/usr/bin/node"; "index.js"; "--ios"; "--debug"].
Proof.
  assert (H : forall f, In f ["--debug"; "--ios"; "--debug"] <-> In f ["--ios"; "--debug"])
    by (intros f; cbn [In]; tauto).
  split; [exact H|].
  exact (command_line_is_read_as_a_set "node" "panel.js" "/usr/bin/node" "index.js"
                                       _ _ H).
Defined.

(** X14. The flag [--dev] names an operation and an environment at once:
    with it the environment is [d] whatever other environment flag is
    given, and the operation is [dev] unless [--version] or [--env] is
    given too; and the operation is never [dev] without that
    environment. *)
Theorem dev_flag_sets_the_environment (argv : list string) :
  In "--dev" (skipn 2 argv) ->
  Cli.environment (Cli.parseCommandLineArgs argv) = Some "d"
  /\ (Cli.operation (Cli.parseCommandLineArgs argv) = Some "dev"
      \/ (In "--version" (skipn 2 argv)
          /\ Cli.operation (Cli.parseCommandLineArgs argv) = Some "version")
      \/ (In "--env" (skipn 2 argv)
          /\ Cli.operation (Cli.parseCommandLineArgs argv) = Some "env")).
Proof.
  intros H. apply includes_In in H.
  unfold Cli.parseCommandLineArgs. cbn [Cli.environment Cli.operation].
  rewrite H, orb_true_r. split; [reflexivity|].
  destruct (Cli.includes (skipn 2 argv) "--version") eqn:Ev.
  - right. left. split; [now apply includes_In | reflexivity].
  - destruct (Cli.includes (skipn 2 argv) "--env") eqn:Ee.
    + right. right. split; [now apply includes_In | reflexivity].
    + now left.
Qed.

Lemma dev_flag_sets_the_environment_witness :
  In "--dev" (skipn 2 ["node"; "panel.js"; "--production"; "--dev"])
  /\ Cli.environment (Cli.parseCommandLineArgs ["node"; "panel.js"; "--production"; "--dev"])
     = Some "d".
Proof.
  assert (H : In "--dev" (skipn 2 ["node"; "panel.js"; "--production"; "--dev"]))
    by (right; left; reflexivity).
  split; [exact H|].
  exact (proj1 (dev_flag_sets_the_environment _ H)).
Defined.

(** ** Special commands *)

Lemma toLowerChar_y (c : ascii) :
  JS.toLowerChar c = "y"%char -> c = "y"%char \/ c = "Y"%char.
Proof.
  destruct c as [[] [] [] [] [] [] [] []]; vm_compute; intros H;
    first [now left | now right | discriminate H].
Qed.

Lemma toLowerCase_y (text : string) :
  JS.toLowerCase text = "y" <-> text = "y" \/ text = "Y".
Proof.
  split.
  - destruct text as [|c [|d text]]; cbn [JS.toLowerCase]; intros H;
      try discriminate H.
    injection H as H. destruct (toLowerChar_y c H) as [-> | ->]; [now left | now right].
  - intros [-> | ->]; reflexivity.
Qed.

(** X15. A special command ends the process only through the question
    after [exit] or [quit], and only on the answer [y] or [Y], exactly:
    not on [yes], not on a [y] with a space, not on an empty line, and
    never without a readline interface. *)
Theorem exit_needs_the_answer_y
        (rl : bool) (input currentStep : string) (answers : list answer) (code : Z) :
  snd (Cli.handleSpecialCommands rl input currentStep answers) = Exited code
  <-> code = 0%Z
      /\ (JS.trim (JS.toLowerCase input) = "exit"
          \/ JS.trim (JS.toLowerCase input) = "quit")
      /\ rl = true
      /\ exists text rest, answers = Line text :: rest /\ (text = "y" \/ text = "Y").
Proof.
  unfold Cli.handleSpecialCommands.
  destruct (String.eqb_spec (JS.trim (JS.toLowerCase input)) "exit") as [Ee|Ee];
    [|destruct (String.eqb_spec (JS.trim (JS.toLowerCase input)) "quit") as [Eq|Eq]];
    cbn [orb].
  3:{ split.
      - destruct (String.eqb _ "skip"); cbn [snd]; discriminate.
      - intros (_ & [H|H] & _); contradiction. }
  all: assert (Hc : (JS.trim (JS.toLowerCase input) = "exit"
                     \/ JS.trim (JS.toLowerCase input) = "quit")) by tauto.
  all: unfold Cli.confirm, Cli.question; cbn [Cli.optionOr].
  all: destruct rl; [|split; [cbn; discriminate | intros (_ & _ & H & _); discriminate H]].
  all: destruct answers as [|[text|e] rest];
    [split; [cbn; discriminate | intros (_ & _ & _ & t & r & H & _); discriminate H]
    | | split; [cbn; discriminate | intros (_ & _ & _ & t & r & H & _); discriminate H]].
  all: change (JS.toLowerCase "y") with "y".
  all: destruct (JS.truthy (JS.trim text)) eqn:Et; cbn [negb].
  all: try destruct (String.eqb_spec (JS.toLowerCase text) "y") as [Ey|Ey]; cbn [snd].
  all: split.
  all: try (intros H; injection H as <-; repeat split; try assumption;
            exists text, rest; split; [reflexivity | now apply toLowerCase_y]).
  all: try discriminate.
  all: try reflexivity.
  all: intros (-> & _ & _ & t & r & H & Hy); injection H as <- <-.
  all: try reflexivity.
  all: try (apply toLowerCase_y in Hy; contradiction).
  all: destruct Hy as [-> | ->]; discriminate Et.
Qed.

(** ** The .env file *)

Lemma prefix_append (p s : string) : String.prefix p (p ++ s) = true.
Proof.
  induction p as [|c p IH]; cbn [append String.prefix]; [now destruct s|].
  destruct (ascii_dec c c); [exact IH | congruence].
Qed.

Lemma includes_middle (a p b : string) : JS.includes (a ++ p ++ b) p = true.
Proof.
  induction a as [|c a IH]; cbn [append].
  - destruct (p ++ b) eqn:E; cbn [JS.includes]; rewrite <- E, prefix_append; reflexivity.
  - cbn [JS.includes]. rewrite IH. apply orb_true_r.
Qed.

(** X16. The environment of a [.env] file is read off a substring: a file
    that holds the text [ENV=development] or [ENVIRONMENT=development]
    anywhere, inside a longer name, in a comment or next to the markers of
    staging or production, is a development file. *)
Theorem env_file_mentioning_development (before after : string) :
  Cli.checkEnvFile (Some (Ok (before ++ "ENV=development" ++ after)))
  = ([], Cli.mkEnvironmentStatus true (Some "development"))
  /\ Cli.checkEnvFile (Some (Ok (before ++ "ENVIRONMENT=development" ++ after)))
     = ([], Cli.mkEnvironmentStatus true (Some "development")).
Proof.
  unfold Cli.checkEnvFile. rewrite !includes_middle, orb_true_r. now split.
Qed.

(** ** What a match captures *)

(** A run of a class that succeeds has read characters of the class and
    handed what follows to the continuation. *)
Lemma star_inv (p : ascii -> bool) (greedy : bool) (k : Regex.cont)
      (cs : Regex.caps) :
  forall s pos x,
    Regex.star p greedy pos s cs k = Some x ->
    exists u v, s = u ++ v /\ allOf p u = true
                /\ k (pos + String.length u) v cs = Some x.
Proof.
  assert (Z0 : forall s pos x, k pos s cs = Some x ->
                 exists u v, s = u ++ v /\ allOf p u = true
                             /\ k (pos + String.length u) v cs = Some x).
  { intros s pos x H. exists "", s. cbn [append String.length].
    rewrite Nat.add_0_r. now repeat split. }
  induction s as [|a s IH]; intros pos x H; cbn [Regex.star] in H.
  - now apply Z0.
  - destruct (p a) eqn:Ea; [|now apply Z0].
    assert (S1 : Regex.star p greedy (S pos) s cs k = Some x ->
                 exists u v, String a s = u ++ v /\ allOf p u = true
                             /\ k (pos + String.length u) v cs = Some x).
    { intros E. destruct (IH _ _ E) as (u & v & -> & Hu & Hk).
      exists (String a u), v. cbn [append String.length].
      rewrite allOf_cons, Ea, Hu, Nat.add_succ_r. now repeat split. }
    destruct greedy.
    + destruct (Regex.star p true (S pos) s cs k) eqn:E.
      * injection H as <-. now apply S1.
      * now apply Z0.
    + destruct (k pos (String a s) cs) eqn:E.
      * injection H as <-. now apply Z0.
      * now apply S1.
Qed.

Lemma rep1_inv (p : ascii -> bool) (greedy : bool) (k : Regex.cont)
      (cs : Regex.caps) (s : string) (pos : nat) x :
  Regex.run (Regex.Rep p 1 greedy) pos s cs k = Some x ->
  exists a u v, s = String a u ++ v /\ p a = true /\ allOf p u = true
                /\ k (pos + String.length (String a u)) v cs = Some x.
Proof.
  cbn [Regex.run Regex.rep]. destruct s as [|a s]; [discriminate|].
  destruct (p a) eqn:Ea; [|discriminate]. intros H.
  destruct (star_inv _ _ _ _ _ _ _ H) as (u & v & -> & Hu & Hk).
  exists a, u, v. cbn [String.length]. rewrite Nat.add_succ_r. now repeat split.
Qed.

Lemma run_lits_some (l : string) (k : Regex.cont) (cs : Regex.caps) :
  forall s pos x,
    Regex.run (Regex.lits l) pos s cs k = Some x ->
    exists pos' s', k pos' s' cs = Some x.
Proof.
  induction l as [|c l IH]; intros s pos x H; cbn [Regex.lits Regex.run] in H.
  - eauto.
  - destruct s as [|a s]; [discriminate|]. destruct (Ascii.eqb a c); [|discriminate].
    exact (IH _ _ _ H).
Qed.

(** A match of the pattern of an adb line has a token as its group 1. *)
Lemma deviceRe_group1 (line : string) (m : Regex.found) :
  Regex.exec Android.deviceRe line = Some m ->
  exists g, Regex.group 1 m = Some g /\ token g = true.
Proof.
  assert (N : forall s pos, Regex.search Android.deviceRe (S pos) s = None).
  { induction s as [|a s IH]; intros pos; cbn [Regex.search];
      [reflexivity | apply IH]. }
  intros H. unfold Regex.exec in H.
  assert (M : exists e cs, Regex.matchAt Android.deviceRe 0 line = Some (e, cs)
                           /\ m = (0, e, cs)).
  { destruct line as [|a s]; cbn [Regex.search] in H;
      destruct (Regex.matchAt Android.deviceRe 0 _) as [[e cs]|];
      try (injection H as <-; now eauto); try discriminate H.
    rewrite N in H. discriminate H. }
  destruct M as (e & cs & M & ->). clear H N. cbn [Regex.group].
  unfold Regex.matchAt, Android.deviceRe in M. cbn [Regex.seq fold_right] in M.
  rewrite run_Cat, run_Bos, run_Cat in M.
  cbn [Regex.run] in M.
  change (Regex.rep Regex.notWs 1 true 0 line [] ?k)
    with (Regex.run (Regex.Rep Regex.notWs 1 true) 0 line [] k) in M.
  apply rep1_inv in M as (a & u & v & -> & Ha & Hu & M).
  cbn [Nat.add] in M. rewrite Nat.sub_0_r, substring_prefix in M.
  exists (String a u).
  assert (T : token (String a u) = true).
  { unfold token. cbn [JS.truthy andb]. now rewrite allOf_cons, Ha, Hu. }
  split; [|exact T].
  assert (C : exists g2, cs = [(2, g2); (1, String a u)]).
  { change (Regex.rep Regex.ws 1 true ?p ?s ?c ?k)
      with (Regex.run (Regex.Rep Regex.ws 1 true) p s c k) in M.
    apply rep1_inv in M as (a1 & u1 & v1 & _ & _ & _ & M).
    apply run_lits_some in M as (p1 & s1 & M).
    apply rep1_inv in M as (a2 & u2 & v2 & _ & _ & _ & M).
    cbn [Regex.run Regex.rep] in M.
    apply star_inv in M as (u3 & v3 & _ & _ & M).
    destruct v3; [|discriminate M]. injection M as _ <-. eauto. }
  destruct C as (g2 & ->). reflexivity.
Qed.

Lemma token_truthy (s : string) : token s = true -> JS.truthy s = true.
Proof. unfold token. intros H. now apply andb_true_iff in H. Qed.

Lemma Forall_app_intro {A : Type} (P : A -> Prop) (l1 l2 : list A) :
  Forall P l1 -> Forall P l2 -> Forall P (l1 ++ l2)%list.
Proof. intros H1 H2. apply Forall_app. now split. Qed.

(** What Parser A gives as ids. *)
Lemma android_listed_ids (adb emulator : result string) :
  Forall (fun d =>
            (category d = Some physicalDevices /\ token (id d) = true)
            \/ (category d = Some simulators
                /\ id d = "emulator-" ++ name d /\ JS.truthy (name d) = true))
         (snd (Android.listDevices adb emulator)).
Proof.
  destruct adb as [a|e]; [|constructor]. destruct emulator as [b|e]; [|constructor].
  cbn [Android.listDevices snd]. apply Forall_app_intro.
  - unfold Android.parseAdb. apply Forall_flat_map, Forall_forall. intros line _.
    unfold Android.parseAdbLine.
    destruct (JS.truthy (JS.trim line)); [|constructor].
    destruct (Regex.exec Android.deviceRe line) as [m|] eqn:E; [|constructor].
    destruct (deviceRe_group1 _ _ E) as (g & -> & T).
    destruct (Regex.group 2 m); constructor; [|constructor].
    left. now split.
  - unfold Android.parseEmulators. apply Forall_flat_map, Forall_forall. intros line _.
    unfold Android.parseEmulatorLine.
    destruct (JS.truthy (JS.trim line)) eqn:T; constructor; [|constructor].
    right. now repeat split.
Qed.

(** X17. Every device Parser A lists can be addressed: an adb device has
    as id a non-empty text without white space, an emulator has the id
    [emulator-] followed by its name, which is not empty. *)
Theorem android_listed_devices_have_ids (adb emulator : result string) :
  Forall (fun d =>
            (category d = Some physicalDevices /\ token (id d) = true)
            \/ (category d = Some simulators
                /\ id d = "emulator-" ++ name d /\ JS.truthy (name d) = true))
         (snd (Android.listDevices adb emulator)).
Proof. exact (android_listed_ids adb emulator). Qed.

(** ** Traces of the actions *)

Lemma commands_app (t1 t2 : list effect) :
  commands (t1 ++ t2) = (commands t1 ++ commands t2)%list.
Proof. apply flat_map_app. Qed.

Lemma commands_Device (t : list event) : commands (map Device t) = [].
Proof. induction t as [|e t IH]; [reflexivity | exact IH]. Qed.

Lemma notices_app (t1 t2 : list effect) :
  notices (t1 ++ t2) = (notices t1 ++ notices t2)%list.
Proof. apply flat_map_app. Qed.

Lemma notices_Device (t : list event) : notices (map Device t) = [].
Proof. induction t as [|e t IH]; [reflexivity | exact IH]. Qed.

Lemma asked_app (t1 t2 : list effect) : asked (t1 ++ t2) = asked t1 + asked t2.
Proof. unfold asked. now rewrite filter_app, length_app. Qed.

Lemma asked_Device (t : list event) : asked (map Device t) = questions t.
Proof.
  unfold asked, questions. induction t as [|e t IH]; [reflexivity|].
  cbn [map filter]. destruct e as [m|m|]; cbn [isAsk isQuestion List.length];
    now rewrite ?IH.
Qed.

(** ** The variant of an Android action *)

(** X18. [getVariant] names a flavor for the codes d, s and p only, and
    the dispatcher never passes a code: the environment it takes from the
    [.env] file is development, staging or production, so the variant of
    every dispatched Android action has no flavor and is named after the
    build type alone. *)
Theorem dispatched_variant_has_no_flavor
        (env : option (result string)) (action : string) :
  let environment := Panel.envName (snd (Cli.checkEnvFile env)) in
  let variant := AndroidRun.getVariant environment action in
  (forall code, AndroidRun.flavor (AndroidRun.getVariant code action) <> ""
                <-> code = "d" \/ code = "s" \/ code = "p")
  /\ (environment = "development" \/ environment = "staging"
      \/ environment = "production")
  /\ AndroidRun.flavor variant = ""
  /\ AndroidRun.variantName variant = AndroidRun.buildType variant
  /\ AndroidRun.lowerVariantName variant = JS.toLowerCase (AndroidRun.buildType variant).
Proof.
  cbv zeta. split.
  - intros code. unfold AndroidRun.getVariant. cbn [AndroidRun.flavor].
    destruct (String.eqb_spec code "d") as [->|Hd]; [split; [tauto | discriminate]|].
    destruct (String.eqb_spec code "s") as [->|Hs]; [split; [tauto | discriminate]|].
    destruct (String.eqb_spec code "p") as [->|Hp]; [split; [tauto | discriminate]|].
    split; [congruence | tauto].
  - assert (E : Panel.envName (snd (Cli.checkEnvFile env)) = "development"
                \/ Panel.envName (snd (Cli.checkEnvFile env)) = "staging"
                \/ Panel.envName (snd (Cli.checkEnvFile env)) = "production").
    { destruct env as [[c|e]|]; cbn [Cli.checkEnvFile snd]; unfold Panel.envName;
        cbn [Cli.type]; [|now left|now left].
      destruct (_ || _); [now left|].
      destruct (_ || _); [right; now left|].
      destruct (_ || _); [right; now right | now left]. }
    split; [exact E|].
    destruct E as [-> | [-> | ->]]; now repeat split.
Qed.

(** ** The iOS actions *)

Lemma selectDevice_nothing_selectable (c : CategorizedDevices) (answers : list answer) :
  selectable c = [] ->
  IOS.selectDevice c answers
  = ((renderedLines c ++ [Log NoDevicesAvailable])%list, Returned None).
Proof.
  intros H. unfold IOS.selectDevice. rewrite renderDevices_eq.
  cbn [IOS.allDevices IOS.printed]. now rewrite H.
Qed.

Lemma questions_snoc_log (t : list event) (m : message) :
  questions (t ++ [Log m]) = questions t.
Proof. rewrite questions_app. cbn. lia. Qed.

(** X19. The iOS build is started whatever the preparation gives: the
    dispatcher runs the set-up command, then [pod install] when the
    set-up succeeded, then the build command, also after a failed set-up
    or a failed [pod install]; it asks nothing. *)
Theorem ios_build_ignores_failed_setup
        (sh : shell) (environment : string) (answers : list answer) :
  snd (Panel.executeIOSAction sh "b" environment answers) = Returned tt
  /\ asked (fst (Panel.executeIOSAction sh "b" environment answers)) = 0
  /\ commands (fst (Panel.executeIOSAction sh "b" environment answers))
     = (IOSRun.setupEnvCommand environment
          :: match sh (IOSRun.setupEnvCommand environment) with
             | Ok _ => [IOSRun.podCommand]
             | Throw _ => []
             end
          ++ [IOSRun.buildCommand environment "member" "Release"])%list.
Proof.
  unfold Panel.executeIOSAction, IOSRun.setupEnvironment, IOSRun.updatePods,
    IOSRun.executeBuild.
  cbn [String.eqb Ascii.eqb Bool.eqb].
  destruct (sh (IOSRun.setupEnvCommand environment));
    [destruct (sh IOSRun.podCommand)|];
    destruct (sh (IOSRun.buildCommand environment "member" "Release"));
    repeat split.
Qed.

Lemma ios_listing_asks_nothing (command : result string) :
  questions (fst (IOS.listDevices command)) = 0.
Proof.
  destruct command as [raw|e]; [|reflexivity]. cbn [IOS.listDevices].
  destruct (sims (IOS.scan raw)); [reflexivity|].
  now destruct (Utils.filterSimulatorsByHighestOSVersion _).
Qed.

Lemma commands_cons (e : effect) (t : list effect) :
  commands (e :: t) = (isExec e ++ commands t)%list.
Proof. reflexivity. Qed.

Lemma notices_cons (e : effect) (t : list effect) :
  notices (e :: t) = (isPrint e ++ notices t)%list.
Proof. reflexivity. Qed.

Lemma asked_cons (e : effect) (t : list effect) :
  asked (e :: t) = (if isAsk e then 1 else 0) + asked t.
Proof. unfold asked. cbn [filter]. now destruct (isAsk e). Qed.

Ltac trace_simpl :=
  repeat (rewrite ?commands_app, ?asked_app, ?notices_app,
            ?commands_cons, ?asked_cons, ?notices_cons,
            ?commands_Device, ?asked_Device, ?notices_Device);
  change (commands []) with (@nil string);
  change (notices []) with (@nil notice);
  change (asked []) with 0;
  cbn [isExec isAsk isPrint app Nat.add].

(** X20. With nothing to select, after a failed listing or a listing
    without physical device and iPhone simulator, the iOS debug action
    asks nothing and runs the application on the simulator named
    iPhone 15; it returns whether that command succeeded. *)
Theorem ios_debug_defaults_to_iphone_15
        (sh : shell) (environment target : string) (answers : list answer) :
  selectable (snd (IOS.listDevices (sh IOSRun.listCommand))) = [] ->
  commands (fst (IOSRun.executeDebug sh environment target answers))
  = [IOSRun.listCommand; IOSRun.runCommand target "--simulator" "iPhone 15"]
  /\ asked (fst (IOSRun.executeDebug sh environment target answers)) = 0
  /\ snd (IOSRun.executeDebug sh environment target answers)
     = Returned match sh (IOSRun.runCommand target "--simulator" "iPhone 15") with
                | Ok _ => true
                | Throw _ => false
                end.
Proof.
  intros H. unfold IOSRun.executeDebug, IOSRun.listDevices.
  pose proof (ios_listing_asks_nothing (sh IOSRun.listCommand)) as Q.
  destruct (IOS.listDevices (sh IOSRun.listCommand)) as [t c]. cbn [fst snd] in H, Q.
  rewrite (selectDevice_nothing_selectable c answers H).
  destruct (sh (IOSRun.runCommand target "--simulator" "iPhone 15")); cbn [fst snd].
  all: trace_simpl.
  all: rewrite questions_snoc_log, renderedLines_questions, Q.
  all: repeat split.
Qed.

Lemma ios_debug_defaults_to_iphone_15_witness :
  let sh : shell := fun _ => Throw "xcrun: not found" in
  selectable (snd (IOS.listDevices (sh IOSRun.listCommand))) = []
  /\ commands (fst (IOSRun.executeDebug sh "development" "member" []))
     = [IOSRun.listCommand; IOSRun.runCommand "member" "--simulator" "iPhone 15"].
Proof.
  intros sh. split; [reflexivity|].
  exact (proj1 (ios_debug_defaults_to_iphone_15 sh "development" "member" [] eq_refl)).
Defined.

(** X21. With nothing to select the iOS release action stops: it prints
    that it cannot proceed and runs no command besides the preparation and
    the listing, where the debug action falls back to a default
    simulator. *)
Theorem ios_release_needs_a_device
        (sh : shell) (environment : string) (answers : list answer) :
  selectable (snd (IOS.listDevices (sh IOSRun.listCommand))) = [] ->
  snd (Panel.executeIOSAction sh "r" environment answers) = Returned tt
  /\ In CannotRelease (notices (fst (Panel.executeIOSAction sh "r" environment answers)))
  /\ asked (fst (Panel.executeIOSAction sh "r" environment answers)) = 0
  /\ commands (fst (Panel.executeIOSAction sh "r" environment answers))
     = (commands (fst (IOSRun.setupEnvironment sh environment))
          ++ [IOSRun.listCommand])%list.
Proof.
  intros H. unfold Panel.executeIOSAction, IOSRun.listDevices.
  cbn [String.eqb Ascii.eqb Bool.eqb].
  pose proof (ios_listing_asks_nothing (sh IOSRun.listCommand)) as Q.
  destruct (IOS.listDevices (sh IOSRun.listCommand)) as [t c]. cbn [fst snd] in H, Q.
  rewrite (selectDevice_nothing_selectable c answers H).
  assert (A : asked (fst (IOSRun.setupEnvironment sh environment)) = 0).
  { unfold IOSRun.setupEnvironment, IOSRun.updatePods.
    destruct (sh (IOSRun.setupEnvCommand environment)); [destruct (sh IOSRun.podCommand)|];
      reflexivity. }
  destruct (IOSRun.setupEnvironment sh environment) as [t0 b0]. cbn [fst snd] in *.
  split; [reflexivity|]. trace_simpl.
  rewrite questions_snoc_log, renderedLines_questions, Q, A.
  split; [|split; reflexivity].
  apply in_or_app. right. now left.
Qed.

Lemma ios_release_needs_a_device_witness :
  let sh : shell := fun _ => Throw "not found" in
  selectable (snd (IOS.listDevices (sh IOSRun.listCommand))) = []
  /\ snd (Panel.executeIOSAction sh "r" "development" []) = Returned tt.
Proof.
  intros sh. split; [reflexivity|].
  exact (proj1 (ios_release_needs_a_device sh "development" [] eq_refl)).
Defined.

Lemma selectable_category (command : result string) (x : DeviceInfo) :
  In x (selectable (snd (IOS.listDevices command))) ->
  (In x (physical (snd (IOS.listDevices command)))
   /\ hasCategory simulators x = false)
  \/ (In x (sims (snd (IOS.listDevices command)))
      /\ hasCategory simulators x = true).
Proof.
  destruct (listDevices_wellCategorized command) as [(Hp & _ & Hs) _].
  unfold selectable. intros H. apply in_app_or in H as [H|H].
  - left. split; [exact H|]. rewrite Forall_forall in Hp.
    destruct (Hp x H) as (Hc & _). unfold hasCategory. now rewrite Hc.
  - right. apply filter_In in H as [H _]. split; [exact H|].
    rewrite Forall_forall in Hs. destruct (Hs x H) as (Hc & _).
    unfold hasCategory. now rewrite Hc.
Qed.

(** X22. The iOS debug action runs the application on the device the user
    has chosen by its number: once, under the name [getCleanDeviceName]
    makes of the listed name, as a device when it was listed among the
    physical devices and as a simulator when it was listed among the
    simulators. *)
Theorem ios_debug_runs_on_the_chosen_device
        (sh : shell) (environment target : string) (n : Z) (x : DeviceInfo)
        (text : string) (rest : list answer) :
  In (n, x) (shownPairs (IOS.printed (IOS.renderDevices
                                        (snd (IOS.listDevices (sh IOSRun.listCommand)))))) ->
  JS.parseInt10 (JS.trim text) = Some n ->
  exists flag,
    commands (fst (IOSRun.executeDebug sh environment target (Line text :: rest)))
    = [IOSRun.listCommand;
       IOSRun.runCommand target flag (IOSRun.getCleanDeviceName (name x))]
    /\ asked (fst (IOSRun.executeDebug sh environment target (Line text :: rest))) = 1
    /\ ((In x (physical (snd (IOS.listDevices (sh IOSRun.listCommand))))
         /\ flag = "--device")
        \/ (In x (sims (snd (IOS.listDevices (sh IOSRun.listCommand))))
            /\ flag = "--simulator")).
Proof.
  intros Hin Hp.
  destruct (ios_number_selects _ n x text rest Hin Hp) as [Hs Hq].
  assert (Hx : In x (selectable (snd (IOS.listDevices (sh IOSRun.listCommand))))).
  { rewrite renderDevices_eq in Hin. cbn [IOS.printed] in Hin.
    rewrite renderedLines_pairs in Hin.
    destruct (countFrom_in _ _ _ _ Hin) as [_ Hn]. exact (nth_error_In _ _ Hn). }
  pose proof (selectable_category _ _ Hx) as Hc.
  pose proof (ios_listing_asks_nothing (sh IOSRun.listCommand)) as Q.
  unfold IOSRun.executeDebug, IOSRun.listDevices.
  destruct (IOS.listDevices (sh IOSRun.listCommand)) as [t c]. cbn [fst snd] in *.
  destruct (IOS.selectDevice c (Line text :: rest)) as [t2 o]. cbn [fst snd] in Hs, Hq.
  subst o. unfold IOSRun.deviceCommand.
  change (hasCategory simulators (IOS.withIndex x n)) with (hasCategory simulators x).
  change (name (IOS.withIndex x n)) with (name x).
  destruct Hc as [[Hc Hf]|[Hc Hf]]; rewrite Hf.
  - exists "--device".
    destruct (sh (IOSRun.runCommand target "--device" _)); cbn [fst snd]; trace_simpl;
      rewrite Hq, Q; (split; [reflexivity|]); (split; [reflexivity|]); left; now split.
  - exists "--simulator".
    destruct (sh (IOSRun.runCommand target "--simulator" _)); cbn [fst snd]; trace_simpl;
      rewrite Hq, Q; (split; [reflexivity|]); (split; [reflexivity|]); right; now split.
Qed.

Lemma ios_debug_runs_on_the_chosen_device_witness :
  let sh : shell :=
    fun command =>
      if String.eqb command IOSRun.listCommand
      then Ok ("== Simulators ==" ++ newline
                 ++ "iPhone SE (3rd generation) (18.4) (SIM-1)")
      else Ok "" in
  let x := Utils.annotate
             (IOS.device "iPhone SE (3rd generation)" "SIM-1" simulators None
                         (Some "18.4")) in
  In (1%Z, x) (shownPairs (IOS.printed (IOS.renderDevices
                                          (snd (IOS.listDevices (sh IOSRun.listCommand))))))
  /\ JS.parseInt10 (JS.trim "1") = Some 1%Z
  /\ exists flag,
      commands (fst (IOSRun.executeDebug sh "development" "member" [Line "1"]))
      = [IOSRun.listCommand;
         IOSRun.runCommand "member" flag (IOSRun.getCleanDeviceName (name x))].
Proof.
  intros sh x.
  assert (H : In (1%Z, x)
                 (shownPairs (IOS.printed (IOS.renderDevices
                    (snd (IOS.listDevices (sh IOSRun.listCommand)))))))
    by (left; reflexivity).
  split; [exact H|]. split; [reflexivity|].
  destruct (ios_debug_runs_on_the_chosen_device sh "development" "member" 1 x "1" []
                                                H eq_refl) as (flag & Hc & _).
  exists flag. exact Hc.
Defined.

(** ** The Android actions *)

Lemma android_ids_truthy (adb emulator : result string) (d : DeviceInfo) :
  In d (snd (Android.listDevices adb emulator)) -> JS.truthy (id d) = true.
Proof.
  intros H. pose proof (android_listed_ids adb emulator) as F.
  rewrite Forall_forall in F. destruct (F d H) as [[_ T]|[_ [E _]]].
  - now apply token_truthy.
  - now rewrite E.
Qed.

Lemma listingCommands_commands (sh : shell) :
  commands (AndroidRun.listingCommands sh)
  = AndroidRun.adbCommand
      :: match sh AndroidRun.adbCommand with
         | Ok _ => [AndroidRun.emulatorCommand]
         | Throw _ => []
         end.
Proof. unfold AndroidRun.listingCommands. now destruct (sh AndroidRun.adbCommand). Qed.

Lemma listingCommands_quiet (sh : shell) :
  notices (AndroidRun.listingCommands sh) = []
  /\ asked (AndroidRun.listingCommands sh) = 0.
Proof. unfold AndroidRun.listingCommands. now destruct (sh AndroidRun.adbCommand). Qed.

Lemma android_setup_trace (sh : shell) (environment : string) :
  commands (fst (AndroidRun.setupEnvironment sh environment))
  = [AndroidRun.setupScript environment]
  /\ notices (fst (AndroidRun.setupEnvironment sh environment)) = [SettingUpAndroid]
  /\ asked (fst (AndroidRun.setupEnvironment sh environment)) = 0.
Proof.
  unfold AndroidRun.setupEnvironment.
  now destruct (sh (AndroidRun.setupScript environment)).
Qed.

(** With a device listed both listing commands have succeeded. *)
Lemma android_listing_nonempty (sh : shell) :
  snd (Android.listDevices (sh AndroidRun.adbCommand) (sh AndroidRun.emulatorCommand))
  <> [] ->
  commands (AndroidRun.listingCommands sh)
  = [AndroidRun.adbCommand; AndroidRun.emulatorCommand]
  /\ fst (Android.listDevices (sh AndroidRun.adbCommand) (sh AndroidRun.emulatorCommand))
     = [].
Proof.
  rewrite listingCommands_commands. unfold Android.listDevices.
  destruct (sh AndroidRun.adbCommand); [|now intros []].
  destruct (sh AndroidRun.emulatorCommand); [now split | now intros []].
Qed.

(** What an answer resolves to is an id to run on. *)
Lemma resolve_truthy (devices : list DeviceInfo) (text : string) :
  Forall (fun d => JS.truthy (id d) = true) devices ->
  exists s, snd (Android.resolve devices text) = Some s /\ JS.truthy s = true
            /\ questions (fst (Android.resolve devices text)) = 0.
Proof.
  intros F. unfold Android.resolve.
  destruct (String.eqb (JS.toLowerCase text) "e"); [now exists "emulator"|].
  destruct (JS.parseInt text) as [n|]; [|now exists "emulator"].
  destruct (_ || _); [now exists "emulator"|].
  destruct (nth_error devices (Z.to_nat (n - 1))) as [d|] eqn:E; [|now exists "emulator"].
  exists (id d). rewrite Forall_forall in F.
  repeat split. exact (F d (nth_error_In _ _ E)).
Qed.

(** X23. The Android debug and release actions stop for want of a device
    exactly when the listing is empty: then they print that they cannot
    proceed and run nothing besides the set-up and the listing; with a
    device listed they never print it, whatever the answer. *)
Theorem android_action_stops_only_without_devices
        (sh : shell) (action environment : string) (answers : list answer) :
  action = "d" \/ action = "r" ->
  (In CannotProceed
      (notices (fst (Panel.executeAndroidAction sh action environment answers)))
   <-> snd (Android.listDevices (sh AndroidRun.adbCommand)
                                (sh AndroidRun.emulatorCommand)) = [])
  /\ (snd (Android.listDevices (sh AndroidRun.adbCommand)
                               (sh AndroidRun.emulatorCommand)) = [] ->
      snd (Panel.executeAndroidAction sh action environment answers) = Returned tt
      /\ asked (fst (Panel.executeAndroidAction sh action environment answers)) = 0
      /\ commands (fst (Panel.executeAndroidAction sh action environment answers))
         = AndroidRun.setupScript environment
             :: commands (AndroidRun.listingCommands sh)).
Proof.
  intros Ha.
  assert (Hb : String.eqb action "b" = false) by (destruct Ha as [-> | ->]; reflexivity).
  pose proof (android_setup_trace sh environment) as (C0 & N0 & A0).
  pose proof (listingCommands_quiet sh) as (N1 & A1).
  pose proof (android_ids_truthy (sh AndroidRun.adbCommand) (sh AndroidRun.emulatorCommand))
    as T.
  unfold Panel.executeAndroidAction, AndroidRun.selectDevice, Android.selectDevice.
  destruct (AndroidRun.setupEnvironment sh environment) as [t0 b0]. cbn [fst] in *.
  destruct (Android.listDevices (sh AndroidRun.adbCommand) (sh AndroidRun.emulatorCommand))
    as [t devices] eqn:El.
  assert (Q : questions t = 0).
  { replace t with (fst (Android.listDevices (sh AndroidRun.adbCommand)
                                             (sh AndroidRun.emulatorCommand)))
      by now rewrite El.
    unfold Android.listDevices. destruct (sh AndroidRun.adbCommand); [|reflexivity].
    now destruct (sh AndroidRun.emulatorCommand). }
  cbn [snd] in *. destruct devices as [|d0 ds].
  - cbn [Panel.noDevice andb]. rewrite Hb. cbn [negb fst snd]. trace_simpl.
    rewrite C0, N0, N1, A0, A1, questions_snoc_log, Q, !app_nil_r. cbn [app].
    split; [split; [reflexivity | intros _; right; now left]|].
    intros _. now repeat split.
  - split; [|discriminate].
    split; [|discriminate]. intros H. exfalso.
    set (devices := d0 :: ds) in *.
    assert (F : Forall (fun d => JS.truthy (id d) = true) devices)
      by (apply Forall_forall; exact T).
    destruct answers as [|[text|e] rest]; cbn [fst] in H.
    + revert H. trace_simpl. rewrite N0, N1. cbn. intuition discriminate.
    + destruct (resolve_truthy devices text F) as (s & Hs & Ht & _).
      destruct (Android.resolve devices text) as [t' r]. cbn [snd] in Hs. subst r.
      cbn [Panel.noDevice Panel.orEmulator] in H. rewrite Ht in H. cbn [negb andb] in H.
      revert H.
      destruct Ha as [-> | ->]; cbn [String.eqb Ascii.eqb Bool.eqb];
        unfold AndroidRun.executeDebug, AndroidRun.executeRelease;
        match goal with |- context [sh ?c] => destruct (sh c) end;
        cbn [fst]; trace_simpl; rewrite N0, N1; cbn; intuition discriminate.
    + revert H. trace_simpl. rewrite N0, N1. cbn. intuition discriminate.
Qed.

Lemma android_action_stops_only_without_devices_witness :
  let sh : shell := fun _ => Throw "adb: not found" in
  ("d" = "d" \/ "d" = "r")
  /\ In CannotProceed
        (notices (fst (Panel.executeAndroidAction sh "d" "development" []))).
Proof.
  intros sh.
  assert (H : "d" = "d" \/ "d" = "r") by now left.
  split; [exact H|].
  exact (proj2 (proj1 (android_action_stops_only_without_devices
                         sh "d" "development" [] H)) eq_refl).
Defined.

Lemma display_questions (devices : list DeviceInfo) :
  questions (Android.display devices) = 0.
Proof.
  unfold Android.display. rewrite questions_cons_log, questions_app.
  assert (P : forall l, questions
                (map (fun '(n, d) => Log (Selectable (Some n) d)) l) = 0).
  { induction l as [|[n d] l IH]; [reflexivity | exact IH]. }
  assert (E : forall l, questions (map (fun '(n, d) => Log (SelectableName n d)) l) = 0).
  { induction l as [|[n d] l IH]; [reflexivity | exact IH]. }
  destruct (filter (hasCategory physicalDevices) devices);
    destruct (filter (hasCategory simulators) devices);
    rewrite ?questions_cons_log, ?P, ?E; reflexivity.
Qed.

(** The selector with a device listed and an answer given. *)
Lemma android_selectDevice_answered
      (sh : shell) (text : string) (rest : list answer) :
  snd (Android.listDevices (sh AndroidRun.adbCommand) (sh AndroidRun.emulatorCommand))
  <> [] ->
  exists t s,
    AndroidRun.selectDevice sh (Line text :: rest)
    = ((AndroidRun.listingCommands sh ++ map Device t)%list, Returned (Some s))
    /\ commands (AndroidRun.listingCommands sh)
       = [AndroidRun.adbCommand; AndroidRun.emulatorCommand]
    /\ questions t = 1
    /\ JS.truthy s = true
    /\ snd (Android.selectDevice (sh AndroidRun.adbCommand)
                                 (sh AndroidRun.emulatorCommand) (Line text :: rest))
       = Returned (Some s).
Proof.
  intros Hne. destruct (android_listing_nonempty sh Hne) as [Hc Ht].
  pose proof (android_ids_truthy (sh AndroidRun.adbCommand) (sh AndroidRun.emulatorCommand))
    as T.
  unfold AndroidRun.selectDevice, Android.selectDevice.
  destruct (Android.listDevices (sh AndroidRun.adbCommand) (sh AndroidRun.emulatorCommand))
    as [t devices]. cbn [fst snd] in *. subst t.
  destruct devices as [|d0 ds]; [congruence|]. set (devices := d0 :: ds) in *.
  assert (F : Forall (fun d => JS.truthy (id d) = true) devices)
    by (apply Forall_forall; exact T).
  destruct (resolve_truthy devices text F) as (s & Hs & Hs' & Hq).
  destruct (Android.resolve devices text) as [t' r]. cbn [fst snd] in *. subst r.
  eexists _, s. split; [reflexivity|]. split; [exact Hc|].
  split; [|now split].
  cbn [app]. rewrite questions_app, display_questions. cbn [Nat.add].
  change (questions (Question :: t')) with (S (questions t')). now rewrite Hq.
Qed.

(** X24. The Android debug action installs on the device the user has
    chosen by its number: the id of the listed device is handed to the
    install task, after the set-up and the two listing commands; a device
    whose id is the word [emulator] is the one exception. *)
Theorem android_debug_installs_on_the_chosen_device
        (sh : shell) (environment : string) (n : Z) (x : DeviceInfo)
        (text : string) (rest : list answer) :
  In (n, x) (shownPairs (Android.display
               (snd (Android.listDevices (sh AndroidRun.adbCommand)
                                         (sh AndroidRun.emulatorCommand))))) ->
  JS.parseInt text = Some n ->
  JS.toLowerCase text <> "e" ->
  id x <> "emulator" ->
  commands (fst (Panel.executeAndroidAction sh "d" environment (Line text :: rest)))
  = [AndroidRun.setupScript environment; AndroidRun.adbCommand;
     AndroidRun.emulatorCommand;
     "npx react-native run-android --variant="
       ++ AndroidRun.lowerVariantName (AndroidRun.getVariant environment "d")
       ++ " -Pandroid.task.apk.install.device.id=" ++ id x].
Proof.
  intros Hin Hp He Hx.
  pose proof (android_number_selects _ _ n x text rest Hin Hp He) as Hs.
  assert (Hne : snd (Android.listDevices (sh AndroidRun.adbCommand)
                                         (sh AndroidRun.emulatorCommand)) <> []).
  { intros E. rewrite E in Hin. exact Hin. }
  destruct (android_selectDevice_answered sh text rest Hne)
    as (t & s & Hsel & Hc & _ & Ht & Hs').
  rewrite Hs in Hs'. injection Hs' as <-.
  pose proof (android_setup_trace sh environment) as (C0 & _ & _).
  unfold Panel.executeAndroidAction. rewrite Hsel.
  destruct (AndroidRun.setupEnvironment sh environment) as [t0 b0]. cbn [fst] in *.
  cbn [Panel.noDevice Panel.orEmulator]. rewrite Ht.
  cbn [negb andb String.eqb Ascii.eqb Bool.eqb].
  unfold AndroidRun.executeDebug, AndroidRun.debugCommand, AndroidRun.deviceParam.
  apply String.eqb_neq in Hx. rewrite Hx.
  match goal with |- context [sh ?c] => destruct (sh c) end;
    cbn [fst]; trace_simpl; now rewrite C0, Hc.
Qed.

Lemma android_debug_installs_on_the_chosen_device_witness :
  let sh : shell :=
    fun command =>
      if String.eqb command AndroidRun.adbCommand
      then Ok ("List of devices attached" ++ newline ++ "AB12 device model:Pixel_7")
      else Ok "" in
  let x := Android.device "AB12" "Pixel 7" physicalDevices in
  In (1%Z, x) (shownPairs (Android.display
                 (snd (Android.listDevices (sh AndroidRun.adbCommand)
                                           (sh AndroidRun.emulatorCommand)))))
  /\ JS.parseInt "1" = Some 1%Z
  /\ JS.toLowerCase "1" <> "e"
  /\ id x <> "emulator"
  /\ commands (fst (Panel.executeAndroidAction sh "d" "development" [Line "1"]))
     = ["cd android && ./scripts/setup-env.sh development"; "adb devices -l";
        "emulator -list-avds";
        "npx react-native run-android --variant=debug -Pandroid.task.apk.install.device.id=AB12"].
Proof.
  intros sh x.
  assert (H : In (1%Z, x) (shownPairs (Android.display
                 (snd (Android.listDevices (sh AndroidRun.adbCommand)
                                           (sh AndroidRun.emulatorCommand))))))
    by (left; reflexivity).
  assert (He : JS.toLowerCase "1" <> "e") by discriminate.
  assert (Hx : id x <> "emulator") by discriminate.
  split; [exact H|]. split; [reflexivity|]. split; [exact He|]. split; [exact Hx|].
  exact (android_debug_installs_on_the_chosen_device
           sh "development" 1 x "1" [] H eq_refl He Hx).
Defined.

(** X25. The Android build asks for a device it does not use: with a
    device listed the build waits for an answer, and whatever the answer
    is, it runs the assemble command of the variant, which names no
    device. *)
Theorem android_build_asks_for_an_unused_device
        (sh : shell) (environment text : string) (rest : list answer) :
  snd (Android.listDevices (sh AndroidRun.adbCommand) (sh AndroidRun.emulatorCommand))
  <> [] ->
  snd (Panel.executeAndroidAction sh "b" environment []) = Awaiting
  /\ commands (fst (Panel.executeAndroidAction sh "b" environment []))
     = [AndroidRun.setupScript environment; AndroidRun.adbCommand;
        AndroidRun.emulatorCommand]
  /\ asked (fst (Panel.executeAndroidAction sh "b" environment (Line text :: rest))) = 1
  /\ commands (fst (Panel.executeAndroidAction sh "b" environment (Line text :: rest)))
     = [AndroidRun.setupScript environment; AndroidRun.adbCommand;
        AndroidRun.emulatorCommand;
        AndroidRun.assembleCommand (AndroidRun.getVariant environment "b")].
Proof.
  intros Hne.
  destruct (android_selectDevice_answered sh text rest Hne)
    as (t & s & Hsel & Hc & Hq & Ht & _).
  pose proof (android_setup_trace sh environment) as (C0 & _ & A0).
  pose proof (listingCommands_quiet sh) as (_ & A1).
  unfold Panel.executeAndroidAction. rewrite Hsel.
  unfold AndroidRun.selectDevice, Android.selectDevice.
  destruct (AndroidRun.setupEnvironment sh environment) as [t0 b0]. cbn [fst] in *.
  destruct (Android.listDevices (sh AndroidRun.adbCommand) (sh AndroidRun.emulatorCommand))
    as [t1 devices]. cbn [snd] in Hne.
  destruct devices as [|d0 ds]; [congruence|].
  cbn [Panel.noDevice]. rewrite Ht. cbn [negb andb String.eqb Ascii.eqb Bool.eqb].
  unfold AndroidRun.executeBuild.
  split; [reflexivity|]. split; [cbn [fst]; trace_simpl; now rewrite C0, Hc|].
  match goal with |- context [sh ?c] => destruct (sh c) end;
    cbn [fst]; trace_simpl; rewrite C0, A0, A1, Hc, Hq; now split.
Qed.

Lemma android_build_asks_for_an_unused_device_witness :
  let sh : shell :=
    fun command =>
      if String.eqb command AndroidRun.adbCommand
      then Ok ("List of devices attached" ++ newline ++ "AB12 device model:Pixel_7")
      else Ok "" in
  snd (Android.listDevices (sh AndroidRun.adbCommand) (sh AndroidRun.emulatorCommand))
  <> []
  /\ snd (Panel.executeAndroidAction sh "b" "development" []) = Awaiting.
Proof.
  intros sh.
  assert (H : snd (Android.listDevices (sh AndroidRun.adbCommand)
                                       (sh AndroidRun.emulatorCommand)) <> [])
    by discriminate.
  split; [exact H|].
  exact (proj1 (android_build_asks_for_an_unused_device sh "development" "x" [] H)).
Defined.

Lemma resolve_default (devices : list DeviceInfo) (text : string) :
  JS.toLowerCase text = "e" \/ noListedNumber devices text = true ->
  snd (Android.resolve devices text) = Some "emulator".
Proof.
  intros H. unfold Android.resolve.
  destruct (String.eqb_spec (JS.toLowerCase text) "e") as [E|E]; [reflexivity|].
  destruct H as [H|H]; [contradiction|]. unfold noListedNumber in H.
  destruct (JS.parseInt text) as [n|]; [|reflexivity].
  replace ((n - 1 <? 0)%Z || (Z.of_nat (List.length devices) <=? n - 1)%Z) with true;
    [reflexivity|].
  symmetry. apply orb_true_iff. apply orb_true_iff in H as [H|H].
  - left. apply Z.ltb_lt in H. apply Z.ltb_lt. lia.
  - right. apply Z.ltb_lt in H. apply Z.leb_le. lia.
Qed.

(** X26. The Android debug action falls back to the default emulator: on
    the answer e, in either case, or on an answer that is no listed
    number, it runs the application without naming a device, the command
    ending in a space. *)
Theorem android_debug_falls_back_to_the_default_emulator
        (sh : shell) (environment text : string) (rest : list answer) :
  snd (Android.listDevices (sh AndroidRun.adbCommand) (sh AndroidRun.emulatorCommand))
  <> [] ->
  JS.toLowerCase text = "e"
  \/ noListedNumber (snd (Android.listDevices (sh AndroidRun.adbCommand)
                                              (sh AndroidRun.emulatorCommand))) text
     = true ->
  commands (fst (Panel.executeAndroidAction sh "d" environment (Line text :: rest)))
  = [AndroidRun.setupScript environment; AndroidRun.adbCommand;
     AndroidRun.emulatorCommand;
     "npx react-native run-android --variant="
       ++ AndroidRun.lowerVariantName (AndroidRun.getVariant environment "d") ++ " "].
Proof.
  intros Hne Hd.
  destruct (android_selectDevice_answered sh text rest Hne)
    as (t & s & Hsel & Hc & _ & Ht & Hs).
  assert (E : s = "emulator").
  { revert Hs. unfold Android.selectDevice.
    destruct (Android.listDevices (sh AndroidRun.adbCommand)
                                  (sh AndroidRun.emulatorCommand)) as [t1 devices].
    cbn [snd] in *. destruct devices as [|d0 ds]; [congruence|].
    pose proof (resolve_default _ text Hd) as R.
    destruct (Android.resolve (d0 :: ds) text) as [t' r]. cbn [snd] in *. subst r.
    now intros [= <-]. }
  subst s.
  pose proof (android_setup_trace sh environment) as (C0 & _ & _).
  unfold Panel.executeAndroidAction. rewrite Hsel.
  destruct (AndroidRun.setupEnvironment sh environment) as [t0 b0]. cbn [fst] in *.
  cbn [Panel.noDevice Panel.orEmulator JS.truthy negb andb
       String.eqb Ascii.eqb Bool.eqb].
  unfold AndroidRun.executeDebug, AndroidRun.debugCommand, AndroidRun.deviceParam.
  cbn [String.eqb Ascii.eqb Bool.eqb].
  match goal with |- context [sh ?c] => destruct (sh c) end;
    cbn [fst]; trace_simpl; rewrite C0, Hc; cbn [app]; now rewrite append_empty_r.
Qed.

Lemma android_debug_falls_back_to_the_default_emulator_witness :
  let sh : shell :=
    fun command =>
      if String.eqb command AndroidRun.adbCommand
      then Ok ("List of devices attached" ++ newline ++ "AB12 device model:Pixel_7")
      else Ok "" in
  snd (Android.listDevices (sh AndroidRun.adbCommand) (sh AndroidRun.emulatorCommand))
  <> []
  /\ (JS.toLowerCase "E" = "e"
      \/ noListedNumber (snd (Android.listDevices (sh AndroidRun.adbCommand)
                                                  (sh AndroidRun.emulatorCommand))) "E"
         = true)
  /\ commands (fst (Panel.executeAndroidAction sh "d" "development" [Line "E"]))
     = ["cd android && ./scripts/setup-env.sh development"; "adb devices -l";
        "emulator -list-avds"; "npx react-native run-android --variant=debug "].
Proof.
  intros sh.
  assert (H : snd (Android.listDevices (sh AndroidRun.adbCommand)
                                       (sh AndroidRun.emulatorCommand)) <> [])
    by discriminate.
  assert (He : JS.toLowerCase "E" = "e"
               \/ noListedNumber (snd (Android.listDevices (sh AndroidRun.adbCommand)
                                         (sh AndroidRun.emulatorCommand))) "E" = true)
    by (left; reflexivity).
  split; [exact H|]. split; [exact He|].
  exact (android_debug_falls_back_to_the_default_emulator sh "development" "E" [] H He).
Defined.

(** ** The menu loop *)

Lemma skip_is_handled (input currentStep : string) (answers : list answer) :
  JS.trim (JS.toLowerCase input) = "skip" ->
  Cli.handleSpecialCommands true input currentStep answers
  = ([Print (Skipping currentStep)], Finished (Returned true)).
Proof. intros H. unfold Cli.handleSpecialCommands. now rewrite H. Qed.

(** What a special command reads is at most one answer. *)
Lemma handleSpecialCommands_asked (rl : bool) (input currentStep : string)
      (answers : list answer) :
  asked (fst (Cli.handleSpecialCommands rl input currentStep answers)) <= 1.
Proof.
  unfold Cli.handleSpecialCommands, Cli.confirm, Cli.question.
  destruct (_ || _).
  - destruct rl; [destruct answers as [|[text|e] rest]|]; cbn [Cli.optionOr];
      repeat match goal with
             | |- context [if ?b then _ else _] => destruct b
             end; cbn; lia.
  - destruct (String.eqb _ "skip"); cbn; lia.
Qed.

Lemma handleSpecialCommands_outcome (rl : bool) (input currentStep : string)
      (answers : list answer) :
  match snd (Cli.handleSpecialCommands rl input currentStep answers) with
  | Exited code => code = 0%Z
  | Finished (Thrown e) => exists rest, answers = Fault e :: rest
  | Finished _ => True
  end.
Proof.
  unfold Cli.handleSpecialCommands, Cli.confirm, Cli.question.
  destruct (_ || _).
  - destruct rl; [destruct answers as [|[text|e] rest]|]; cbn [Cli.optionOr];
      repeat match goal with
             | |- context [if ?b then _ else _] => destruct b
             end; cbn [snd]; eauto.
  - destruct (String.eqb _ "skip"); exact I.
Qed.

(** The fuel of the loop is never used up. *)
Lemma menuLoop_fuel (options : list UI.MenuOption) (step : string) :
  forall fuel1 fuel2 selection answers,
    List.length answers < fuel1 -> List.length answers < fuel2 ->
    UI.menuLoop fuel1 options step selection answers
    = UI.menuLoop fuel2 options step selection answers.
Proof.
  induction fuel1 as [|fuel1 IH]; intros fuel2 selection answers H1 H2; [lia|].
  destruct fuel2 as [|fuel2]; [lia|].
  cbn [UI.menuLoop].
  destruct (Cli.includes _ _); [reflexivity|].
  unfold Cli.question. destruct answers as [|[text|e] rest]; [reflexivity | | reflexivity].
  cbn [tl List.length] in *.
  pose proof (handleSpecialCommands_asked true text step rest) as Hq.
  destruct (Cli.handleSpecialCommands true text step rest) as [t1 [[[]| |]|code]];
    try reflexivity; cbn [fst] in Hq.
  - destruct (String.eqb _ "skip"); [reflexivity|].
    assert (L : List.length (skipn (asked t1) rest) <= List.length rest)
      by (rewrite length_skipn; lia).
    rewrite (IH fuel2 text (skipn (asked t1) rest)); [reflexivity | lia | lia].
  - rewrite (IH fuel2 text rest); [reflexivity | lia | lia].
Qed.

(** The selection the loop starts a turn with only counts as valid or
    not. *)
Lemma menuLoop_selection (options : list UI.MenuOption) (step : string) (fuel : nat)
      (selection1 selection2 : string) (answers : list answer) :
  Cli.includes (UI.validKeys options) (JS.toLowerCase selection1) = false ->
  Cli.includes (UI.validKeys options) (JS.toLowerCase selection2) = false ->
  UI.menuLoop fuel options step selection1 answers
  = UI.menuLoop fuel options step selection2 answers.
Proof. intros H1 H2. destruct fuel; cbn [UI.menuLoop]; now rewrite H1, H2. Qed.

Lemma find_validKeys (options : list UI.MenuOption) (selection : string) :
  match find (fun opt => String.eqb (JS.toLowerCase (UI.key opt))
                                    (JS.toLowerCase selection)) options with
  | Some opt => In opt options
                /\ JS.toLowerCase (UI.key opt) = JS.toLowerCase selection
  | None => Cli.includes (UI.validKeys options) (JS.toLowerCase selection) = false
  end.
Proof.
  induction options as [|o options IH]; [reflexivity|]. cbn [find].
  destruct (String.eqb_spec (JS.toLowerCase (UI.key o)) (JS.toLowerCase selection))
    as [E|E].
  - split; [now left | exact E].
  - destruct (find _ options) as [opt|].
    + destruct IH as [Hin He]. split; [now right | exact He].
    + unfold Cli.includes in *. cbn [UI.validKeys map existsb].
      rewrite String.eqb_sym. apply String.eqb_neq in E. now rewrite E.
Qed.

(** How the loop ends: with a valid selection, or with the first key after
    a skip; it throws only on a fault of the input or for want of an
    option. *)
Lemma menuLoop_ends (options : list UI.MenuOption) (step : string) :
  forall fuel selection answers,
    match snd (UI.menuLoop fuel options step selection answers) with
    | Finished (Returned k) =>
        Cli.includes (UI.validKeys options) (JS.toLowerCase k) = true
    | Finished (Thrown e) => options = [] \/ In (Fault e) answers
    | Finished Awaiting => True
    | Exited code => code = 0%Z
    end.
Proof.
  induction fuel as [|fuel IH]; intros selection answers; cbn [UI.menuLoop];
    destruct (Cli.includes _ (JS.toLowerCase selection)) eqn:Ev; cbn [snd];
    try exact Ev; try exact I.
  unfold Cli.question.
  destruct answers as [|[text|e] rest]; cbn [snd tl]; [exact I | | right; now left].
  pose proof (handleSpecialCommands_outcome true text step rest) as Hx.
  destruct (Cli.handleSpecialCommands true text step rest) as [t1 [[[]| |]|code]];
    cbn [snd] in *.
  - destruct (String.eqb _ "skip"); cbn [snd].
    + destruct options as [|o options]; cbn [UI.firstKey]; [now left|].
      unfold Cli.includes. cbn [UI.validKeys map existsb]. now rewrite String.eqb_refl.
    + specialize (IH text (skipn (asked t1) rest)).
      destruct (UI.menuLoop fuel options step text (skipn (asked t1) rest))
        as [t2 [[k|x|]|c]]; cbn [snd] in *; try exact IH.
      destruct IH as [IH|IH]; [now left|]. right. right.
      clear -IH. revert IH. generalize (asked t1). intros n. revert rest.
      induction n as [|n IHn]; intros rest H; [exact H|].
      destruct rest as [|a rest]; [exact H|]. right. exact (IHn _ H).
  - specialize (IH text rest).
    destruct (UI.menuLoop fuel options step text rest) as [t2 [[k|x|]|c]];
      cbn [snd] in *; try exact IH.
    destruct IH as [IH|IH]; [now left | right; now right].
  - right. right. destruct Hx as (r & ->). now left.
  - exact I.
  - exact Hx.
Qed.

(** One turn of the loop on a line, when the selection at hand is not
    valid. *)
Lemma menuLoop_line (fuel : nat) (options : list UI.MenuOption)
      (step selection text : string) (rest : list answer) :
  Cli.includes (UI.validKeys options) (JS.toLowerCase selection) = false ->
  UI.menuLoop (S fuel) options step selection (Line text :: rest)
  = match Cli.handleSpecialCommands true text step rest with
    | (t1, Exited code) => (Ask UI.choicePrompt :: t1, Exited code)
    | (t1, Finished (Returned true)) =>
        if String.eqb (JS.toLowerCase text) "skip"
        then (Ask UI.choicePrompt :: t1, Finished (UI.firstKey options))
        else
          let '(t2, e) :=
            UI.menuLoop fuel options step text (skipn (asked t1) rest) in
          ((Ask UI.choicePrompt :: t1 ++ t2)%list, e)
    | (t1, Finished (Returned false)) =>
        let said :=
          if Cli.includes (UI.validKeys options) (JS.toLowerCase text)
          then [] else [Print InvalidMenuSelection] in
        let '(t2, e) := UI.menuLoop fuel options step text rest in
        ((Ask UI.choicePrompt :: t1 ++ said ++ t2)%list, e)
    | (t1, Finished (Thrown e)) => (Ask UI.choicePrompt :: t1, Finished (Thrown e))
    | (t1, Finished Awaiting) => (Ask UI.choicePrompt :: t1, Finished Awaiting)
    end.
Proof.
  intros H. change (UI.menuLoop (S fuel) options step selection (Line text :: rest))
    with (if Cli.includes (UI.validKeys options) (JS.toLowerCase selection)
          then ([], Finished (Returned selection))
          else
            match Cli.handleSpecialCommands true text step rest with
            | (t1, Exited code) => (([Ask UI.choicePrompt] ++ t1)%list, Exited code)
            | (t1, Finished (Returned true)) =>
                if String.eqb (JS.toLowerCase text) "skip"
                then (([Ask UI.choicePrompt] ++ t1)%list, Finished (UI.firstKey options))
                else
                  let '(t2, e) :=
                    UI.menuLoop fuel options step text (skipn (asked t1) rest) in
                  (([Ask UI.choicePrompt] ++ t1 ++ t2)%list, e)
            | (t1, Finished (Returned false)) =>
                let said :=
                  if Cli.includes (UI.validKeys options) (JS.toLowerCase text)
                  then [] else [Print InvalidMenuSelection] in
                let '(t2, e) := UI.menuLoop fuel options step text rest in
                (([Ask UI.choicePrompt] ++ t1 ++ said ++ t2)%list, e)
            | (t1, Finished (Thrown e)) =>
                (([Ask UI.choicePrompt] ++ t1)%list, Finished (Thrown e))
            | (t1, Finished Awaiting) =>
                (([Ask UI.choicePrompt] ++ t1)%list, Finished Awaiting)
            end).
  rewrite H. reflexivity.
Qed.

(** X27. A menu returns nothing but the lowercased key of one of its
    options; it throws only on a fault of the input or when it has no
    option, and it ends the process only with the code 0. *)
Theorem menu_returns_a_listed_key
        (title : string) (options : list UI.MenuOption) (step currentPlatform : string)
        (answers : list answer) :
  match snd (UI.showMenu title options step currentPlatform answers) with
  | Finished (Returned k) =>
      exists opt, In opt options /\ k = JS.toLowerCase (UI.key opt)
  | Finished (Thrown e) => options = [] \/ In (Fault e) answers
  | Finished Awaiting => True
  | Exited code => code = 0%Z
  end.
Proof.
  unfold UI.showMenu.
  pose proof (menuLoop_ends options step (S (List.length answers)) "" answers) as H.
  destruct (UI.menuLoop (S (List.length answers)) options step "" answers)
    as [t [[k|x|]|c]]; cbn [snd] in *; try exact H.
  pose proof (find_validKeys options k) as F.
  destruct (find _ options) as [opt|]; cbn [snd].
  - exists opt. now split.
  - rewrite F in H. discriminate H.
Qed.

(** X28. The answer skip, in any case of its letters, selects the first
    option of a menu: the menu prints that the step is skipped and
    returns the key of the first option, after one question. *)
Theorem skip_selects_the_first_option
        (title : string) (opt : UI.MenuOption) (more : list UI.MenuOption)
        (step currentPlatform text : string) (rest : list answer) :
  JS.toLowerCase text = "skip" ->
  Cli.includes (UI.validKeys (opt :: more)) "" = false ->
  UI.showMenu title (opt :: more) step currentPlatform (Line text :: rest)
  = ([Print (Menu title (UI.entries (opt :: more)) currentPlatform);
      Ask UI.choicePrompt; Print (Skipping step);
      Print (SelectedOption (UI.label opt))],
     Finished (Returned (JS.toLowerCase (UI.key opt)))).
Proof.
  intros Hs He. unfold UI.showMenu. cbn [List.length].
  rewrite menuLoop_line by exact He.
  rewrite skip_is_handled by (rewrite Hs; reflexivity).
  rewrite Hs. cbn [String.eqb Ascii.eqb Bool.eqb UI.firstKey find].
  now rewrite String.eqb_refl.
Qed.

Lemma skip_selects_the_first_option_witness :
  let options := [UI.mkMenuOption "D" "Debug"; UI.mkMenuOption "R" "Release"] in
  JS.toLowerCase "Skip" = "skip"
  /\ Cli.includes (UI.validKeys options) "" = false
  /\ snd (UI.showMenu "Select Action:" options "action" "i" [Line "Skip"])
     = Finished (Returned "d").
Proof.
  intros options. split; [reflexivity|]. split; [reflexivity|].
  exact (f_equal snd (skip_selects_the_first_option
                        "Select Action:" (UI.mkMenuOption "D" "Debug")
                        [UI.mkMenuOption "R" "Release"] "action" "i" "Skip" []
                        eq_refl eq_refl)).
Defined.

(** X29. The word skip with blanks around it is taken for the special
    command but does not skip: the menu prints that the step is skipped,
    then asks again and goes on as if the line had not been given. *)
Theorem padded_skip_does_not_skip
        (title : string) (options : list UI.MenuOption) (step currentPlatform text : string)
        (rest : list answer) :
  JS.trim (JS.toLowerCase text) = "skip" ->
  JS.toLowerCase text <> "skip" ->
  Cli.includes (UI.validKeys options) "" = false ->
  Cli.includes (UI.validKeys options) (JS.toLowerCase text) = false ->
  snd (UI.showMenu title options step currentPlatform (Line text :: rest))
  = snd (UI.showMenu title options step currentPlatform rest)
  /\ In (Skipping step)
        (notices (fst (UI.showMenu title options step currentPlatform
                                   (Line text :: rest))))
  /\ asked (fst (UI.showMenu title options step currentPlatform (Line text :: rest)))
     = 1 + asked (fst (UI.showMenu title options step currentPlatform rest)).
Proof.
  intros Ht Hn He Hv. unfold UI.showMenu. cbn [List.length].
  rewrite menuLoop_line by exact He.
  rewrite (skip_is_handled _ _ _ Ht).
  apply String.eqb_neq in Hn. rewrite Hn.
  change (asked [Print (Skipping step)]) with 0. cbn [skipn].
  rewrite (menuLoop_selection options step _ text "" rest Hv He).
  destruct (UI.menuLoop (S (List.length rest)) options step "" rest) as [t2 [[k|x|]|c]].
  1: destruct (find _ options) as [o|]; [|destruct (UI.firstKey options)].
  all: cbn [fst snd]; trace_simpl; (split; [reflexivity|]); split;
    [right; now left | lia].
Qed.

Lemma padded_skip_does_not_skip_witness :
  let options := [UI.mkMenuOption "D" "Debug"; UI.mkMenuOption "R" "Release"] in
  JS.trim (JS.toLowerCase "skip ") = "skip"
  /\ JS.toLowerCase "skip " <> "skip"
  /\ Cli.includes (UI.validKeys options) "" = false
  /\ Cli.includes (UI.validKeys options) (JS.toLowerCase "skip ") = false
  /\ snd (UI.showMenu "Select Action:" options "action" "i" [Line "skip "; Line "r"])
     = snd (UI.showMenu "Select Action:" options "action" "i" [Line "r"]).
Proof.
  intros options.
  assert (Hn : JS.toLowerCase "skip " <> "skip") by discriminate.
  split; [reflexivity|]. split; [exact Hn|]. split; [reflexivity|].
  split; [reflexivity|].
  exact (proj1 (padded_skip_does_not_skip "Select Action:" options "action" "i"
                                          "skip " [Line "r"] eq_refl Hn eq_refl eq_refl)).
Defined.

(** ** The error output of a failed command *)

Lemma join_cons (sep x : string) (y : string) (rest : list string) :
  Verbosity.join sep (x :: y :: rest) = x ++ sep ++ Verbosity.join sep (y :: rest).
Proof. reflexivity. Qed.

Lemma split_cons (c : ascii) (s : string) :
  JS.split "010" (String c s)
  = if Ascii.eqb c "010" then "" :: JS.split "010" s
    else match JS.split "010" s with
         | x :: xs => String c x :: xs
         | [] => [String c ""]
         end.
Proof. reflexivity. Qed.

(** Joining the lines of a text gives the text back. *)
Lemma join_split (s : string) : Verbosity.join newline (JS.split "010" s) = s.
Proof.
  induction s as [|c s IH]; [reflexivity|]. rewrite split_cons.
  pose proof (split_nonempty "010" s) as Hn.
  destruct (Ascii.eqb_spec c "010") as [->|Hc].
  - destruct (JS.split "010" s) as [|x xs]; [congruence|].
    rewrite join_cons, IH. reflexivity.
  - destruct (JS.split "010" s) as [|x xs]; [congruence|].
    destruct xs as [|y ys].
    + cbn [Verbosity.join] in *. now rewrite IH.
    + rewrite join_cons in *. cbn [append]. now rewrite IH.
Qed.

Lemma split_lines (s : string) : Forall (fun l => oneLine l = true) (JS.split "010" s).
Proof.
  induction s as [|c s IH]; [repeat constructor|]. rewrite split_cons.
  pose proof (split_nonempty "010" s) as Hn.
  destruct (Ascii.eqb c "010") eqn:Ec; [constructor; [reflexivity | exact IH]|].
  destruct (JS.split "010" s) as [|x xs]; [congruence|].
  inversion IH as [|? ? Hx Hxs]; subst. constructor; [|exact Hxs].
  unfold oneLine in *. cbn [list_ascii_of_string forallb]. now rewrite Ec, Hx.
Qed.

Lemma split_oneLine_append (x rest : string) :
  oneLine x = true ->
  JS.split "010" (x ++ newline ++ rest) = x :: JS.split "010" rest.
Proof.
  induction x as [|c x IH]; intros H; [reflexivity|].
  apply oneLine_cons in H as [Hc Hx]. cbn [append]. rewrite split_cons, Hc.
  now rewrite (IH Hx).
Qed.

Lemma split_oneLine (x : string) : oneLine x = true -> JS.split "010" x = [x].
Proof.
  induction x as [|c x IH]; intros H; [reflexivity|].
  apply oneLine_cons in H as [Hc Hx]. rewrite split_cons, Hc. now rewrite (IH Hx).
Qed.

(** Splitting joined lines gives the lines back. *)
Lemma split_join (lines : list string) :
  lines <> [] -> Forall (fun l => oneLine l = true) lines ->
  JS.split "010" (Verbosity.join newline lines) = lines.
Proof.
  induction lines as [|x [|y rest] IH]; intros Hn F; [congruence| |].
  - inversion F; subst. now apply split_oneLine.
  - inversion F as [|? ? Hx F']; subst. rewrite join_cons, split_oneLine_append by exact Hx.
    rewrite IH; [reflexivity | discriminate | exact F'].
Qed.

Lemma prefix_refl (s : string) : String.prefix s s = true.
Proof. rewrite <- (append_empty_r s) at 2. apply prefix_append. Qed.

Lemma prefix_append_l (a s t : string) :
  String.prefix s t = true -> String.prefix (a ++ s) (a ++ t) = true.
Proof.
  intros H. induction a as [|c a IH]; [exact H|]. cbn [append String.prefix].
  destruct (ascii_dec c c); [exact IH | congruence].
Qed.

Lemma prefix_nil (s : string) : String.prefix "" s = true.
Proof. now destruct s. Qed.

(** The first lines of a text, joined, are a beginning of the text. *)
Lemma join_firstn_prefix (n : nat) : forall lines,
  String.prefix (Verbosity.join newline (firstn n lines))
                (Verbosity.join newline lines) = true.
Proof.
  induction n as [|n IH]; intros lines; [apply prefix_nil|].
  destruct lines as [|x [|y rest]];
    [reflexivity | cbn [firstn]; rewrite firstn_nil; apply prefix_refl|].
  destruct n as [|n].
  - cbn [firstn]. rewrite join_cons. change (Verbosity.join newline [x]) with x.
    rewrite <- (append_empty_r x) at 1. apply prefix_append_l, prefix_nil.
  - change (firstn (S (S n)) (x :: y :: rest)) with (x :: firstn (S n) (y :: rest)).
    specialize (IH (y :: rest)).
    change (firstn (S n) (y :: rest)) with (y :: firstn n rest) in *.
    rewrite !join_cons. now apply prefix_append_l, prefix_append_l.
Qed.

(** X30. In quiet mode a failed command shows the beginning of its error
    output, three lines at most: what is printed after the error message
    is a beginning of [stderr] of no more than three lines, all of
    [stderr] when that has no more than three lines, followed by the hint
    at [--verbose]; the promise is rejected with the error. *)
Theorem quiet_failure_shows_three_lines
        (description message : string) (out err : string) :
  err <> "" ->
  exists shown,
    Verbosity.executeCommand false description
                             (Verbosity.mkExecResult (Some message) out err)
    = ([Print (CommandFailed description); PrintError (ErrorMessage message);
        PrintError (Raw shown); PrintError VerboseHint],
       Throw message)
    /\ String.prefix shown err = true
    /\ List.length (JS.split "010" shown) <= 3
    /\ (List.length (JS.split "010" err) <= 3 -> shown = err).
Proof.
  intros Hn. exists (Verbosity.join newline (firstn 3 (JS.split "010" err))).
  pose proof (split_nonempty "010" err) as Hs.
  pose proof (split_lines err) as Hl.
  assert (Ht : JS.truthy err = true) by (destruct err; [congruence | reflexivity]).
  split; [|split; [|split]].
  - unfold Verbosity.executeCommand.
    cbn [Verbosity.error Verbosity.stderr]. rewrite Ht. cbn [andb].
    destruct (JS.split "010" err) as [|x xs]; [congruence | reflexivity].
  - rewrite <- (join_split err) at 2. apply join_firstn_prefix.
  - rewrite split_join.
    + rewrite length_firstn. lia.
    + destruct (JS.split "010" err); [congruence | discriminate].
    + apply Forall_forall. intros l Hin. rewrite Forall_forall in Hl.
      apply Hl. revert Hin. generalize 3. generalize (JS.split "010" err).
      induction l0 as [|a l0 IH]; intros n Hin; [now destruct n|].
      destruct n; [contradiction|]. cbn [firstn] in Hin.
      destruct Hin as [->|Hin]; [now left | right; exact (IH _ Hin)].
  - intros H. rewrite firstn_all2 by exact H. apply join_split.
Qed.

Lemma quiet_failure_shows_three_lines_witness :
  let err := "a" ++ newline ++ "b" ++ newline ++ "c" ++ newline ++ "d" in
  err <> ""
  /\ exists shown,
      Verbosity.executeCommand false "Running" (Verbosity.mkExecResult (Some "x") "" err)
      = ([Print (CommandFailed "Running"); PrintError (ErrorMessage "x");
          PrintError (Raw shown); PrintError VerboseHint], Throw "x").
Proof.
  intros err.
  assert (H : err <> "") by discriminate.
  split; [exact H|].
  destruct (quiet_failure_shows_three_lines "Running" "x" "" err H) as (shown & E & _).
  exists shown. exact E.
Defined.

(** ** The model names of the lists the deduplicator is given *)

(** A match found by a search starts where a prefix of the text ends. *)
Lemma search_inv (r : Regex.re) (s : string) : forall pos b e cs,
  Regex.search r pos s = Some (b, e, cs) ->
  exists u v, s = u ++ v /\ b = pos + String.length u
              /\ Regex.matchAt r b v = Some (e, cs).
Proof.
  induction s as [|a s IH]; intros pos b e cs H; cbn [Regex.search] in H.
  - destruct (Regex.matchAt r pos "") as [[e' cs']|] eqn:E; [|discriminate H].
    injection H as <- <- <-. exists "", "". cbn [append String.length].
    rewrite Nat.add_0_r. now repeat split.
  - destruct (Regex.matchAt r pos (String a s)) as [[e' cs']|] eqn:E.
    + injection H as <- <- <-. exists "", (String a s). cbn [append String.length].
      rewrite Nat.add_0_r. now repeat split.
    + destruct (IH _ _ _ _ H) as (u & v & -> & -> & M).
      exists (String a u), v. cbn [append String.length].
      rewrite Nat.add_succ_r. now repeat split.
Qed.

(** Literal text under the [i] flag reads a text of the same letters. *)
Lemma litsI_inv (l : string) (k : Regex.cont) (cs : Regex.caps) :
  forall s pos x,
    Regex.run (Regex.litsI l) pos s cs k = Some x ->
    exists t s', s = t ++ s'
                 /\ map JS.toUpperAscii (list_ascii_of_string t)
                    = map JS.toUpperAscii (list_ascii_of_string l)
                 /\ k (pos + String.length t) s' cs = Some x.
Proof.
  induction l as [|c l IH]; intros s pos x H; cbn [Regex.litsI Regex.run] in H.
  - exists "", s. cbn [append String.length]. rewrite Nat.add_0_r. now repeat split.
  - destruct s as [|a s]; [discriminate H|].
    destruct (Ascii.eqb_spec (JS.toUpperAscii a) (JS.toUpperAscii c)) as [E|E];
      [|discriminate H].
    destruct (IH _ _ _ H) as (t & s' & -> & Ht & Hk).
    exists (String a t), s'. cbn [append String.length list_ascii_of_string map].
    rewrite E, Ht, Nat.add_succ_r. now repeat split.
Qed.

Lemma substring_end (s : string) : substring (String.length s) 0 s = "".
Proof. induction s as [|a s IH]; [reflexivity | exact IH]. Qed.

(** What is removed at the end of a text by a pattern that reaches the
    end. *)
Lemma remove_suffix (r : Regex.re) (s : string) (P : string -> Prop) :
  P "" ->
  (forall b v e cs, Regex.matchAt r b v = Some (e, cs) ->
                    e = b + String.length v /\ P v) ->
  exists u v, s = u ++ v /\ Regex.remove r s = u /\ P v.
Proof.
  intros P0 H. unfold Regex.remove, Regex.exec.
  destruct (Regex.search r 0 s) as [[[b e] cs]|] eqn:E.
  - destruct (search_inv _ _ _ _ _ _ E) as (u & v & -> & -> & M).
    destruct (H _ _ _ _ M) as [-> Pv]. exists u, v. split; [reflexivity|].
    split; [|exact Pv]. cbn [Nat.add]. rewrite substring_prefix.
    rewrite <- length_append, Nat.sub_diag, substring_end. apply append_empty_r.
  - exists s, "". rewrite append_empty_r. now repeat split.
Qed.


Lemma toLowerCase_append (u v : string) :
  JS.toLowerCase (u ++ v) = JS.toLowerCase u ++ JS.toLowerCase v.
Proof. induction u as [|a u IH]; cbn [append JS.toLowerCase]; [reflexivity | now rewrite IH]. Qed.

(** The characters of a removed end: white space, digits, dots and
    parentheses are no letters of iphone. *)
Lemma plain_char (a : ascii) :
  Regex.ws a || Regex.digitDot a || Regex.paren a = true ->
  Ascii.eqb "p" (JS.toLowerChar a) = false
  /\ hasChar (JS.toLowerChar a) "iphone" = false.
Proof.
  destruct a as [[] [] [] [] [] [] [] []]; vm_compute; intros H;
    first [discriminate H | split; reflexivity].
Qed.

Lemma lower_p (a : ascii) :
  Ascii.eqb "p" (JS.toLowerChar a) = true -> JS.toUpperAscii a = "P"%char.
Proof.
  destruct a as [[] [] [] [] [] [] [] []]; vm_compute; intros H;
    first [discriminate H | reflexivity].
Qed.

Lemma plain_no_p (v : string) :
  allOf (fun a => Regex.ws a || Regex.digitDot a || Regex.paren a) v = true ->
  hasChar "p" (JS.toLowerCase v) = false.
Proof.
  induction v as [|a v IH]; [reflexivity|]. rewrite allOf_cons. intros H.
  apply andb_true_iff in H as [Ha Hv]. unfold hasChar in *.
  cbn [JS.toLowerCase list_ascii_of_string existsb].
  rewrite (proj1 (plain_char a Ha)). now apply IH.
Qed.

Lemma plain_noIphonePart (v : string) :
  allOf (fun a => Regex.ws a || Regex.digitDot a || Regex.paren a) v = true ->
  noIphonePart v.
Proof.
  intros H. split; [now apply plain_no_p|]. destruct v as [|a v]; [exact I|].
  rewrite allOf_cons in H. apply andb_true_iff in H as [Ha _].
  exact (proj2 (plain_char a Ha)).
Qed.

(** A text of the letters of a word without the letter p holds no p. *)
Lemma letters_no_p (l : string) :
  existsb (Ascii.eqb "P") (map JS.toUpperAscii (list_ascii_of_string l)) = false ->
  forall t, map JS.toUpperAscii (list_ascii_of_string t)
            = map JS.toUpperAscii (list_ascii_of_string l) ->
            hasChar "p" (JS.toLowerCase t) = false.
Proof.
  intros Hl t Ht. rewrite <- Ht in Hl. clear Ht. unfold hasChar.
  induction t as [|a t IH]; [reflexivity|].
  cbn [JS.toLowerCase list_ascii_of_string map existsb] in *.
  apply orb_false_iff in Hl as [Ha Hl]. rewrite (IH Hl), orb_false_r.
  destruct (Ascii.eqb "p" (JS.toLowerChar a)) eqn:E; [|reflexivity].
  rewrite (lower_p a E) in Ha. discriminate Ha.
Qed.

Lemma hasChar_app_false (c : ascii) (u v : string) :
  hasChar c u = false -> hasChar c v = false -> hasChar c (u ++ v) = false.
Proof. intros Hu Hv. now rewrite hasChar_append, Hu, Hv. Qed.

Lemma allOf_weaken_ws (w : string) :
  allOf Regex.ws w = true ->
  allOf (fun a => Regex.ws a || Regex.digitDot a || Regex.paren a) w = true.
Proof. apply allOf_impl. intros a H. now rewrite H. Qed.

(** What the pattern of the word Simulator removes. *)
Lemma simulatorSuffix_removed (s : string) :
  exists u v, s = u ++ v /\ Regex.remove Utils.simulatorSuffixRe s = u
              /\ noIphonePart v.
Proof.
  apply remove_suffix.
  - split; [reflexivity | exact I].
  - intros b v e cs M. unfold Regex.matchAt, Utils.simulatorSuffixRe in M.
    cbn [Regex.seq fold_right] in M. rewrite run_Cat in M.
    apply rep1_inv in M as (a & w & v1 & -> & Ha & Hw & M).
    rewrite run_Cat in M.
    apply litsI_inv in M as (t & v2 & -> & Ht & M).
    cbn [Regex.run] in M. destruct v2; [|discriminate M]. injection M as <- <-.
    rewrite append_empty_r. split.
    + rewrite length_append. cbn [String.length]. lia.
    + split.
      * rewrite toLowerCase_append. apply hasChar_app_false.
        -- apply plain_no_p. apply allOf_weaken_ws. now rewrite allOf_cons, Ha, Hw.
        -- now apply (letters_no_p "Simulator").
      * cbn [append]. apply plain_char. unfold Regex.ws in *. now rewrite Ha.
Qed.

(** What the pattern of the version in parentheses removes. *)
Lemma versionSuffix_removed (s : string) :
  exists u v, s = u ++ v /\ Regex.remove Utils.versionSuffixRe s = u
              /\ noIphonePart v.
Proof.
  apply remove_suffix.
  - split; [reflexivity | exact I].
  - intros b v e cs M. unfold Regex.matchAt, Utils.versionSuffixRe in M.
    cbn [Regex.seq fold_right] in M. rewrite run_Cat in M.
    cbn [Regex.run Regex.rep] in M.
    apply star_inv in M as (w1 & v1 & -> & Hw1 & M).
    destruct v1 as [|c1 v1]; [discriminate M|].
    destruct (Ascii.eqb_spec c1 "(") as [->|]; [|discriminate M].
    destruct v1 as [|c2 v1]; [discriminate M|].
    destruct (Regex.digitDot c2) eqn:Hc2; [|discriminate M].
    apply star_inv in M as (ds & v2 & -> & Hds & M).
    destruct v2 as [|c3 v2]; [discriminate M|].
    destruct (Ascii.eqb_spec c3 ")") as [->|]; [|discriminate M].
    apply star_inv in M as (w2 & v3 & -> & Hw2 & M).
    destruct v3; [|discriminate M]. injection M as <- <-.
    rewrite append_empty_r. split.
    + rewrite !length_append. cbn [String.length]. rewrite !length_append.
      cbn [String.length]. lia.
    + apply plain_noIphonePart. rewrite allOf_append. apply andb_true_iff. split.
      * now apply allOf_weaken_ws.
      * rewrite allOf_cons. cbn [Regex.paren Ascii.eqb Bool.eqb orb andb].
        rewrite orb_true_r. cbn [andb]. rewrite allOf_cons, Hc2, orb_true_r.
        cbn [orb andb]. rewrite allOf_append. apply andb_true_iff. split.
        -- revert Hds. apply allOf_impl. intros a H. now rewrite H, orb_true_r.
        -- rewrite allOf_cons. cbn [Regex.paren Ascii.eqb Bool.eqb orb andb].
           rewrite orb_true_r. cbn [andb]. now apply allOf_weaken_ws.
Qed.

(** ** The word iphone in what is left *)

Lemma prefix_app_keep (x : string) : forall p v,
  String.prefix p (x ++ v) = true ->
  match v with
  | EmptyString => True
  | String c _ => hasChar c p = false
  end ->
  String.prefix p x = true.
Proof.
  induction x as [|b x IH]; intros p v H Hv; cbn [append] in H.
  - destruct p as [|a p]; [reflexivity|]. destruct v as [|c v]; [discriminate H|].
    cbn [String.prefix] in H. destruct (ascii_dec a c) as [->|]; [|discriminate H].
    unfold hasChar in Hv. cbn [list_ascii_of_string existsb] in Hv.
    now rewrite Ascii.eqb_refl in Hv.
  - destruct p as [|a p]; [reflexivity|]. cbn [String.prefix] in *.
    destruct (ascii_dec a b); [|discriminate H]. apply (IH p v H).
    destruct v as [|c v]; [exact I|]. unfold hasChar in *.
    cbn [list_ascii_of_string existsb] in Hv. now apply orb_false_iff in Hv.
Qed.

(** A word found in a text is found in a beginning of it when the rest
    neither holds the word nor begins with one of its letters. *)
Lemma includes_app_keep (p u v : string) :
  JS.includes (u ++ v) p = true ->
  JS.includes v p = false ->
  match v with
  | EmptyString => True
  | String c _ => hasChar c p = false
  end ->
  JS.includes u p = true.
Proof.
  intros H Hn Hv. induction u as [|a u IH]; cbn [append] in H.
  - rewrite Hn in H. discriminate H.
  - cbn [JS.includes] in *. apply orb_true_iff in H as [H|H].
    + change (String a (u ++ v)) with (String a u ++ v) in H.
      now rewrite (prefix_app_keep _ _ _ H Hv).
    + rewrite (IH H). apply orb_true_r.
Qed.

Lemma no_p_no_iphone (x : string) :
  hasChar "p" x = false -> JS.includes x "iphone" = false.
Proof.
  unfold hasChar. induction x as [|a x IH]; [reflexivity|].
  cbn [list_ascii_of_string existsb]. intros H. apply orb_false_iff in H as [Ha Hx].
  cbn [JS.includes]. rewrite (IH Hx), orb_false_r.
  cbn [String.prefix]. destruct (ascii_dec "i" a); [|reflexivity].
  destruct x as [|b x]; [reflexivity|].
  cbn [list_ascii_of_string existsb] in Hx. apply orb_false_iff in Hx as [Hb _].
  cbn [String.prefix]. destruct (ascii_dec "p" b) as [<-|]; [discriminate Hb | reflexivity].
Qed.

Lemma iphone_kept (u v : string) :
  noIphonePart v ->
  JS.includes (JS.toLowerCase (u ++ v)) "iphone" = true ->
  JS.includes (JS.toLowerCase u) "iphone" = true.
Proof.
  intros [Hp Hh] H. rewrite toLowerCase_append in H.
  apply (includes_app_keep _ _ _ H); [now apply no_p_no_iphone|].
  destruct v as [|c v]; [exact I | exact Hh].
Qed.

(** The model name of an iPhone simulator still holds the word iphone. *)
Lemma iphone_model_name (d : DeviceInfo) :
  IOS.isIphone d = true ->
  JS.includes (JS.toLowerCase (Utils.extractModelName d)) "iphone" = true.
Proof.
  unfold IOS.isIphone, Utils.extractModelName. intros H.
  destruct (simulatorSuffix_removed (name d)) as (u1 & v1 & E1 & -> & P1).
  rewrite E1 in H. apply (iphone_kept _ _ P1) in H.
  destruct (versionSuffix_removed u1) as (u2 & v2 & E2 & -> & P2).
  rewrite E2 in H. exact (iphone_kept _ _ P2 H).
Qed.

(** No inherited property name holds the word iphone. *)
Lemma inherited_no_iphone (k : string) :
  Utils.inherited k = true -> JS.includes (JS.toLowerCase k) "iphone" = false.
Proof.
  unfold Utils.inherited, Utils.objectPrototypeKeys. cbn [existsb]. intros H.
  repeat match type of H with
         | (String.eqb k ?x || _) = true =>
             revert H; destruct (String.eqb_spec k x) as [->|_];
             [intros _; reflexivity | cbn [orb]; intros H]
         end.
  discriminate H.
Qed.

(** The lists the deduplicator is given, of simulators kept for the word
    iphone in their names, have no inherited property name among their
    model names. *)
Lemma iphone_not_inherited (simulators : list DeviceInfo) :
  Forall (fun d => IOS.isIphone d = true) simulators ->
  Forall (fun d => Utils.inherited (Utils.extractModelName d) = false) simulators.
Proof.
  intros F. apply Forall_forall. intros d Hd. rewrite Forall_forall in F.
  pose proof (iphone_model_name d (F d Hd)) as H.
  destruct (Utils.inherited (Utils.extractModelName d)) eqn:E; [|reflexivity].
  rewrite (inherited_no_iphone _ E) in H. discriminate H.
Qed.

(** In a listing the deduplicator never throws: the iOS [listDevices]
    prints no error when the listing command has succeeded. *)
Lemma ios_listing_dedup_succeeds (rawDeviceList : string) :
  fst (IOS.listDevices (Ok rawDeviceList)) = []
  /\ (sims (IOS.scan rawDeviceList) <> [] ->
      Utils.filterSimulatorsByHighestOSVersion (sims (IOS.scan rawDeviceList))
      = Ok (sims (snd (IOS.listDevices (Ok rawDeviceList))))).
Proof.
  cbn [IOS.listDevices].
  destruct (scan_wellCategorized rawDeviceList) as (_ & _ & Hs).
  assert (F : Forall (fun d => IOS.isIphone d = true) (sims (IOS.scan rawDeviceList))).
  { apply Forall_forall. intros d Hd. rewrite Forall_forall in Hs.
    now destruct (Hs d Hd). }
  apply iphone_not_inherited in F.
  destruct (sims (IOS.scan rawDeviceList)) as [|s0 ss] eqn:Es;
    [split; [reflexivity | congruence]|].
  pose proof (dedup_cases (s0 :: ss)) as C.
  destruct (Utils.filterSimulatorsByHighestOSVersion (s0 :: ss)) as [out|e].
  - split; reflexivity.
  - destruct C as [C _]. apply existsb_exists in C as (d & Hd & Hi).
    rewrite Forall_forall in F. rewrite (F d Hd) in Hi. discriminate Hi.
Qed.


